(** * Swap execution and settlement engine of the wallet bot

    A shallow embedding of the Python sources
      - [utils.py]                       (amount and slippage conversions),
      - [services/utils.py]              (key decryption),
      - [services/solana_client.py]      (raw submission with retries),
      - [services/jupiter_service.py]    (quotes, swaps, sells),
      - [services/solana_service.py]     (SPL token transfers),
    followed by the properties of the specification that are stated
    about them.

    Python values are modelled as the interpreter has them: [int] is [Z],
    [float] is an IEEE-754 binary64 value ([spec_float] at precision 53),
    [decimal.Decimal] is a sign, a coefficient and a power of ten, rounded
    by the default context (28 digits, half-even), [str] and [bytes] are
    [string], JSON documents and library objects are [pyval].  An [async]
    function becomes a function of the history of requests sent so far:
    every network request and every [asyncio.sleep] is appended to that
    history, and the answers of the outside world are functions of it. *)

From Stdlib Require Import ZArith NArith QArith Qabs List String Ascii Bool Lia.
From Stdlib Require Import Floats.SpecFloat DecimalString.
From stdpp Require Import base gmap strings.
Import ListNotations.

Open Scope Z_scope.

(** ** Python exceptions and results *)

Module Py.

(** The exception classes the sources raise or catch by name.  Every one
    of them is a subclass of [Exception]; [except Exception] catches all
    of them.  The two [decimal] signals and the three [builtins] errors
    below are unrelated classes: none is a subclass of another. *)
Inductive exn_class :=
| Exception
| ValueError
| TypeError
| KeyError
| IndexError
| AttributeError
| OverflowError
| ZeroDivisionError
| InvalidOperation      (* decimal.InvalidOperation *)
| DecimalOverflow.      (* decimal.Overflow *)

Definition exn_class_eqb (a b : exn_class) : bool :=
  match a, b with
  | Exception, Exception | ValueError, ValueError | TypeError, TypeError
  | KeyError, KeyError | IndexError, IndexError
  | AttributeError, AttributeError | OverflowError, OverflowError
  | ZeroDivisionError, ZeroDivisionError
  | InvalidOperation, InvalidOperation
  | DecimalOverflow, DecimalOverflow => true
  | _, _ => false
  end.

(** An exception object: its class and [str(e)]. *)
Record exn := mkExn { exn_cls : exn_class; exn_msg : string }.

(** [isinstance(e, classes)] for the tuples of leaf classes used in
    [except (A, B)] clauses. *)
Definition is_instance (e : exn) (classes : list exn_class) : bool :=
  existsb (exn_class_eqb (exn_cls e)) classes.

Inductive res (A : Type) :=
| Ok (a : A)
| Raise (e : exn).
Arguments Ok {A} a.
Arguments Raise {A} e.

Definition res_bind {A B} (r : res A) (k : A -> res B) : res B :=
  match r with
  | Ok a => k a
  | Raise e => Raise e
  end.

Definition raise {A} (c : exn_class) (msg : string) : res A :=
  Raise (mkExn c msg).

End Py.
Export Py.

Declare Scope res_scope.
Delimit Scope res_scope with res.
Notation "x <-? c1 ;; c2" := (res_bind c1 (fun x => c2))
  (at level 100, c1 at next level, right associativity) : res_scope.

(** ** Strings *)

Module Str.

(** [sub in s] for two [str] values. *)
Fixpoint contains (sub s : string) : bool :=
  String.prefix sub s ||
  match s with
  | EmptyString => false
  | String _ s' => contains sub s'
  end.

Definition starts_with (p s : string) : bool := String.prefix p s.

Fixpoint rev_string_acc (s acc : string) : string :=
  match s with
  | EmptyString => acc
  | String c s' => rev_string_acc s' (String c acc)
  end.

(** [s.split(sep)] for a non-empty separator: the pieces between the
    successive occurrences of [sep], scanned from the left.  [skip] counts
    the characters of a separator still to be passed over, [cur] holds the
    current piece in reverse. *)
Fixpoint split_go (sep : string) (skip : nat) (cur s : string) : list string :=
  match s with
  | EmptyString => [rev_string_acc cur EmptyString]
  | String c s' =>
      match skip with
      | S k => split_go sep k cur s'
      | O =>
          if String.prefix sep s
          then rev_string_acc cur EmptyString
                 :: split_go sep (String.length sep - 1) EmptyString s'
          else split_go sep 0 (String c cur) s'
      end
  end.

Definition split (sep s : string) : list string := split_go sep 0 EmptyString s.

(** [len(s)] for a [str]: a [str] is held as its UTF-8 bytes, so its
    characters are the bytes that are not continuation bytes. *)
Fixpoint len (s : string) : Z :=
  match s with
  | EmptyString => 0
  | String c s' =>
      let b := Z.of_N (N_of_ascii c) in
      (if Z.land b 192 =? 128 then 0 else 1) + len s'
  end.

(** [len(b)] for a [bytes] value. *)
Definition len_bytes (b : string) : Z := Z.of_nat (String.length b).

(** [str(n)] for an [int]. *)
Definition of_Z (n : Z) : string := NilZero.string_of_int (Z.to_int n).

End Str.

(** ** Floats: IEEE-754 binary64 *)

Module Float.

Definition prec : Z := 53.
Definition emax : Z := 1024.

Definition mul : spec_float -> spec_float -> spec_float := SFmul prec emax.

(** [float(n)] for an [int]: rounded to nearest-even, [OverflowError] when
    the magnitude is beyond the largest double. *)
Definition of_int (n : Z) : res spec_float :=
  match binary_normalize prec emax n 0 false with
  | S754_infinity _ => raise OverflowError "int too large to convert to float"
  | f => Ok f
  end.

(** The double nearest to the rational [num / den] ([den > 0]); used for
    decimal literals of the sources, for [float(Decimal)] and for the true
    division of two [int]s.  The result can be an infinity. *)
Definition of_ratio (num : Z) (den : positive) : spec_float :=
  match num with
  | Z0 => S754_zero false
  | Zpos n => SFdiv prec emax (S754_finite false n 0) (S754_finite false den 0)
  | Zneg n => SFdiv prec emax (S754_finite true n 0) (S754_finite false den 0)
  end.

(** [int(x)] for a [float]: truncation towards zero. *)
Definition to_int (f : spec_float) : res Z :=
  match f with
  | S754_nan => raise ValueError "cannot convert float NaN to integer"
  | S754_infinity _ => raise OverflowError "cannot convert float infinity to integer"
  | S754_zero _ => Ok 0
  | S754_finite s m e =>
      let mag := match e with
                 | Zneg k => Z.shiftr (Zpos m) (Zpos k)
                 | _ => Z.shiftl (Zpos m) e
                 end in
      Ok (if s then - mag else mag)
  end.

(** [a / b] for two [int]s with [b > 0]. *)
Definition int_truediv (a : Z) (b : positive) : res spec_float :=
  match of_ratio a b with
  | S754_infinity _ => raise OverflowError "integer division result too large for a float"
  | f => Ok f
  end.

(** [x * n] for a [float] and an [int]. *)
Definition mul_int (x : spec_float) (n : Z) : res spec_float :=
  (y <-? of_int n ;; Ok (mul x y))%res.

(** The exact rational value of a finite float. *)
Definition to_Q (f : spec_float) : option Q :=
  match f with
  | S754_zero _ => Some 0%Q
  | S754_finite s m e =>
      let mag := match e with
                 | Zneg k => (Zpos m # Pos.pow 2 k)%Q
                 | _ => inject_Z (Zpos m * 2 ^ e)
                 end in
      Some (if s then Qopp mag else mag)
  | _ => None
  end.

(** [x <= y] and [x / y] for two [float]s; division by a zero raises. *)
Definition leb : spec_float -> spec_float -> bool := SFleb.

Definition div (x y : spec_float) : res spec_float :=
  match y with
  | S754_zero _ => raise ZeroDivisionError "float division by zero"
  | _ => Ok (SFdiv prec emax x y)
  end.

(** [n / y] for an [int] and a [float]: the [int] is converted first. *)
Definition int_div (n : Z) (y : spec_float) : res spec_float :=
  (x <-? of_int n ;; div x y)%res.

(** The integer nearest to [num / den], ties to the even one. *)
Definition nearest_even (num : Z) (den : positive) : Z :=
  let q := num / Zpos den in
  let r := num mod Zpos den in
  if 2 * r <? Zpos den then q
  else if 2 * r >? Zpos den then q + 1
  else if Z.even q then q else q + 1.

(** [round(x, 2)]: the decimal with two places nearest to the exact value
    of [x], ties to even, then the double nearest to that decimal.  An
    infinity, a NaN and a zero come back as they are. *)
Definition round2 (x : spec_float) : spec_float :=
  match x with
  | S754_finite s m e =>
      let n := match e with
               | Zneg k => nearest_even (Zpos m * 100) (Pos.pow 2 k)
               | _ => Zpos m * 2 ^ e * 100
               end in
      if n =? 0 then S754_zero s
      else of_ratio (if s then - n else n) 100
  | _ => x
  end.

(** The literal [1e9]. *)
Definition billion : spec_float := Eval vm_compute in of_ratio 1000000000 1.

End Float.

(** ** [decimal.Decimal] under the default context

    [getcontext()] is never changed by the sources: precision 28,
    [ROUND_HALF_EVEN], [Emax = 999999], [Emin = -999999], no clamping;
    [InvalidOperation], [DivisionByZero] and [Overflow] are trapped (they
    raise), the other signals are not. *)

Module Dec.

Inductive Decimal :=
| Fin (neg : bool) (coef : N) (exp : Z)   (* (-1)^neg * coef * 10^exp *)
| Inf (neg : bool)
| NaN.

Definition prec : Z := 28.
Definition Emax : Z := 999999.
Definition Emin : Z := -999999.
Definition Etiny : Z := Emin - prec + 1.
Definition Etop : Z := Emax - prec + 1.

(** [len(str(n))]: the number of decimal digits of a coefficient; the
    number of binary digits bounds the recursion. *)
Fixpoint ndigits_fuel (fuel : nat) (n : N) : Z :=
  match fuel with
  | O => 1
  | S k => if (n <? 10)%N then 1 else 1 + ndigits_fuel k (n / 10)%N
  end.

Definition ndigits (n : N) : Z := ndigits_fuel (S (N.to_nat (N.log2 n))) n.

(** The coefficient [c] with its last [k] digits rounded away, half-even. *)
Definition round_half_even (c : N) (k : Z) : N :=
  let p := (10 ^ Z.to_N k)%N in
  let q := (c / p)%N in
  let r := (c mod p)%N in
  match (2 * r ?= p)%N with
  | Gt => (q + 1)%N
  | Eq => if N.even q then q else (q + 1)%N
  | Lt => q
  end.

(** [Decimal._fix]: round a finite result to the context. *)
Definition fix_ (neg : bool) (c : N) (e : Z) : res Decimal :=
  if (c =? 0)%N then Ok (Fin neg 0 (Z.min (Z.max e Etiny) Emax))
  else
    let exp_min := ndigits c + e - prec in
    if exp_min >? Etop then raise DecimalOverflow "above Emax"
    else
      let exp_min := Z.max exp_min Etiny in
      if e <? exp_min then
        let c1 := round_half_even c (exp_min - e) in
        let '(c2, exp_min2) :=
          if ndigits c1 >? prec then ((c1 / 10)%N, exp_min + 1) else (c1, exp_min) in
        if exp_min2 >? Etop then raise DecimalOverflow "above Emax"
        else Ok (Fin neg c2 exp_min2)
      else Ok (Fin neg c e).

(** [Decimal(n)] for an [int]: exact. *)
Definition of_int (n : Z) : Decimal := Fin (n <? 0) (Z.abs_N n) 0.

(** [a * b]. *)
Definition mul (a b : Decimal) : res Decimal :=
  match a, b with
  | NaN, _ | _, NaN => Ok NaN
  | Inf s1, Inf s2 => Ok (Inf (xorb s1 s2))
  | Inf s1, Fin s2 c _ | Fin s2 c _, Inf s1 =>
      if (c =? 0)%N then raise InvalidOperation "(+-)INF * 0"
      else Ok (Inf (xorb s1 s2))
  | Fin s1 c1 e1, Fin s2 c2 e2 => fix_ (xorb s1 s2) (c1 * c2) (e1 + e2)
  end.

(** The loop of [__truediv__] that brings an exact quotient as close to
    the ideal exponent as its trailing zeros allow. *)
Fixpoint strip_zeros (steps : nat) (coeff : N) (exp : Z) : N * Z :=
  match steps with
  | O => (coeff, exp)
  | S k => if (coeff mod 10 =? 0)%N then strip_zeros k (coeff / 10)%N (exp + 1)
           else (coeff, exp)
  end.

(** [a / b]. *)
Definition div (a b : Decimal) : res Decimal :=
  match a, b with
  | NaN, _ | _, NaN => Ok NaN
  | Inf _, Inf _ => raise InvalidOperation "(+-)INF/(+-)INF"
  | Inf s1, Fin s2 _ _ => Ok (Inf (xorb s1 s2))
  | Fin s1 _ _, Inf s2 => Ok (Fin (xorb s1 s2) 0 Etiny)
  | Fin s1 c1 e1, Fin s2 c2 e2 =>
      if (c2 =? 0)%N then
        if (c1 =? 0)%N then raise InvalidOperation "0 / 0"
        else raise ZeroDivisionError "x / 0"
      else if (c1 =? 0)%N then fix_ (xorb s1 s2) 0 (e1 - e2)
      else
        let shift := ndigits c2 - ndigits c1 + prec + 1 in
        let exp := e1 - e2 - shift in
        let '(coeff, remainder) :=
          if shift >=? 0 then N.div_eucl (c1 * 10 ^ Z.to_N shift) c2
          else N.div_eucl c1 (c2 * 10 ^ Z.to_N (- shift)) in
        let '(coeff, exp) :=
          if (remainder =? 0)%N
          then strip_zeros (Z.to_nat (e1 - e2 - exp)) coeff exp
          else ((if (coeff mod 5 =? 0)%N then coeff + 1 else coeff)%N, exp) in
        fix_ (xorb s1 s2) coeff exp
  end.

(** [value <= 0]: a comparison involving a NaN signals. *)
Definition le_zero (d : Decimal) : res bool :=
  match d with
  | NaN => raise InvalidOperation "comparison involving NaN"
  | Inf s => Ok s
  | Fin s c _ => Ok ((c =? 0)%N || s)
  end.

(** [int(d)]: truncation towards zero. *)
Definition to_int (d : Decimal) : res Z :=
  match d with
  | NaN => raise ValueError "cannot convert NaN to integer"
  | Inf _ => raise OverflowError "cannot convert Infinity to integer"
  | Fin s c e =>
      let mag := if e >=? 0 then Z.of_N c * 10 ^ e else Z.of_N c / 10 ^ (- e) in
      Ok (if s then - mag else mag)
  end.

(** [float(d)]: the double nearest to the decimal. *)
Definition to_float (d : Decimal) : spec_float :=
  match d with
  | NaN => S754_nan
  | Inf s => S754_infinity s
  | Fin s c e =>
      if (c =? 0)%N then S754_zero s
      else
        let n := if s then - Z.of_N c else Z.of_N c in
        if e >=? 0 then Float.of_ratio (n * 10 ^ e) 1
        else Float.of_ratio n (Z.to_pos (10 ^ (- e)))
  end.

(** The exact rational value of a finite decimal. *)
Definition to_Q (d : Decimal) : option Q :=
  match d with
  | Fin s c e =>
      let n := if s then - Z.of_N c else Z.of_N c in
      Some (if e >=? 0 then inject_Z (n * 10 ^ e)
            else (n # Z.to_pos (10 ^ (- e)))%Q)
  | _ => None
  end.

End Dec.

(** ** Dynamic values

    JSON documents (request bodies, replies of the aggregator and of the
    RPC node) and the objects the client libraries return.  A JSON number
    is a non-negative integer here: the replies read by the sources carry
    counts and amounts, never a sign or a fraction. *)

Module Val.

#[local] Unset Elimination Schemes.
Inductive pyval :=
| PNone
| PBool (b : bool)
| PInt (n : N)
| PStr (s : string)
| PList (items : list pyval)
| PDict (entries : list (string * pyval))
| PObj (attrs : list (string * pyval)).   (* an object and its attributes *)
#[local] Set Elimination Schemes.

Fixpoint assoc (k : string) (l : list (string * pyval)) : option pyval :=
  match l with
  | [] => None
  | (k', v) :: l' => if String.eqb k k' then Some v else assoc k l'
  end.

(** [bool(v)]. *)
Definition truthy (v : pyval) : bool :=
  match v with
  | PNone => false
  | PBool b => b
  | PInt n => negb (n =? 0)%N
  | PStr s => negb (String.eqb s "")
  | PList l => match l with [] => false | _ => true end
  | PDict d => match d with [] => false | _ => true end
  | PObj _ => true
  end.

Definition is_str (v : pyval) : bool := match v with PStr _ => true | _ => false end.
Definition is_dict (v : pyval) : bool := match v with PDict _ => true | _ => false end.

(** [v.get(k, default)]. *)
Definition get (v : pyval) (k : string) (default : pyval) : res pyval :=
  match v with
  | PDict d => Ok (match assoc k d with Some x => x | None => default end)
  | _ => raise AttributeError "object has no attribute 'get'"
  end.

(** [v[k]] for a [str] key. *)
Definition getitem (v : pyval) (k : string) : res pyval :=
  match v with
  | PDict d => match assoc k d with
               | Some x => Ok x
               | None => raise KeyError k
               end
  | PList _ => raise TypeError "list indices must be integers or slices, not str"
  | PStr _ => raise TypeError "string indices must be integers"
  | _ => raise TypeError "object is not subscriptable"
  end.

(** [v[0]]. *)
Definition getitem0 (v : pyval) : res pyval :=
  match v with
  | PList (x :: _) => Ok x
  | PList [] => raise IndexError "list index out of range"
  | PDict _ => raise KeyError "0"
  | PStr (String c _) => Ok (PStr (String c EmptyString))
  | PStr EmptyString => raise IndexError "string index out of range"
  | _ => raise TypeError "object is not subscriptable"
  end.

(** [k in v] for a [str] key. *)
Definition contains (k : string) (v : pyval) : res bool :=
  match v with
  | PDict d => Ok (match assoc k d with Some _ => true | None => false end)
  | PStr s => Ok (Str.contains k s)
  | PList l => Ok (existsb (fun x => match x with
                                     | PStr s => String.eqb s k
                                     | _ => false
                                     end) l)
  | _ => raise TypeError "argument is not iterable"
  end.

Definition hasattr (v : pyval) (name : string) : bool :=
  match v with
  | PObj a => match assoc name a with Some _ => true | None => false end
  | _ => false
  end.

(** [v.name]. *)
Definition getattr (v : pyval) (name : string) : res pyval :=
  match v with
  | PObj a => match assoc name a with
              | Some x => Ok x
              | None => raise AttributeError name
              end
  | _ => raise AttributeError name
  end.

(** [len(v)]. *)
Definition len (v : pyval) : res Z :=
  match v with
  | PStr s => Ok (Str.len s)
  | PList l => Ok (Z.of_nat (List.length l))
  | PDict d => Ok (Z.of_nat (List.length d))
  | _ => raise TypeError "object has no len()"
  end.

(** [10 ** d] for a decimals count read from a reply. *)
Definition pow10 (d : pyval) : res Z :=
  match d with
  | PInt n => Ok (10 ^ Z.of_N n)
  | PBool b => Ok (if b then 10 else 1)
  | _ => raise TypeError "unsupported operand type(s) for ** or pow()"
  end.

End Val.
Export Val.

(** ** Chain objects built by the client library *)

Record Keypair := { secret_key : string; public_key : string }.

Inductive instruction :=
| CreateAssociatedTokenAccount (payer owner mint : string)
| TokenTransfer (source dest owner : string) (amount : Z).

Record Transaction := {
  instructions : list instruction;
  recent_blockhash : option pyval
}.

(** ** Library functions left abstract

    Pure functions of the Python runtime and of the third-party packages
    whose algorithms are not part of this repository.  Each field is the
    function named in its comment; a [res] or [option] result carries the
    exception the call can raise. *)

Record Lib := {
  (* float(s) for a str; None is ValueError *)
  float_of_str : string -> option spec_float;
  (* int(s) for a str; None is ValueError *)
  int_of_str : string -> option Z;
  (* repr(x) for a float *)
  repr_float : spec_float -> string;
  (* format(x, ".6f") for a float *)
  format_6f : spec_float -> string;
  (* str(v) for a value that is not a str *)
  str_of : pyval -> string;
  (* decimal.Decimal(s) for a str; None is decimal.InvalidOperation *)
  decimal_of_str : string -> option Dec.Decimal;
  (* s.strip(), s.upper(), s.lower() *)
  strip : string -> string;
  upper : string -> string;
  lower : string -> string;
  (* str(PublicKey(s)), or what the constructor raises *)
  pubkey : string -> res string;
  (* base58.b58decode(s) *)
  b58decode : string -> res string;
  (* Keypair.from_secret_key(b) *)
  keypair_from_secret : string -> res Keypair;
  (* Transaction.deserialize(base64.b64decode(s)) followed, at signing
     time, by tx.sign(wallet) and tx.serialize(): the wire bytes *)
  deserialize_transaction : string -> res string;
  sign_and_serialize : string -> Keypair -> res string;
  (* transaction.sign(keypair) for a transaction built locally *)
  sign_transaction : Transaction -> Keypair -> res unit;
  (* get_associated_token_address(owner, mint) *)
  get_associated_token_address : string -> string -> string;
  (* os.getenv("ENCRYPTION_KEY") *)
  getenv_ENCRYPTION_KEY : option string;
  (* Fernet(key), cipher.decrypt(token), bytes.decode() *)
  fernet : string -> res string;
  fernet_decrypt : string -> string -> res string;
  utf8_decode : string -> res string
}.

(** ** [utils.py] *)

Module Utils.

Definition LAMPORTS_PER_SOL : Z := 1000000000.




(** The [amount] argument of [to_lamports]: [Union[float, str, Decimal]]. *)
Inductive amount_arg :=
| AmtFloat (f : spec_float)
| AmtStr (s : string)
| AmtDecimal (d : Dec.Decimal).

(** [Decimal(str(amount))]. *)
Definition decimal_of_amount (lib : Lib) (amount : amount_arg) : res Dec.Decimal :=
  match amount with
  | AmtDecimal d => Ok d
  | AmtStr s =>
      match decimal_of_str lib s with
      | Some d => Ok d
      | None => raise InvalidOperation "ConversionSyntax"
      end
  | AmtFloat f =>
      match decimal_of_str lib (repr_float lib f) with
      | Some d => Ok d
      | None => raise InvalidOperation "ConversionSyntax"
      end
  end.

(** The [try] body of [to_lamports]. *)
Definition to_lamports_body (lib : Lib) (amount : amount_arg) (decimals : N) : res Z :=
  (value <-? decimal_of_amount lib amount ;;
   nonpos <-? Dec.le_zero value ;;
   if (nonpos : bool) then Ok 0
   else
     product <-? Dec.mul value (Dec.of_int (10 ^ Z.of_N decimals)) ;;
     Dec.to_int product)%res.

Definition to_lamports (lib : Lib) (amount : amount_arg) (decimals : N) : res Z :=
  match to_lamports_body lib amount decimals with
  | Ok lamports => Ok lamports
  | Raise e =>
      if is_instance e [ValueError; InvalidOperation]
      then raise ValueError ("Неверное количество токенов: " +:+ exn_msg e)
      else Raise e
  end.

(** The [try] body of [from_lamports]. *)
Definition from_lamports_body (lamports : Z) (decimals : N) : res spec_float :=
  if lamports <? 0
  then raise ValueError "Количество lamports должно быть положительным"
  else
    (amount <-? Dec.div (Dec.of_int lamports) (Dec.of_int (10 ^ Z.of_N decimals)) ;;
     Ok (Dec.to_float amount))%res.

Definition from_lamports (lamports : Z) (decimals : N) : res spec_float :=
  match from_lamports_body lamports decimals with
  | Ok amount => Ok amount
  | Raise e =>
      if is_instance e [ValueError; InvalidOperation]
      then raise ValueError ("Неверное количество lamports: " +:+ exn_msg e)
      else Raise e
  end.

End Utils.

(** ** Configuration ([config.py])

    The settings read from the environment are parameters; the token table
    [SOLANA_TOKEN_ADDRESSES] comes from a module that is not part of the
    sources at hand and is a parameter too. *)

Record Config := {
  SOLANA_RPC_URL : string;
  JUPITER_API_URL : string;
  JUPITER_API_KEY : string;
  SOLANA_TOKEN_ADDRESSES : gmap string string
}.

Definition JUPITER_PLATFORM_FEE_BPS : Z := 90.
Definition JUPITER_PLATFORM_FEE_ACCOUNT : string :=
  "CSBQ7WT45JS8nrn9nXi2K4FVmpxd2Bq7BDT1x3ECi5p4".

(** ** Requests, histories and the outside world *)

Inductive http_request :=
| HttpGet (url : string) (headers params : list (string * string))
| HttpPost (url : string) (headers : list (string * string)) (body : pyval).

Inductive rpc_request :=
| GetLatestBlockhash
| SendRawTransaction (tx_bytes : string)
| GetSignatureStatuses (signatures : list string)
| GetTokenSupply (mint : string)
| GetAccountInfo (address : string)
| SendTransaction (tx : Transaction) (signer : Keypair).

Inductive event :=
| Http (rq : http_request)
| Rpc (rq : rpc_request)
| Sleep (seconds : Z).

Definition history := list event.

(** An HTTP reply: its status, what [json()] gives (it can raise) and
    its text. *)
Record http_reply := {
  status : Z;
  json : res pyval;
  text : string
}.

(** The outside world answers a request knowing everything that was sent
    before it; an answer can be a raised exception (connection error,
    timeout, an error reply turned into an exception by the client). *)
Record World := {
  http : history -> http_request -> res http_reply;
  rpc : history -> rpc_request -> res pyval
}.

(** An [async] computation: from the history so far to a result and the
    extended history. *)
Definition IO (A : Type) : Type := history -> res A * history.

Module IOM.

Definition ret {A} (a : A) : IO A := fun h => (Ok a, h).

Definition bind {A B} (m : IO A) (k : A -> IO B) : IO B :=
  fun h => match m h with
           | (Ok a, h') => k a h'
           | (Raise e, h') => (Raise e, h')
           end.

Definition throw {A} (c : exn_class) (msg : string) : IO A :=
  fun h => (raise c msg, h).

Definition rethrow {A} (e : exn) : IO A := fun h => (Raise e, h).

(** A pure computation that can raise. *)
Definition lift {A} (r : res A) : IO A := fun h => (r, h).

(** [try: m  except Exception as e: handler e]. *)
Definition try_catch {A} (m : IO A) (handler : exn -> IO A) : IO A :=
  fun h => match m h with
           | (Ok a, h') => (Ok a, h')
           | (Raise e, h') => handler e h'
           end.

Definition http_call (w : World) (rq : http_request) : IO http_reply :=
  fun h => (http w h rq, h ++ [Http rq]).

Definition rpc_call (w : World) (rq : rpc_request) : IO pyval :=
  fun h => (rpc w h rq, h ++ [Rpc rq]).

(** [await asyncio.sleep(seconds)]. *)
Definition sleep (seconds : Z) : IO unit :=
  fun h => (Ok tt, h ++ [Sleep seconds]).

End IOM.
Export IOM.

Declare Scope io_scope.
Delimit Scope io_scope with io.
Notation "x <- c1 ;; c2" := (bind c1 (fun x => c2))
  (at level 100, c1 at next level, right associativity) : io_scope.
Notation "c1 ;;; c2" := (bind c1 (fun _ => c2))
  (at level 100, right associativity) : io_scope.

(** What one pass through a loop body, or one guarded step of a
    function, leaves to do: go on, or return a value at once. *)
Inductive flow (R A : Type) :=
| Next (a : A)
| Return (r : R).
Arguments Next {R A} a.
Arguments Return {R A} r.

(** [str(v)], also the text an f-string puts for [v]. *)
Definition py_str (lib : Lib) (v : pyval) : string :=
  match v with
  | PStr s => s
  | _ => str_of lib v
  end.

(** ** More of the outside world

    The wallet views, the transfer of SOL, the confirmation loop and the
    wallet store talk to the node and to the store through calls that
    the swap code does not make.  They are kept in a history of their
    own kind. *)

Module Wire.

(** The transfer of SOL that [send_sol] builds. *)
Record sol_transfer := {
  from_pubkey : string;
  to_pubkey : string;
  lamports : Z;
  blockhash : string
}.

Inductive call :=
| ConfirmTransaction (tx_sig : pyval)
| GetBalance (pubkey : string)
| GetAccountInfo (address : string)
| GetTokenAccountBalance (address : string)
| GetLatestBlockhash
| SendTransaction (tx : sol_transfer) (signer : Keypair)
| GetDocument (id : string)
| SetDocument (id : string) (data : pyval)
| UtcNow.

Inductive step :=
| Call (c : call)
| Pause (seconds : Z).

Definition trace := list step.

(** The node and the store answer a call knowing what was asked before.
    The answer to [GetDocument] is the document as a [dict], [None] when
    there is no such document; the answer to [UtcNow] is the time read
    from the clock. *)
Record Service := {
  answer : trace -> call -> res pyval
}.

(** An [async] computation over such a history. *)
Definition Act (A : Type) : Type := trace -> res A * trace.

Definition ret {A} (a : A) : Act A := fun t => (Ok a, t).

Definition bind {A B} (m : Act A) (k : A -> Act B) : Act B :=
  fun t => match m t with
           | (Ok a, t') => k a t'
           | (Raise e, t') => (Raise e, t')
           end.

Definition throw {A} (c : exn_class) (msg : string) : Act A :=
  fun t => (raise c msg, t).

Definition rethrow {A} (e : exn) : Act A := fun t => (Raise e, t).

Definition lift {A} (r : res A) : Act A := fun t => (r, t).

Definition try_catch {A} (m : Act A) (handler : exn -> Act A) : Act A :=
  fun t => match m t with
           | (Ok a, t') => (Ok a, t')
           | (Raise e, t') => handler e t'
           end.

Definition ask (sv : Service) (c : call) : Act pyval :=
  fun t => (answer sv t c, t ++ [Call c]).

Definition pause (seconds : Z) : Act unit :=
  fun t => (Ok tt, t ++ [Pause seconds]).

End Wire.

Declare Scope act_scope.
Delimit Scope act_scope with act.
Notation "x <- c1 ;; c2" := (Wire.bind c1 (fun x => c2))
  (at level 100, c1 at next level, right associativity) : act_scope.
Notation "c1 ;;; c2" := (Wire.bind c1 (fun _ => c2))
  (at level 100, right associativity) : act_scope.

(** ** More library functions left abstract

    As for [Lib]: pure functions of the runtime and of the third-party
    packages, each field the function named in its comment. *)

Record Runtime := {
  (* bytes.fromhex(s) *)
  fromhex : string -> res string;
  (* transfer(TransferParams(from_pubkey, to_pubkey, lamports)) and
     Transaction().add(...): building the instruction can raise *)
  build_transfer : string -> string -> Z -> res unit;
  (* v.to_string() for an object that has the method *)
  to_string : pyval -> res string;
  (* transaction.sign(keypair), then transaction.signatures *)
  sign_transfer : Wire.sol_transfer -> Keypair -> res (list string);
  (* 10 ** n for a negative int n: a float *)
  pow10_float : Z -> spec_float;
  (* cipher.encrypt(data) *)
  fernet_encrypt : string -> string -> res string;
  (* d.isoformat() for a datetime *)
  isoformat : pyval -> res string;
  (* b58encode(b).decode('utf-8') *)
  b58encode_text : string -> string
}.

(** ** [services/utils.py] *)

Module KeyUtils.

Definition get_encryption_cipher (lib : Lib) : res string :=
  match getenv_ENCRYPTION_KEY lib with
  | None => raise ValueError "ENCRYPTION_KEY не найден в переменных окружения"
  | Some key =>
      if String.eqb key ""
      then raise ValueError "ENCRYPTION_KEY не найден в переменных окружения"
      else fernet lib key
  end.

(** The [try] body of [decrypt_private_key]; [encrypted_key.encode()] is
    the identity on the UTF-8 bytes that hold a [str]. *)
Definition decrypt_private_key_body (lib : Lib) (encrypted_key : string) : res string :=
  (cipher <-? get_encryption_cipher lib ;;
   decrypted <-? fernet_decrypt lib cipher encrypted_key ;;
   utf8_decode lib decrypted)%res.

Definition decrypt_private_key (lib : Lib) (encrypted_key : string) : res string :=
  match decrypt_private_key_body lib encrypted_key with
  | Ok result => Ok result
  | Raise e =>
      if (Str.len encrypted_key >=? 40) && (Str.len encrypted_key <=? 90)
      then Ok encrypted_key
      else Raise e
  end.

(** [encrypt_private_key]; its [except] clause logs and re-raises. *)
Definition encrypt_private_key (lib : Lib) (rt : Runtime) (private_key : string)
  : res string :=
  (cipher <-? get_encryption_cipher lib ;;
   encrypted <-? fernet_encrypt rt cipher private_key ;;
   utf8_decode lib encrypted)%res.

(** [is_encrypted]. *)
Definition is_encrypted (key : string) : bool :=
  Str.starts_with "g" key && (Str.len key >? 100).

End KeyUtils.

(** ** [services/solana_client.py] *)

Module SolanaClient.

(** [tx_sig['result']] when the reply is a [dict] with that key, the
    reply itself otherwise. *)
Definition result_of_reply (tx_sig : pyval) : pyval :=
  match tx_sig with
  | PDict d => match assoc "result" d with
               | Some r => r
               | None => tx_sig
               end
  | _ => tx_sig
  end.

(** The exception raised when the last attempt fails. *)
Definition submission_failed (max_retries : Z) : exn :=
  mkExn Exception ("❌ Не удалось отправить транзакцию после "
                     +:+ Str.of_Z max_retries +:+ " попыток").

(** One pass through the loop body of [send_transaction_with_retry]. *)
Definition send_attempt (w : World) (tx_bytes : string) (max_retries attempt : Z)
  : IO (flow pyval unit) :=
  try_catch
    (tx_sig <- rpc_call w (SendRawTransaction tx_bytes) ;;
     ret (Return (result_of_reply tx_sig)))%io
    (fun e =>
       let error_msg := exn_msg e in
       if Str.contains "429" error_msg then
         (sleep (2 * (attempt + 1)) ;;; ret (Next tt))%io
       else if attempt =? max_retries - 1 then
         rethrow (submission_failed max_retries)
       else
         (sleep 1 ;;; ret (Next tt))%io).

(** [for attempt in range(max_retries)], [remaining] passes left; when
    the range is used up the function ends without a [return]: [None]. *)
Fixpoint send_loop (w : World) (tx_bytes : string) (max_retries : Z)
    (remaining : nat) (attempt : Z) : IO pyval :=
  match remaining with
  | O => ret PNone
  | S k =>
      (c <- send_attempt w tx_bytes max_retries attempt ;;
       match c with
       | Return v => ret v
       | Next _ => send_loop w tx_bytes max_retries k (attempt + 1)
       end)%io
  end.

Definition send_transaction_with_retry (w : World) (tx_bytes : string) (max_retries : Z)
  : IO pyval :=
  send_loop w tx_bytes max_retries (Z.to_nat max_retries) 0.

Definition default_max_retries : Z := 3.

(** [if response and 'result' in response: value =
    response['result'].get('value', False)], and whether [value] holds. *)
Definition confirmed_of (response : pyval) : res bool :=
  if truthy response then
    (has_result <-? Val.contains "result" response ;;
     if (has_result : bool) then
       result <-? Val.getitem response "result" ;;
       value <-? Val.get result "value" (PBool false) ;;
       Ok (truthy value)
     else Ok false)%res
  else Ok false.

(** The exception raised when the last confirmation attempt fails. *)
Definition confirmation_failed (max_retries : Z) : exn :=
  mkExn Exception ("❌ Не удалось подтвердить транзакцию после "
                     +:+ Str.of_Z max_retries +:+ " попыток").

(** One pass through the loop body of [confirm_transaction_with_retry].
    The signature is unwrapped first, and stays unwrapped for the passes
    that follow: [Next] hands it on. *)
Definition confirm_attempt (sv : Wire.Service) (tx_sig : pyval)
    (max_retries attempt : Z) : Wire.Act (flow pyval pyval) :=
  let tx_sig := result_of_reply tx_sig in
  Wire.try_catch
    (response <- Wire.ask sv (Wire.ConfirmTransaction tx_sig) ;;
     confirmed <- Wire.lift (confirmed_of response) ;;
     if (confirmed : bool) then Wire.ret (Return (PBool true))
     else if attempt <? max_retries - 1 then
       (Wire.pause 2 ;;; Wire.ret (Next tx_sig))
     else Wire.ret (Return (PBool false)))%act
    (fun e =>
       if attempt <? max_retries - 1 then
         (Wire.pause 2 ;;; Wire.ret (Next tx_sig))%act
       else Wire.rethrow (confirmation_failed max_retries)).

(** [for attempt in range(max_retries)]; the function ends without a
    [return] when the range is empty: [None]. *)
Fixpoint confirm_loop (sv : Wire.Service) (tx_sig : pyval) (max_retries : Z)
    (remaining : nat) (attempt : Z) : Wire.Act pyval :=
  match remaining with
  | O => Wire.ret PNone
  | S k =>
      (c <- confirm_attempt sv tx_sig max_retries attempt ;;
       match c with
       | Return v => Wire.ret v
       | Next tx_sig' => confirm_loop sv tx_sig' max_retries k (attempt + 1)
       end)%act
  end.

Definition confirm_transaction_with_retry (sv : Wire.Service) (tx_sig : pyval)
    (max_retries : Z) : Wire.Act pyval :=
  confirm_loop sv tx_sig max_retries (Z.to_nat max_retries) 0.

End SolanaClient.

(** ** [services/jupiter_service.py] *)

Module Jupiter.

Definition SOL_MINT : string := "So11111111111111111111111111111111111111112".
Definition BONK_MINT : string := "DezXAZ8z7PnrnRJjz3wXBoRgixCa6xjnB7YaB1pPB263".
Definition USDC_MINT : string := "EPjFWdd5AufqSSqeM2qN1xzybapC8G4wEGGkZwyTDt1v".
Definition USDT_MINT : string := "Es9vMFrzaCERmJfrF4H2FYD4KCoNkY11McCe8BenwNYB".

Definition quote_api_url (cfg : Config) : string := JUPITER_API_URL cfg +:+ "quote".
Definition swap_api_url (cfg : Config) : string := JUPITER_API_URL cfg +:+ "swap".
Definition headers (cfg : Config) : list (string * string) :=
  [("Authorization", "Bearer " +:+ JUPITER_API_KEY cfg)].

(** [str(int(slippage * 100))]. *)
Definition slippage_bps (slippage : spec_float) : res string :=
  (x <-? Float.mul_int slippage 100 ;;
   n <-? Float.to_int x ;;
   Ok (Str.of_Z n))%res.

(** [if "platformFee" in result: fee_amount = result["platformFee"]["amount"]]:
    only logged, but the lookups can raise. *)
Definition log_platform_fee (result : pyval) : res unit :=
  (has_fee <-? Val.contains "platformFee" result ;;
   if (has_fee : bool) then
     fee <-? Val.getitem result "platformFee" ;;
     _ <-? Val.getitem fee "amount" ;;
     Ok tt
   else Ok tt)%res.

(** [get_best_route]; its two [except] clauses log and re-raise. *)
Definition get_best_route (cfg : Config) (lib : Lib) (w : World)
    (input_mint output_mint amount : string) (slippage : spec_float) : IO pyval :=
  (_ <- lift match pubkey lib output_mint with
             | Ok _ => Ok tt
             | Raise _ => raise ValueError ("Неверный формат адреса токена: " +:+ output_mint)
             end ;;
   bps <- lift (slippage_bps slippage) ;;
   let params := [("inputMint", input_mint);
                  ("outputMint", output_mint);
                  ("amount", amount);
                  ("slippageBps", bps);
                  ("platformFeeBps", Str.of_Z JUPITER_PLATFORM_FEE_BPS);
                  ("platformFeeAccount", JUPITER_PLATFORM_FEE_ACCOUNT)] in
   response <- http_call w (HttpGet (quote_api_url cfg) (headers cfg) params) ;;
   if negb (status response =? 200) then
     error_data <- lift (json response) ;;
     error_msg <- lift (Val.get error_data "error" (PStr "Unknown error")) ;;
     throw Exception ("Jupiter API error: " +:+ py_str lib error_msg)
   else
     result <- lift (json response) ;;
     _ <- lift (log_platform_fee result) ;;
     ret result)%io.

(** One pass through the loop body of [get_blockhash_with_retry]. *)
Definition blockhash_attempt (lib : Lib) (w : World) (max_retries attempt : Z)
  : IO (flow pyval unit) :=
  try_catch
    (response <- rpc_call w GetLatestBlockhash ;;
     match Val.getattr response "value" with
     | Ok value =>
         match Val.getattr value "blockhash" with
         | Ok blockhash => ret (Return (PStr (py_str lib blockhash)))
         | Raise _ => throw Exception "❌ Ошибка: неверный формат ответа от RPC"
         end
     | Raise _ => throw Exception "❌ Ошибка: неверный формат ответа от RPC"
     end)%io
    (fun e =>
       if attempt <? max_retries - 1 then (sleep 1 ;;; ret (Next tt))%io
       else throw Exception ("❌ Не удалось получить blockhash после "
                               +:+ Str.of_Z max_retries +:+ " попыток")).

Fixpoint blockhash_loop (lib : Lib) (w : World) (max_retries : Z)
    (remaining : nat) (attempt : Z) : IO pyval :=
  match remaining with
  | O => ret PNone
  | S k =>
      (c <- blockhash_attempt lib w max_retries attempt ;;
       match c with
       | Return v => ret v
       | Next _ => blockhash_loop lib w max_retries k (attempt + 1)
       end)%io
  end.

Definition get_blockhash_with_retry (lib : Lib) (w : World) (max_retries : Z) : IO pyval :=
  blockhash_loop lib w max_retries (Z.to_nat max_retries) 0.

(** [_get_quote]: the quote, or [None] on any failure. *)
Definition _get_quote (cfg : Config) (lib : Lib) (w : World)
    (input_mint output_mint amount : string) (slippage : spec_float) : IO pyval :=
  try_catch
    (bps <- lift (slippage_bps slippage) ;;
     let quote_params := [("inputMint", input_mint);
                          ("outputMint", output_mint);
                          ("amount", amount);
                          ("slippageBps", bps);
                          ("onlyDirectRoutes", "true");
                          ("platformFeeBps", Str.of_Z JUPITER_PLATFORM_FEE_BPS);
                          ("platformFeeAccount", JUPITER_PLATFORM_FEE_ACCOUNT)] in
     quote_response <- http_call w (HttpGet (quote_api_url cfg) (headers cfg) quote_params) ;;
     if negb (status quote_response =? 200) then
       error_data <- lift (json quote_response) ;;
       error_msg <- lift (Val.get error_data "error" (PStr "Unknown error")) ;;
       throw Exception ("Jupiter Quote API error: " +:+ py_str lib error_msg)
     else
       quote_data <- lift (json quote_response) ;;
       has_error <- lift (Val.contains "error" quote_data) ;;
       if (has_error : bool) then
         err <- lift (Val.getitem quote_data "error") ;;
         throw Exception ("Jupiter Quote API error: " +:+ py_str lib err)
       else
         _ <- lift (log_platform_fee quote_data) ;;
         ret quote_data)%io
    (fun _ => ret PNone).

(** The body sent to the swap-build endpoint. *)
Definition swap_request (user_wallet_address : string) (quote_data : pyval) : pyval :=
  PDict [("userPublicKey", PStr user_wallet_address);
         ("wrapUnwrapSOL", PBool true);
         ("quoteResponse", quote_data);
         ("asLegacyTransaction", PBool true);
         ("platformFeeBps", PInt (Z.to_N JUPITER_PLATFORM_FEE_BPS));
         ("platformFeeAccount", PStr JUPITER_PLATFORM_FEE_ACCOUNT)].

(** [_get_swap_transaction]: the base64 transaction built by the
    aggregator, or [None] on any failure. *)
Definition _get_swap_transaction (cfg : Config) (lib : Lib) (w : World)
    (user_wallet_address : string) (quote_data : pyval) : IO pyval :=
  try_catch
    (resp <- http_call w (HttpPost (swap_api_url cfg) (headers cfg)
                            (swap_request user_wallet_address quote_data)) ;;
     if negb (status resp =? 200) then
       let error_msg :=
         match (error_data <-? json resp ;;
                Val.get error_data "error" (PStr "Unknown error"))%res with
         | Ok m => py_str lib m
         | Raise json_err => "Неожиданный ответ от API: " +:+ exn_msg json_err
         end in
       throw Exception ("Jupiter Swap API error: " +:+ error_msg)
     else
       swap_data <- lift (json resp) ;;
       has_error <- lift (Val.contains "error" swap_data) ;;
       if (has_error : bool) then
         err <- lift (Val.getitem swap_data "error") ;;
         throw Exception ("Jupiter Swap API error: " +:+ py_str lib err)
       else
         tx_b64 <- lift (Val.get swap_data "swapTransaction" PNone) ;;
         if negb (truthy tx_b64) then ret PNone
         else
           n <- lift (Val.len tx_b64) ;;
           if n <? 100 then ret PNone else ret tx_b64)%io
    (fun _ => ret PNone).

(** The key [_send_swap_transaction] signs with: the decrypted key, or the
    stored key as it is when decryption raises. *)
Definition signing_key (lib : Lib) (user_private_key : string) : string :=
  match KeyUtils.decrypt_private_key lib user_private_key with
  | Ok decrypted_key => decrypted_key
  | Raise _ => user_private_key
  end.

(** The signature string read from the reply to a submission. *)
Definition signature_of_reply (lib : Lib) (tx_sig : pyval) : string :=
  match tx_sig with
  | PStr s => s
  | _ => match Val.getattr tx_sig "value" with
         | Ok v => py_str lib v
         | Raise _ => py_str lib tx_sig
         end
  end.

(** [_send_swap_transaction]: the signature of the submitted transaction,
    or [None] on any failure before or at submission.  After submission
    it sleeps two seconds and asks for the status once; what it reads
    there is only logged, and a failure of that check is swallowed. *)
Definition _send_swap_transaction (lib : Lib) (w : World)
    (swap_transaction : pyval) (user_private_key : string) : IO pyval :=
  try_catch
    (tx <- lift match swap_transaction with
                | PStr s =>
                    match deserialize_transaction lib s with
                    | Ok tx => Ok tx
                    | Raise decode_err =>
                        raise Exception ("Невозможно декодировать транзакцию: "
                                           +:+ exn_msg decode_err)
                    end
                | _ => raise Exception "Невозможно декодировать транзакцию: not a str"
                end ;;
     let decrypted_key := signing_key lib user_private_key in
     private_key_bytes <- lift (b58decode lib decrypted_key) ;;
     wallet <- lift (keypair_from_secret lib private_key_bytes) ;;
     wire <- lift (sign_and_serialize lib tx wallet) ;;
     tx_sig <- rpc_call w (SendRawTransaction wire) ;;
     let signature := signature_of_reply lib tx_sig in
     _ <- try_catch
            (sleep 2 ;;;
             _ <- rpc_call w (GetSignatureStatuses [signature]) ;;
             ret tt)
            (fun _ => ret tt) ;;
     ret (PStr signature))%io
    (fun _ => ret PNone).

(** [if attempt < max_retries - 1: sleep(1); continue] followed by
    [raise Exception(msg)], as written after each failed step. *)
Definition retry_or_raise (max_retries attempt : Z) (msg : string)
  : IO (flow pyval unit) :=
  if attempt <? max_retries - 1 then (sleep 1 ;;; ret (Next tt))%io
  else throw Exception msg.

(** One pass through the loop body of [perform_swap]. *)
Definition swap_attempt (cfg : Config) (lib : Lib) (w : World)
    (input_mint output_mint amount user_wallet_address user_private_key : string)
    (slippage : spec_float) (max_retries attempt : Z) : IO (flow pyval unit) :=
  try_catch
    (quote_data <- _get_quote cfg lib w input_mint output_mint amount slippage ;;
     if negb (truthy quote_data)
     then retry_or_raise max_retries attempt "Не удалось получить quote от Jupiter API"
     else
       swap_transaction <- _get_swap_transaction cfg lib w user_wallet_address quote_data ;;
       if negb (truthy swap_transaction)
       then retry_or_raise max_retries attempt
              "Не удалось получить транзакцию свопа от Jupiter API"
       else
         signature <- _send_swap_transaction lib w swap_transaction user_private_key ;;
         if negb (truthy signature)
         then retry_or_raise max_retries attempt "Не удалось отправить транзакцию свопа"
         else ret (Return signature))%io
    (fun e =>
       if attempt <? max_retries - 1 then (sleep 1 ;;; ret (Next tt))%io
       else rethrow e).

Fixpoint swap_loop (cfg : Config) (lib : Lib) (w : World)
    (input_mint output_mint amount user_wallet_address user_private_key : string)
    (slippage : spec_float) (max_retries : Z) (remaining : nat) (attempt : Z)
  : IO pyval :=
  match remaining with
  | O => ret PNone
  | S k =>
      (c <- swap_attempt cfg lib w input_mint output_mint amount
              user_wallet_address user_private_key slippage max_retries attempt ;;
       match c with
       | Return v => ret v
       | Next _ => swap_loop cfg lib w input_mint output_mint amount
                     user_wallet_address user_private_key slippage max_retries
                     k (attempt + 1)
       end)%io
  end.

Definition slippage_10 : spec_float := Eval vm_compute in Float.of_ratio 10 1.
Definition slippage_3 : spec_float := Eval vm_compute in Float.of_ratio 3 1.
Definition slippage_1 : spec_float := Eval vm_compute in Float.of_ratio 1 1.

(** [perform_swap]; the arguments arrive as [str] (the function converts
    them with [str()] otherwise). *)
Definition perform_swap (cfg : Config) (lib : Lib) (w : World)
    (token_out_address amount user_wallet_address user_private_key : string)
    (slippage : spec_float) (max_retries : Z) (is_selling : bool) : IO pyval :=
  let input_mint := if is_selling then token_out_address else SOL_MINT in
  let output_mint := if is_selling then SOL_MINT else token_out_address in
  let is_bonk := negb is_selling && String.eqb output_mint BONK_MINT in
  let slippage := if is_bonk then slippage_10 else slippage in
  swap_loop cfg lib w input_mint output_mint amount user_wallet_address
    user_private_key slippage max_retries (Z.to_nat max_retries) 0.

Definition perform_swap_default_max_retries : Z := 2.

Definition solscan_url (tx_signature : string) : string :=
  "https://solscan.io/tx/" +:+ tx_signature.

(** [signature.split('Signature(')[1].split(')')[0]] when the text holds
    ['Signature('], the text itself otherwise. *)
Definition extract_signature (signature : string) : res string :=
  if Str.contains "Signature(" signature then
    match Str.split "Signature(" signature with
    | _ :: part :: _ =>
        match Str.split ")" part with
        | x :: _ => Ok x
        | [] => raise IndexError "list index out of range"
        end
    | _ => raise IndexError "list index out of range"
    end
  else Ok signature.

(** The message [execute_swap] returns for an exception. *)
Definition swap_error_message (e : exn) : string :=
  let error_message := exn_msg e in
  if Str.contains "Custom: 1" error_message then
    "❌ Ошибка транзакции: Недостаточная ликвидность или слишком маленькая сумма обмена"
  else if Str.contains "Custom: 6000" error_message then
    "❌ Ошибка транзакции: Слишком высокое проскальзывание"
  else if Str.contains "0x1771" error_message then
    "❌ Ошибка транзакции: Недостаточно средств для выполнения обмена"
  else "❌ Ошибка: " +:+ error_message.

(** [execute_swap].  The status check after the swap sleeps two seconds
    and asks once; what it reads is only logged. *)
Definition execute_swap (cfg : Config) (lib : Lib) (w : World)
    (user_pubkey user_privkey : string) (route : pyval) : IO string :=
  try_catch
    (output_mint <- lift (Val.get route "outputMint" PNone) ;;
     amount <- lift (Val.get route "inAmount" PNone) ;;
     if negb (truthy output_mint && truthy amount) then
       throw ValueError "❌ Неверный формат route: отсутствуют необходимые параметры"
     else
       let bonk_slippage :=
         match output_mint with
         | PStr m => if String.eqb m BONK_MINT then slippage_10 else slippage_1
         | _ => slippage_1
         end in
       signature <- perform_swap cfg lib w (py_str lib output_mint) (py_str lib amount)
                      user_pubkey user_privkey bonk_slippage
                      perform_swap_default_max_retries false ;;
       tx_signature <- lift match signature with
                            | PStr s => extract_signature s
                            | _ => Ok (py_str lib signature)
                            end ;;
       _ <- try_catch
              (sleep 2 ;;;
               _ <- rpc_call w (GetSignatureStatuses [tx_signature]) ;;
               ret tt)
              (fun _ => ret tt) ;;
       ret (solscan_url tx_signature))%io
    (fun e => ret (swap_error_message e)).

(** The JSON-RPC bodies posted to the node. *)
Definition token_supply_payload (id : pyval) (mint : string) : pyval :=
  PDict [("jsonrpc", PStr "2.0"); ("id", id);
         ("method", PStr "getTokenSupply");
         ("params", PList [PStr mint])].

Definition token_accounts_payload (owner mint : string) : pyval :=
  PDict [("jsonrpc", PStr "2.0"); ("id", PStr "2");
         ("method", PStr "getTokenAccountsByOwner");
         ("params", PList [PStr owner;
                           PDict [("mint", PStr mint)];
                           PDict [("encoding", PStr "jsonParsed")]])].

(** [data.get("result", {}).get("value", {}).get("decimals", 9)]. *)
Definition decimals_of_reply (data : pyval) : res pyval :=
  (r <-? Val.get data "result" (PDict []) ;;
   v <-? Val.get r "value" (PDict []) ;;
   Val.get v "decimals" (PInt 9))%res.

(** [get_token_decimals]. *)
Definition get_token_decimals (cfg : Config) (w : World) (token_address : string)
  : IO pyval :=
  try_catch
    (response <- http_call w (HttpPost (SOLANA_RPC_URL cfg) []
                                (token_supply_payload (PInt 1) token_address)) ;;
     if negb (status response =? 200) then ret (PInt 9)
     else
       data <- lift (json response) ;;
       has_error <- lift (Val.contains "error" data) ;;
       if (has_error : bool) then ret (PInt 9)
       else
         decimals <- lift (decimals_of_reply data) ;;
         ret decimals)%io
    (fun _ => ret (PInt 9)).

(** [int(v)] for a value read from a reply. *)
Definition py_int (lib : Lib) (v : pyval) : res Z :=
  match v with
  | PStr s => match int_of_str lib s with
              | Some n => Ok n
              | None => raise ValueError "invalid literal for int()"
              end
  | PInt n => Ok (Z.of_N n)
  | PBool b => Ok (if b then 1 else 0)
  | _ => raise TypeError "int() argument must be a string or a number"
  end.

(** The last [try] block of [get_token_balance]: read the balance out of
    the first token account of the reply. *)
Definition read_account_balance (lib : Lib) (value decimals : pyval) : res (Z * pyval) :=
  match (first <-? Val.getitem0 value ;;
         account <-? Val.getitem first "account" ;;
         account_data <-? Val.getitem account "data" ;;
         match account_data with
         | PStr _ => Ok (0, decimals)
         | PDict _ =>
             parsed_data <-? Val.get account_data "parsed" (PDict []) ;;
             if negb (truthy parsed_data) then Ok (0, decimals)
             else
               has_info <-? Val.contains "info" parsed_data ;;
               if negb has_info then Ok (0, decimals)
               else
                 token_info <-? Val.getitem parsed_data "info" ;;
                 has_amount <-? Val.contains "tokenAmount" token_info ;;
                 if negb has_amount then Ok (0, decimals)
                 else
                   token_amount <-? Val.getitem token_info "tokenAmount" ;;
                   amount <-? Val.getitem token_amount "amount" ;;
                   balance <-? py_int lib amount ;;
                   Ok (balance, decimals)
         | _ => Ok (0, decimals)
         end)%res with
  | Ok r => Ok r
  | Raise e => if is_instance e [IndexError; KeyError] then Ok (0, decimals) else Raise e
  end.

(** The token address a symbol of the token table stands for. *)
Definition resolve_symbol (cfg : Config) (lib : Lib) (token_address : string) : string :=
  match SOLANA_TOKEN_ADDRESSES cfg !! upper lib token_address with
  | Some address => address
  | None => token_address
  end.

(** [get_token_balance]: the raw balance and the decimals of the token. *)
Definition get_token_balance (cfg : Config) (lib : Lib) (w : World)
    (wallet_address token_address : string) : IO (Z * pyval) :=
  try_catch
    (let token_address := resolve_symbol cfg lib token_address in
     let wallet_address := strip lib wallet_address in
     let token_address := strip lib token_address in
     match pubkey lib token_address with
     | Raise _ => ret (0, PInt 9)
     | Ok token_pubkey =>
     match pubkey lib wallet_address with
     | Raise _ => ret (0, PInt 9)
     | Ok wallet_pubkey =>
         response <- http_call w (HttpPost (SOLANA_RPC_URL cfg) []
                                    (token_supply_payload (PStr "1") token_pubkey)) ;;
         if negb (status response =? 200) then ret (0, PInt 9)
         else
           decimals_data <- lift (json response) ;;
           has_error <- lift (Val.contains "error" decimals_data) ;;
           if (has_error : bool) then ret (0, PInt 9)
           else
             decimals <- lift (decimals_of_reply decimals_data) ;;
             response <- http_call w (HttpPost (SOLANA_RPC_URL cfg) []
                                        (token_accounts_payload wallet_pubkey token_pubkey)) ;;
             if negb (status response =? 200) then ret (0, decimals)
             else
               data <- lift (json response) ;;
               has_error <- lift (Val.contains "error" data) ;;
               if (has_error : bool) then ret (0, decimals)
               else
                 value <- lift (r <-? Val.get data "result" (PDict []) ;;
                                Val.get r "value" (PList []))%res ;;
                 if negb (truthy value) then ret (0, decimals)
                 else lift (read_account_balance lib value decimals)
     end end)%io
    (fun _ => ret (0, PInt 9)).

(** The [amount] argument of [execute_sell]: [Union[int, float, str]], or
    a value of another type. *)
Inductive sell_amount :=
| SellInt (n : Z)
| SellStr (s : string)
| SellFloat (f : spec_float)
| SellOther.

(** [int(x * (10 ** token_decimals))] for a float [x]. *)
Definition scale_float (x : spec_float) (token_decimals : pyval) : res Z :=
  (p <-? Val.pow10 token_decimals ;;
   y <-? Float.mul_int x p ;;
   Float.to_int y)%res.

(** The conversion of [amount] to [raw_amount]: the [try] block that
    catches [(ValueError, TypeError)] and returns a message for them. *)
Definition convert_amount (lib : Lib) (amount : sell_amount) (token_decimals : pyval)
  : res (flow string Z) :=
  match (raw_amount <-? match amount with
                        | SellInt n => Ok n
                        | SellStr s =>
                            match float_of_str lib s with
                            | Some amount_float => scale_float amount_float token_decimals
                            | None => raise ValueError
                                        ("could not convert string to float: '" +:+ s +:+ "'")
                            end
                        | SellFloat f => scale_float f token_decimals
                        | SellOther => raise ValueError "Неверный тип amount"
                        end ;;
         if raw_amount >? 10 ^ 18
         then raise ValueError ("Сумма слишком большая: " +:+ Str.of_Z raw_amount)
         else Ok raw_amount)%res with
  | Ok raw_amount => Ok (Next raw_amount)
  | Raise e =>
      if is_instance e [ValueError; TypeError]
      then Ok (Return ("❌ Ошибка: Неверный формат суммы: " +:+ exn_msg e))
      else Raise e
  end.

Definition one_hundredth : spec_float := Eval vm_compute in Float.of_ratio 1 100.

(** [int(0.01 * (10 ** token_decimals))], from the power already taken. *)
Definition min_balance_of (p : Z) : res Z :=
  (x <-? Float.mul_int one_hundredth p ;; Float.to_int x)%res.

(** The balance guard of [execute_sell]: the message returned when the
    request exceeds the balance, otherwise the amount to sell, lowered to
    leave [min_balance] when less than that would remain.  The divisions
    feed the log and the message; they are kept because they can raise. *)
Definition balance_guard (lib : Lib) (token_balance_raw raw_amount : Z)
    (token_decimals : pyval) : res (flow string Z) :=
  (p <-? Val.pow10 token_decimals ;;
   token_balance <-? Float.int_truediv token_balance_raw (Z.to_pos p) ;;
   if raw_amount >? token_balance_raw then
     human_balance <-? Float.int_truediv token_balance_raw (Z.to_pos p) ;;
     human_amount <-? Float.int_truediv raw_amount (Z.to_pos p) ;;
     Ok (Return ("❌ Ошибка: Недостаточно токенов. Баланс: "
                   +:+ format_6f lib human_balance
                   +:+ ", Запрошено: " +:+ format_6f lib human_amount))
   else
     min_balance <-? min_balance_of p ;;
     if token_balance_raw - raw_amount <? min_balance then
       let raw_amount := token_balance_raw - min_balance in
       human_amount <-? Float.int_truediv raw_amount (Z.to_pos p) ;;
       _ <-? Float.int_truediv min_balance (Z.to_pos p) ;;
       Ok (Next raw_amount)
     else Ok (Next raw_amount))%res.

(** The message [execute_sell] returns for an exception of the route and
    swap step. *)
Definition sell_error_message (lib : Lib) (original_input : string) (e : exn) : string :=
  let error_msg := exn_msg e in
  let low := lower lib error_msg in
  if Str.contains "insufficient funds" low || Str.contains "not enough lamports" low then
    "❌ Ошибка: Недостаточно средств для выполнения операции"
  else if Str.contains "invalid token" low || Str.contains "invalid mint" low then
    "❌ Ошибка: Неверный адрес токена"
  else if Str.contains "slippage exceeded" low then
    "❌ Ошибка: Превышен порог проскальзывания. Попробуйте еще раз"
  else if Str.contains "liquidity" low then
    "❌ Ошибка: Недостаточная ликвидность для продажи. Попробуйте уменьшить сумму"
  else if Str.contains "Custom: 1" error_msg then
    "❌ Ошибка: Недостаточная ликвидность в пуле для продажи токена"
  else "❌ Ошибка при продаже токена " +:+ original_input +:+ ": " +:+ error_msg.

Definition no_route_message (original_input : string) : string :=
  "❌ Ошибка: Не удалось найти маршрут для продажи токена " +:+ original_input.

(** The inner [try] of [execute_sell]: quote, then swap at once. *)
Definition sell_route_and_swap (cfg : Config) (lib : Lib) (w : World)
    (original_input token_address user_pubkey user_privkey : string)
    (raw_amount : Z) (slippage : spec_float) : IO string :=
  try_catch
    (route <- get_best_route cfg lib w token_address SOL_MINT
                (Str.of_Z raw_amount) slippage ;;
     if negb (truthy route) then ret (no_route_message original_input)
     else
       has_plan <- lift (Val.contains "routePlan" route) ;;
       plan <- (if (has_plan : bool) then lift (Val.get route "routePlan" PNone)
                else ret PNone) ;;
       if negb has_plan || negb (truthy plan) then ret (no_route_message original_input)
       else
         signature <- perform_swap cfg lib w token_address (Str.of_Z raw_amount)
                        user_pubkey user_privkey slippage
                        perform_swap_default_max_retries true ;;
         if negb (truthy signature)
         then ret "❌ Ошибка: Не удалось получить signature транзакции"
         else
           match signature with
           | PStr s => ret (solscan_url s)
           | _ =>
               match extract_signature (py_str lib signature) with
               | Ok tx_signature => ret (solscan_url tx_signature)
               | Raise _ => ret "❌ Ошибка: Неверный формат signature транзакции"
               end
           end)%io
    (fun e => ret (sell_error_message lib original_input e)).

(** What [execute_sell] has established when it reaches its balance
    guard. *)
Record sell_state := {
  sell_user_pubkey : string;      (* the wallet address, stripped *)
  sell_original_input : string;   (* the token as the caller gave it *)
  sell_token_address : string;    (* the token address after the table *)
  sell_balance_raw : Z;           (* token_balance_raw *)
  sell_decimals : pyval;          (* token_decimals *)
  sell_raw_amount : Z             (* raw_amount as requested *)
}.

(** First part of [execute_sell]: validation of the wallet and token
    addresses, balance lookup, conversion of the amount.  [Return] holds
    the message of an early [return]. *)
Definition sell_prepare (cfg : Config) (lib : Lib) (w : World)
    (user_pubkey token_address : string) (amount : sell_amount)
  : IO (flow string sell_state) :=
  (let user_pubkey := strip lib user_pubkey in
   if Str.len user_pubkey <? 32 then
     ret (Return ("❌ Ошибка: Слишком короткий адрес кошелька: " +:+ user_pubkey))
   else
   match b58decode lib user_pubkey with
   | Raise e =>
       ret (Return ("❌ Ошибка: Адрес кошелька не в формате base58: " +:+ exn_msg e))
   | Ok decoded =>
   if negb (Str.len_bytes decoded =? 32) then
     ret (Return ("❌ Ошибка: Неверная длина декодированного адреса кошелька: "
                    +:+ Str.of_Z (Str.len_bytes decoded) +:+ " байт (должно быть 32)"))
   else
   match pubkey lib user_pubkey with
   | Raise e => ret (Return ("❌ Ошибка: Невалидный адрес кошелька: " +:+ exn_msg e))
   | Ok wallet_pubkey =>
   let original_input := token_address in
   let token_address := resolve_symbol cfg lib token_address in
   match pubkey lib token_address with
   | Raise e => ret (Return ("❌ Ошибка: Невалидный адрес токена " +:+ original_input
                               +:+ ": " +:+ exn_msg e))
   | Ok token_pubkey =>
       balance <- get_token_balance cfg lib w wallet_pubkey token_pubkey ;;
       let '(token_balance_raw, token_decimals) := balance in
       if token_balance_raw =? 0 then
         ret (Return ("❌ Ошибка: Не удалось получить баланс токена " +:+ original_input))
       else
         converted <- lift (convert_amount lib amount token_decimals) ;;
         match converted with
         | Return message => ret (Return message)
         | Next raw_amount =>
             ret (Next {| sell_user_pubkey := user_pubkey;
                          sell_original_input := original_input;
                          sell_token_address := token_address;
                          sell_balance_raw := token_balance_raw;
                          sell_decimals := token_decimals;
                          sell_raw_amount := raw_amount |})
         end
   end end end)%io.

(** Second part of [execute_sell]: the balance guard, the choice of the
    slippage, then quote and swap. *)
Definition sell_guarded (cfg : Config) (lib : Lib) (w : World)
    (user_privkey : string) (st : sell_state) : IO string :=
  (guarded <- lift (balance_guard lib (sell_balance_raw st) (sell_raw_amount st)
                      (sell_decimals st)) ;;
   match guarded with
   | Return message => ret message
   | Next raw_amount =>
       let slippage :=
         if String.eqb (sell_token_address st) USDC_MINT
            || String.eqb (sell_token_address st) USDT_MINT
         then slippage_1 else slippage_3 in
       sell_route_and_swap cfg lib w (sell_original_input st) (sell_token_address st)
         (sell_user_pubkey st) user_privkey raw_amount slippage
   end)%io.

(** [execute_sell]; [user_pubkey] arrives as a [str] (the function
    converts it with [str()] otherwise). *)
Definition execute_sell (cfg : Config) (lib : Lib) (w : World)
    (user_pubkey user_privkey token_address : string) (amount : sell_amount)
  : IO string :=
  try_catch
    (prepared <- sell_prepare cfg lib w user_pubkey token_address amount ;;
     match prepared with
     | Return message => ret message
     | Next st => sell_guarded cfg lib w user_privkey st
     end)%io
    (fun e => ret ("❌ Ошибка: " +:+ exn_msg e)).

End Jupiter.

(** ** [services/solana_service.py] *)

Module SolanaService.







(** *** [send_sol] *)

(** The secret key [send_sol] signs with: the text decoded as base58,
    or as hex when base58 fails or gives nothing; 64 bytes or nothing. *)
Definition decode_secret (lib : Lib) (rt : Runtime) (from_private_key : string)
  : res string :=
  let as_base58 := match b58decode lib from_private_key with
                   | Ok b => Some b
                   | Raise _ => None
                   end in
  let nothing (o : option string) := match o with
                                     | Some b => String.eqb b ""
                                     | None => true
                                     end in
  let private_key_bytes :=
    if nothing as_base58 then
      match fromhex rt from_private_key with
      | Ok b => Some b
      | Raise _ => as_base58
      end
    else as_base58 in
  match private_key_bytes with
  | Some b =>
      if String.eqb b "" || negb (Str.len_bytes b =? 64)
      then raise ValueError "Не удалось создать корректный ключ нужной длины (64 байта)"
      else Ok b
  | None => raise ValueError "Не удалось создать корректный ключ нужной длины (64 байта)"
  end.

(** The [try] block that makes the keypair; whatever it raises comes
    out as a [ValueError]. *)
Definition sender_keypair (lib : Lib) (rt : Runtime) (from_private_key : string)
  : res Keypair :=
  match (private_key_bytes <-? decode_secret lib rt from_private_key ;;
         keypair_from_secret lib private_key_bytes)%res with
  | Ok keypair => Ok keypair
  | Raise keypair_error =>
      raise ValueError ("Не удалось создать keypair из приватного ключа: "
                          +:+ exn_msg keypair_error)
  end.

Definition recipient_pubkey (lib : Lib) (to_address : string) : res string :=
  match pubkey lib to_address with
  | Ok to_pubkey => Ok to_pubkey
  | Raise pubkey_error =>
      raise ValueError ("Неверный адрес получателя: " +:+ exn_msg pubkey_error)
  end.

(** [int(amount * 1e9)]. *)
Definition sol_to_lamports (amount : spec_float) : res Z :=
  Float.to_int (Float.mul amount Float.billion).

(** The blockhash as text, from the reply to [get_latest_blockhash]. *)
Definition blockhash_text (lib : Lib) (rt : Runtime) (blockhash_resp : pyval)
  : res string :=
  (value <-? Val.getattr blockhash_resp "value" ;;
   recent_blockhash <-? Val.getattr value "blockhash" ;;
   if Val.hasattr recent_blockhash "to_string"
   then to_string rt recent_blockhash
   else Ok (py_str lib recent_blockhash))%res.

(** The signature read from the reply to [send_transaction]. *)
Definition sol_signature_of (lib : Lib) (tx_resp : pyval) : res pyval :=
  if Val.hasattr tx_resp "value" then
    (tx_signature <-? Val.getattr tx_resp "value" ;;
     if Val.hasattr tx_signature "signature"
     then Val.getattr tx_signature "signature"
     else Ok tx_signature)%res
  else
    match tx_resp with
    | PDict d =>
        match assoc "result" d with
        | Some r => Ok r
        | None => raise Exception ("Error sending transaction: " +:+ py_str lib tx_resp)
        end
    | _ => raise Exception ("Error sending transaction: " +:+ py_str lib tx_resp)
    end.

(** [send_sol]; its [except] clause logs and re-raises. *)
Definition send_sol (lib : Lib) (rt : Runtime) (sv : Wire.Service)
    (from_private_key to_address : string) (amount : spec_float) : Wire.Act pyval :=
  if String.eqb from_private_key "" then
    Wire.throw ValueError "Приватный ключ не предоставлен"
  else if String.eqb to_address "" then
    Wire.throw ValueError "Адрес получателя не предоставлен"
  else if Float.leb amount (S754_zero false) then
    Wire.throw ValueError ("Некорректная сумма для отправки: " +:+ repr_float lib amount)
  else
    (keypair <- Wire.lift (sender_keypair lib rt from_private_key) ;;
     let from_pubkey := public_key keypair in
     to_pubkey <- Wire.lift (recipient_pubkey lib to_address) ;;
     lamports <- Wire.lift (sol_to_lamports amount) ;;
     _ <- Wire.lift (build_transfer rt from_pubkey to_pubkey lamports) ;;
     blockhash_resp <- Wire.ask sv Wire.GetLatestBlockhash ;;
     recent_blockhash <- Wire.lift (blockhash_text lib rt blockhash_resp) ;;
     let transaction := {| Wire.from_pubkey := from_pubkey;
                           Wire.to_pubkey := to_pubkey;
                           Wire.lamports := lamports;
                           Wire.blockhash := recent_blockhash |} in
     signatures <- Wire.lift (sign_transfer rt transaction keypair) ;;
     match signatures with
     | [] => Wire.throw ValueError "Транзакция не содержит подписей после вызова sign()"
     | _ :: _ =>
         tx_resp <- Wire.ask sv (Wire.SendTransaction transaction keypair) ;;
         Wire.lift (sol_signature_of lib tx_resp)
     end)%act.
(** *** The wallet views *)

Definition zero : spec_float := S754_zero false.

(** [float(v)] for a value read from a reply. *)
Definition py_float (lib : Lib) (v : pyval) : res spec_float :=
  match v with
  | PStr s => match float_of_str lib s with
              | Some f => Ok f
              | None => raise ValueError ("could not convert string to float: '" +:+ s +:+ "'")
              end
  | PInt n => Float.of_int (Z.of_N n)
  | PBool b => Ok (if b then Float.of_ratio 1 1 else zero)
  | _ => raise TypeError "float() argument must be a string or a real number"
  end.

(** [x / (10 ** n)] for a [float] and an [int]: the power is an [int]
    for [n >= 0], converted for the division, and a [float] for [n < 0]. *)
Definition div_pow10 (rt : Runtime) (x : spec_float) (n : Z) : res spec_float :=
  if n <? 0 then Float.div x (pow10_float rt n)
  else (p <-? Float.of_int (10 ^ n) ;; Float.div x p)%res.

(** The innermost [try] of [get_sol_balance]: the lamports of the reply
    in SOL, rounded to two places; [0.0] for a reply of another shape
    and for the four exception classes its [except] names. *)
Definition sol_balance_of (lib : Lib) (response : pyval) : res spec_float :=
  match (balance <-? (if Val.hasattr response "value" then
                        v <-? Val.getattr response "value" ;;
                        b <-? Jupiter.py_int lib v ;;
                        Ok (Some b)
                      else
                        match response with
                        | PDict d =>
                            match assoc "result" d with
                            | Some r =>
                                v <-? Val.getitem r "value" ;;
                                b <-? Jupiter.py_int lib v ;;
                                Ok (Some b)
                            | None => Ok None
                            end
                        | _ => Ok None
                        end) ;;
         match balance with
         | None => Ok zero
         | Some balance =>
             final_balance <-? Float.int_div balance Float.billion ;;
             Ok (Float.round2 final_balance)
         end)%res with
  | Ok x => Ok x
  | Raise e =>
      if is_instance e [KeyError; ValueError; TypeError; AttributeError]
      then Ok zero else Raise e
  end.

(** [get_sol_balance]. *)
Definition get_sol_balance (lib : Lib) (sv : Wire.Service) (public_key : string)
  : Wire.Act spec_float :=
  Wire.try_catch
    (owner <- Wire.lift (pubkey lib public_key) ;;
     response <- Wire.ask sv (Wire.GetBalance owner) ;;
     if negb (truthy response) then Wire.ret zero
     else Wire.lift (sol_balance_of lib response))%act
    (fun _ => Wire.ret zero).

(** [v.get(k, default)] for a [dict], [getattr(v, k, default)]
    otherwise. *)
Definition field (v : pyval) (k : string) (default : pyval) : pyval :=
  match v with
  | PDict d => match assoc k d with Some x => x | None => default end
  | PObj a => match assoc k a with Some x => x | None => default end
  | _ => default
  end.

(** The innermost [try] of [get_token_balance]. *)
Definition token_balance_of (lib : Lib) (rt : Runtime) (response : pyval)
  : res spec_float :=
  match (result <-? (if Val.hasattr response "value" then
                       v <-? Val.getattr response "value" ;; Ok (Some v)
                     else
                       match response with
                       | PDict d => Ok (assoc "result" d)
                       | _ => Ok None
                       end) ;;
         match result with
         | None => Ok zero
         | Some result =>
             let amount := field result "amount" (PStr "0") in
             let decimals := field result "decimals" (PInt 0) in
             x <-? py_float lib amount ;;
             n <-? Jupiter.py_int lib decimals ;;
             balance <-? div_pow10 rt x n ;;
             Ok (Float.round2 balance)
         end)%res with
  | Ok x => Ok x
  | Raise e =>
      if is_instance e [KeyError; ValueError; TypeError; AttributeError]
      then Ok zero else Raise e
  end.

(** [get_token_balance] of the wallet views: the balance of one token
    in tokens, rounded to two places; [0.0] on any failure. *)
Definition get_token_balance (lib : Lib) (rt : Runtime) (sv : Wire.Service)
    (public_key token_mint : string) : Wire.Act spec_float :=
  if String.eqb public_key "" || String.eqb token_mint "" then Wire.ret zero
  else if Str.starts_with "/" token_mint || (Str.len token_mint <? 32) then Wire.ret zero
  else
    Wire.try_catch
      (owner_pubkey <- Wire.lift (pubkey lib public_key) ;;
       token_pubkey <- Wire.lift (pubkey lib token_mint) ;;
       let token_account := get_associated_token_address lib owner_pubkey token_pubkey in
       account_info <- Wire.ask sv (Wire.GetAccountInfo token_account) ;;
       if negb (truthy account_info) then Wire.ret zero
       else
         value <- Wire.lift (Val.getattr account_info "value") ;;
         if negb (truthy value) then Wire.ret zero
         else
           response <- Wire.ask sv (Wire.GetTokenAccountBalance token_account) ;;
           if negb (truthy response) then Wire.ret zero
           else Wire.lift (token_balance_of lib rt response))%act
      (fun _ => Wire.ret zero).

End SolanaService.

(** ** [services/firebase_service.py] *)

Module Firebase.

(** [get_user_wallet]: the [wallet] entry of the user's document,
    [None] without a document or on any failure. *)
Definition get_user_wallet (sv : Wire.Service) (user_id : Z) : Wire.Act pyval :=
  Wire.try_catch
    (data <- Wire.ask sv (Wire.GetDocument (Str.of_Z user_id)) ;;
     match data with
     | PNone => Wire.ret PNone
     | _ => Wire.lift (Val.get data "wallet" PNone)
     end)%act
    (fun _ => Wire.ret PNone).

(** [save_user_wallet]: merges the wallet and the time into the user's
    document; [True], or [False] on any failure. *)
Definition save_user_wallet (sv : Wire.Service) (user_id : Z) (wallet_data : pyval)
  : Wire.Act bool :=
  Wire.try_catch
    (now <- Wire.ask sv Wire.UtcNow ;;
     _ <- Wire.ask sv (Wire.SetDocument (Str.of_Z user_id)
                         (PDict [("wallet", wallet_data); ("updated_at", now)])) ;;
     Wire.ret true)%act
    (fun _ => Wire.ret false).

(** [save_export_timestamp]: merges the time of the export into the
    user's document; [True], or [False] on any failure. *)
Definition save_export_timestamp (sv : Wire.Service) (user_id : Z) (timestamp : pyval)
  : Wire.Act bool :=
  Wire.try_catch
    (now <- Wire.ask sv Wire.UtcNow ;;
     _ <- Wire.ask sv (Wire.SetDocument (Str.of_Z user_id)
                         (PDict [("last_export", timestamp); ("updated_at", now)])) ;;
     Wire.ret true)%act
    (fun _ => Wire.ret false).

End Firebase.

(** ** [services/wallet.py] *)

Module WalletService.

(** The pair [get_wallet] returns. *)
Definition wallet_of (public_key private_key : pyval) : pyval :=
  PDict [("public_key", public_key); ("private_key", private_key)].

(** [create_wallet]; its [except] clause logs and re-raises.  The pair
    of keys that [Keypair()] draws is an argument. *)
Definition create_wallet (lib : Lib) (rt : Runtime) (sv : Wire.Service) (user_id : Z)
    (keypair : Keypair) : Wire.Act pyval :=
  (let public_key := public_key keypair in
   let private_key := b58encode_text rt (secret_key keypair) in
   encrypted_private_key <- Wire.lift (KeyUtils.encrypt_private_key lib rt private_key) ;;
   now <- Wire.ask sv Wire.UtcNow ;;
   created_at <- Wire.lift (isoformat rt now) ;;
   _ <- Firebase.save_user_wallet sv user_id
          (PDict [("public_key", PStr public_key);
                  ("private_key", PStr encrypted_private_key);
                  ("created_at", PStr created_at)]) ;;
   Wire.ret (wallet_of (PStr public_key) (PStr private_key)))%act.

(** The inner [try] of the branch for a key that is not recognised as
    encrypted: encrypt it and store it; a failure is only logged. *)
Definition upgrade_stored_key (lib : Lib) (rt : Runtime) (sv : Wire.Service)
    (user_id : Z) (wallet_data : pyval) (private_key : string) : Wire.Act unit :=
  Wire.try_catch
    (encrypted_key <- Wire.lift (KeyUtils.encrypt_private_key lib rt private_key) ;;
     public_key <- Wire.lift (Val.getitem wallet_data "public_key") ;;
     now <- Wire.ask sv Wire.UtcNow ;;
     updated_at <- Wire.lift (isoformat rt now) ;;
     _ <- Firebase.save_user_wallet sv user_id
            (PDict [("public_key", public_key);
                    ("private_key", PStr encrypted_key);
                    ("updated_at", PStr updated_at)]) ;;
     Wire.ret tt)%act
    (fun _ => Wire.ret tt).

(** The [try] around the handling of the key, with its [except]: a key
    of 40 to 90 characters comes back as stored when the handling
    fails.  The length of the key is taken for the log line before the
    key is looked at. *)
Definition unlock (lib : Lib) (rt : Runtime) (sv : Wire.Service) (user_id : Z)
    (wallet_data : pyval) : Wire.Act pyval :=
  Wire.try_catch
    (stored <- Wire.lift (Val.getitem wallet_data "private_key") ;;
     _ <- Wire.lift (Val.len stored) ;;
     match stored with
     | PStr private_key =>
         decrypted_private_key <-
           (if KeyUtils.is_encrypted private_key
            then Wire.lift (KeyUtils.decrypt_private_key lib private_key)
            else
              (upgrade_stored_key lib rt sv user_id wallet_data private_key ;;;
               Wire.ret private_key)) ;;
         public_key <- Wire.lift (Val.getitem wallet_data "public_key") ;;
         Wire.ret (wallet_of public_key (PStr decrypted_private_key))
     | _ => Wire.throw AttributeError "object has no attribute 'startswith'"
     end)%act
    (fun e =>
       (stored <- Wire.lift (Val.getitem wallet_data "private_key") ;;
        n <- Wire.lift (Val.len stored) ;;
        if (n >=? 40) && (n <=? 90) then
          public_key <- Wire.lift (Val.getitem wallet_data "public_key") ;;
          Wire.ret (wallet_of public_key stored)
        else Wire.rethrow e)%act).

(** [get_wallet]: the wallet with its key in the clear, or [None]. *)
Definition get_wallet (lib : Lib) (rt : Runtime) (sv : Wire.Service) (user_id : Z)
  : Wire.Act pyval :=
  Wire.try_catch
    (wallet_data <- Firebase.get_user_wallet sv user_id ;;
     if truthy wallet_data then unlock lib rt sv user_id wallet_data
     else Wire.ret PNone)%act
    (fun _ => Wire.ret PNone).

(** [export_private_key]: the key of [get_wallet], with the time of the
    export noted in the store; [None] without a wallet or on any
    failure. *)
Definition export_private_key (lib : Lib) (rt : Runtime) (sv : Wire.Service)
    (user_id : Z) : Wire.Act pyval :=
  Wire.try_catch
    (wallet_data <- get_wallet lib rt sv user_id ;;
     if truthy wallet_data then
       now <- Wire.ask sv Wire.UtcNow ;;
       _ <- Firebase.save_export_timestamp sv user_id now ;;
       Wire.lift (Val.getitem wallet_data "private_key")
     else Wire.ret PNone)%act
    (fun _ => Wire.ret PNone).

End WalletService.

(** ** [services/price_service.py] *)

Module PriceService.

(** [get_token_price_jupiter]: the price of a token in USD through its
    price in SOL; [0.0] without a route and on any failure.  The quote
    is asked with the default slippage of [get_best_route]. *)
Definition get_token_price_jupiter (cfg : Config) (lib : Lib) (w : World)
    (token_mint : string) (sol_price_usd : spec_float) : IO spec_float :=
  try_catch
    (decimals <- try_catch (Jupiter.get_token_decimals cfg w token_mint)
                   (fun _ => ret (PInt 9)) ;;
     amount <- lift (Val.pow10 decimals) ;;
     route <- Jupiter.get_best_route cfg lib w token_mint Jupiter.SOL_MINT
                (Str.of_Z amount) Jupiter.slippage_10 ;;
     if negb (truthy route) then ret (S754_zero false)
     else
       out <- lift (Val.get route "outAmount" PNone) ;;
       if negb (truthy out) then ret (S754_zero false)
       else
         out <- lift (Val.getitem route "outAmount") ;;
         lamports <- lift (Jupiter.py_int lib out) ;;
         out_amount <- lift (Float.int_div lamports Float.billion) ;;
         ret (Float.mul out_amount sol_price_usd))%io
    (fun _ => ret (S754_zero false)).

End PriceService.

(** ** [encrypt_existing_keys.py] *)

Module Migration.

(** [d[k] = v] for a [dict]: the entry is replaced where it stands, or
    added at the end. *)
Fixpoint set_entry (k : string) (v : pyval) (d : list (string * pyval))
  : list (string * pyval) :=
  match d with
  | [] => [(k, v)]
  | (k', v') :: d' =>
      if String.eqb k k' then (k, v) :: d' else (k', v') :: set_entry k v d'
  end.

(** [len(private_key) > 100 and private_key.startswith('g')]. *)
Definition looks_encrypted (private_key : pyval) : res bool :=
  (n <-? Val.len private_key ;;
   if n >? 100 then
     match private_key with
     | PStr s => Ok (Str.starts_with "g" s)
     | _ => raise AttributeError "object has no attribute 'startswith'"
     end
   else Ok false)%res.

(** [encrypt_private_key(v)] for a value read from the store: only a
    [str] has [encode]. *)
Definition encrypt_value (lib : Lib) (rt : Runtime) (private_key : pyval) : res string :=
  match private_key with
  | PStr s => KeyUtils.encrypt_private_key lib rt s
  | _ =>
      (_ <-? KeyUtils.get_encryption_cipher lib ;;
       raise AttributeError "object has no attribute 'encode'")%res
  end.

(** [encrypt_user_private_key]: encrypts the stored key of one user
    unless it looks encrypted already; [True] when the key is encrypted
    in the store afterwards. *)
Definition encrypt_user_private_key (lib : Lib) (rt : Runtime) (sv : Wire.Service)
    (user_id : Z) : Wire.Act bool :=
  (wallet_data <- Firebase.get_user_wallet sv user_id ;;
   if negb (truthy wallet_data) then Wire.ret false
   else
     has_key <- Wire.lift (Val.contains "private_key" wallet_data) ;;
     if negb has_key then Wire.ret false
     else
       private_key <- Wire.lift (Val.getitem wallet_data "private_key") ;;
       Wire.try_catch
         (done <- Wire.lift (looks_encrypted private_key) ;;
          if (done : bool) then Wire.ret true
          else
            encrypted_key <- Wire.lift (encrypt_value lib rt private_key) ;;
            updated <- Wire.lift
                         match wallet_data with
                         | PDict d =>
                             Ok (PDict (set_entry "private_key" (PStr encrypted_key) d))
                         | _ => raise TypeError "object does not support item assignment"
                         end ;;
            Firebase.save_user_wallet sv user_id updated)
         (fun _ => Wire.ret false))%act.

End Migration.

(** ** Vocabulary of the specification *)

Module Spec.

(** A decimal amount that is at most zero. *)
Definition nonpositive (d : Dec.Decimal) : Prop :=
  match d with
  | Dec.NaN => False
  | Dec.Inf s => s = true
  | Dec.Fin _ _ _ => exists q, Dec.to_Q d = Some q /\ (q <= 0)%Q
  end.

(** *** Submission with retries

    The retry policy of [submit] as the amended claim C3 words it, for
    the runs that it covers: an attempt is numbered from 0, a reply whose
    text holds "429" is a rate limit. *)

Definition rate_limited (e : exn) : bool := Str.contains "429" (exn_msg e).

(** An error [e] carries [last] when the text of [last] occurs in it. *)
Definition carries (e last : exn) : Prop :=
  Str.contains (exn_msg last) (exn_msg e) = true.

Definition submit_request (tx_bytes : string) : event :=
  Rpc (SendRawTransaction tx_bytes).

Inductive retry_spec (w : World) (tx_bytes : string) (max_retries : Z)
  : Z -> history -> res pyval -> history -> Prop :=
| retry_success attempt h tx_sig :
    0 <= attempt < max_retries ->
    rpc w h (SendRawTransaction tx_bytes) = Ok tx_sig ->
    retry_spec w tx_bytes max_retries attempt h
      (Ok (SolanaClient.result_of_reply tx_sig))
      (h ++ [submit_request tx_bytes])
| retry_rate_limited attempt h e r h' :
    0 <= attempt < max_retries - 1 ->
    rpc w h (SendRawTransaction tx_bytes) = Raise e ->
    rate_limited e = true ->
    retry_spec w tx_bytes max_retries (attempt + 1)
      (h ++ [submit_request tx_bytes; Sleep (2 * (attempt + 1))]) r h' ->
    retry_spec w tx_bytes max_retries attempt h r h'
| retry_transient attempt h e r h' :
    0 <= attempt < max_retries - 1 ->
    rpc w h (SendRawTransaction tx_bytes) = Raise e ->
    rate_limited e = false ->
    retry_spec w tx_bytes max_retries (attempt + 1)
      (h ++ [submit_request tx_bytes; Sleep 1]) r h' ->
    retry_spec w tx_bytes max_retries attempt h r h'
| retry_exhausted attempt h e :
    0 <= attempt -> attempt = max_retries - 1 ->
    rpc w h (SendRawTransaction tx_bytes) = Raise e ->
    rate_limited e = false ->
    retry_spec w tx_bytes max_retries attempt h
      (Raise (SolanaClient.submission_failed max_retries))
      (h ++ [submit_request tx_bytes]).

(** The number of submissions in a stretch of history. *)
Definition is_submission (ev : event) : bool :=
  match ev with
  | Rpc (SendRawTransaction _) => true
  | _ => false
  end.

Definition submissions (evs : list event) : nat :=
  List.length (List.filter is_submission evs).

(** *** Decimals lookup *)

(** The query [rq] sent after [h] succeeds and its reply gives [d] as the
    decimals of the token. *)
Definition decimals_reply (w : World) (h : history) (rq : http_request) (d : pyval)
  : Prop :=
  exists reply data,
    http w h rq = Ok reply /\ status reply = 200 /\ json reply = Ok data /\
    Val.contains "error" data = Ok false /\
    Jupiter.decimals_of_reply data = Ok d.

(** *** Quotes *)

(** The quote request [get_best_route] sends. *)
Definition quote_request (cfg : Config) (input_mint output_mint amount bps : string)
  : event :=
  Http (HttpGet (Jupiter.quote_api_url cfg) (Jupiter.headers cfg)
          [("inputMint", input_mint);
           ("outputMint", output_mint);
           ("amount", amount);
           ("slippageBps", bps);
           ("platformFeeBps", Str.of_Z JUPITER_PLATFORM_FEE_BPS);
           ("platformFeeAccount", JUPITER_PLATFORM_FEE_ACCOUNT)]).


(** *** Token transfers *)



(** *** Swaps

    One pass of [perform_swap] is a cycle: a quote request, a swap-build
    request, a submission, and after an accepted submission a sleep of
    two seconds and one status request.  A cycle stops at the first step
    that fails. *)

Definition is_quote (cfg : Config) (ev : event) : bool :=
  match ev with
  | Http (HttpGet url _ _) => String.eqb url (Jupiter.quote_api_url cfg)
  | _ => false
  end.

(** The value of a query parameter. *)
Fixpoint param (k : string) (params : list (string * string)) : option string :=
  match params with
  | [] => None
  | (k', v) :: rest => if String.eqb k k' then Some v else param k rest
  end.

(** A quote request that asks for [amount]. *)
Definition is_quote_of (cfg : Config) (amount : string) (ev : event) : bool :=
  match ev with
  | Http (HttpGet url _ params) =>
      String.eqb url (Jupiter.quote_api_url cfg) &&
      match param "amount" params with
      | Some a => String.eqb a amount
      | None => false
      end
  | _ => false
  end.

Definition is_swap_build (cfg : Config) (ev : event) : bool :=
  match ev with
  | Http (HttpPost url _ _) => String.eqb url (Jupiter.swap_api_url cfg)
  | _ => false
  end.

(** A request for the chain's current anchor (the latest blockhash). *)
Definition is_anchor_fetch (ev : event) : bool :=
  match ev with
  | Rpc GetLatestBlockhash => true
  | _ => false
  end.

Definition count (p : event -> bool) (evs : list event) : nat :=
  List.length (List.filter p evs).

Inductive cycle_outcome :=
| NoQuote
| NoSwapTransaction
| NoSubmission
| Submitted (signature : string).

Definition failed (o : cycle_outcome) : Prop :=
  match o with
  | Submitted _ => False
  | _ => True
  end.

(** The exception [perform_swap] raises when its last cycle fails. *)
Definition failure_of (o : cycle_outcome) : exn :=
  mkExn Exception
    match o with
    | NoQuote => "Не удалось получить quote от Jupiter API"
    | NoSwapTransaction => "Не удалось получить транзакцию свопа от Jupiter API"
    | _ => "Не удалось отправить транзакцию свопа"
    end.

Inductive swap_cycle (cfg : Config) (amount : string)
  : cycle_outcome -> list event -> Prop :=
| cycle_unquoted :
    swap_cycle cfg amount NoQuote []
| cycle_no_quote q :
    is_quote_of cfg amount q = true ->
    swap_cycle cfg amount NoQuote [q]
| cycle_no_swap_transaction q b :
    is_quote_of cfg amount q = true -> is_swap_build cfg b = true ->
    swap_cycle cfg amount NoSwapTransaction [q; b]
| cycle_unsigned q b :
    is_quote_of cfg amount q = true -> is_swap_build cfg b = true ->
    swap_cycle cfg amount NoSubmission [q; b]
| cycle_refused q b tx :
    is_quote_of cfg amount q = true -> is_swap_build cfg b = true ->
    swap_cycle cfg amount NoSubmission [q; b; Rpc (SendRawTransaction tx)]
| cycle_empty_signature q b tx :
    is_quote_of cfg amount q = true -> is_swap_build cfg b = true ->
    swap_cycle cfg amount NoSubmission
      [q; b; Rpc (SendRawTransaction tx); Sleep 2; Rpc (GetSignatureStatuses [""])]
| cycle_submitted q b tx signature :
    is_quote_of cfg amount q = true -> is_swap_build cfg b = true ->
    signature <> "" ->
    swap_cycle cfg amount (Submitted signature)
      [q; b; Rpc (SendRawTransaction tx); Sleep 2;
       Rpc (GetSignatureStatuses [signature])].

(** [n] cycles in a row, every one but the last a failure followed by a
    sleep of one second; the outcome is that of the last cycle. *)
Inductive swap_cycles (cfg : Config) (amount : string)
  : nat -> cycle_outcome -> list event -> Prop :=
| cycles_last o c :
    swap_cycle cfg amount o c ->
    swap_cycles cfg amount 1 o c
| cycles_retry o1 c n o rest :
    swap_cycle cfg amount o1 c -> failed o1 ->
    swap_cycles cfg amount n o rest ->
    swap_cycles cfg amount (S n) o (c ++ Sleep 1 :: rest).

(** *** Outcomes shown to the user and the balance guard *)

(** A text that reports a failure. *)
Definition error_message (s : string) : Prop := Str.starts_with "❌" s = true.

(** A stretch of history without a quote request. *)
Definition no_quote (cfg : Config) (evs : list event) : Prop :=
  Forall (fun ev => is_quote cfg ev = false) evs.

(** Every quote request of a stretch of history asks for [amount]. *)
Definition quotes_ask (cfg : Config) (amount : string) (evs : list event) : Prop :=
  forall ev, In ev evs -> is_quote cfg ev = true -> is_quote_of cfg amount ev = true.

(** A float that is not a negative number. *)
Definition not_negative (f : spec_float) : Prop :=
  match f with
  | S754_finite true _ _ => False
  | _ => True
  end.

(** *** The conversion round trip *)

(** [c * 10 ^ x] cut down to an integer: the floor of a non-negative
    decimal of coefficient [c] scaled by ten to the [x]. *)
Definition floor_pow10 (c : N) (x : Z) : Z :=
  if x >=? 0 then Z.of_N c * 10 ^ x else Z.of_N c / 10 ^ (- x).

(** Digits by which the product of [c] and [10 ^ d] exceeds the precision
    of the context. *)
Definition excess (c d : N) : N := Z.to_N (Dec.ndigits c + Z.of_N d - Dec.prec).

(** One smallest unit of a token of [decimals] decimal places. *)
Definition smallest_unit (decimals : N) : Q := 1 # Z.to_pos (10 ^ Z.of_N decimals).

(** The distance between an amount and the result of converting it to
    smallest units and back, when both conversions return and the result
    is a number. *)
Definition round_trip_error (lib : Lib) (amount : Utils.amount_arg) (decimals : N)
  : option Q :=
  match Utils.decimal_of_amount lib amount with
  | Ok value =>
      match Utils.to_lamports lib amount decimals with
      | Ok raw =>
          match Utils.from_lamports raw decimals with
          | Ok back =>
              match Dec.to_Q value, Float.to_Q back with
              | Some qa, Some qb => Some (Qabs (qb - qa))
              | _, _ => None
              end
          | Raise _ => None
          end
      | Raise _ => None
      end
  | Raise _ => None
  end.

(** The round-trip law as the specification words it: the amount that
    comes back is within one smallest unit of the amount that went in. *)
Definition round_trip_within_one_unit (lib : Lib) (amount : Utils.amount_arg)
    (decimals : N) : Prop :=
  exists err, round_trip_error lib amount decimals = Some err /\
              (err <= smallest_unit decimals)%Q.

End Spec.

(** ** A small concrete environment, used to run the functions *)

Module Demo.

Definition cfg : Config := {|
  SOLANA_RPC_URL := "https://api.mainnet-beta.solana.com";
  JUPITER_API_URL := "https://quote-api.example/v6/";
  JUPITER_API_KEY := "test-key";
  SOLANA_TOKEN_ADDRESSES := ∅
|}.

(** Thirty-two bytes, as a decoded address has. *)
Definition bytes32 : string := "abcdefghijklmnopqrstuvwxyz012345".

(** No encryption key is configured; every address is accepted and
    decodes to 32 bytes; texts are not parsed. *)
Definition lib : Lib := {|
  float_of_str := fun _ => None;
  int_of_str := fun _ => None;
  repr_float := fun _ => "";
  format_6f := fun _ => "0.000000";
  str_of := fun _ => "<object>";
  decimal_of_str := fun _ => None;
  strip := fun s => s;
  upper := fun s => s;
  lower := fun s => s;
  pubkey := fun s => Ok s;
  b58decode := fun _ => Ok bytes32;
  keypair_from_secret := fun b => Ok {| secret_key := b; public_key := "SenderPubkey" |};
  deserialize_transaction := fun s => Ok s;
  sign_and_serialize := fun tx _ => Ok tx;
  sign_transaction := fun _ _ => Ok tt;
  get_associated_token_address := fun owner mint => owner +:+ "/" +:+ mint;
  getenv_ENCRYPTION_KEY := None;
  fernet := fun key => Ok key;
  fernet_decrypt := fun _ _ => raise Exception "InvalidToken";
  utf8_decode := fun b => Ok b
|}.

(** A stored key of 44 characters. *)
Definition key44 : string := "5Kd3NBUAdUnhyzenEwVLy9pBKxSwXvE9FMPyR4UKZvpe".

(** A node that refuses every submission with the same error. *)
Definition refusing_world (msg : string) : World := {|
  http := fun _ _ => raise Exception "no route to host";
  rpc := fun _ rq =>
    match rq with
    | SendRawTransaction _ => raise Exception msg
    | _ => Ok PNone
    end
|}.

(** A node that answers the first two submissions with a rate limit and a
    transient error and accepts the third. *)
Definition recovering_world : World := {|
  http := fun _ _ => raise Exception "no route to host";
  rpc := fun h rq =>
    match rq with
    | SendRawTransaction _ =>
        match Spec.submissions h with
        | O => raise Exception "HTTP 429 Too Many Requests"
        | S O => raise Exception "connection reset"
        | _ => Ok (PDict [("result", PStr "5sigABC")])
        end
    | _ => Ok PNone
    end
|}.

Definition ok_reply (v : pyval) : http_reply :=
  {| status := 200; json := Ok v; text := "" |}.

Definition supply_json (decimals : N) : pyval :=
  PDict [("jsonrpc", PStr "2.0");
         ("result", PDict [("value", PDict [("amount", PStr "1000000000000");
                                             ("decimals", PInt decimals)])])].

(** A node that answers the first request and is out of service after. *)
Definition supply_once_world : World := {|
  http := fun h _ =>
    match h with
    | [] => Ok (ok_reply (supply_json 6))
    | _ => Ok {| status := 503; json := raise ValueError "Expecting value";
                 text := "Service Unavailable" |}
    end;
  rpc := fun _ _ => Ok PNone
|}.

Definition route_json : pyval :=
  PDict [("inputMint", PStr Jupiter.USDC_MINT);
         ("outputMint", PStr Jupiter.SOL_MINT);
         ("inAmount", PStr "1000000");
         ("outAmount", PStr "5000000");
         ("priceImpactPct", PStr "0.5");
         ("routePlan", PList [PDict [("percent", PInt 100)]])].

(** A base64 transaction of 120 characters. *)
Definition swap_tx_b64 : string :=
  "AQAAAAAAAAAAAAAAAAAAAAAAAAAAAAAAAAAAAAAAAAAAAAAAAAAAAAAAAAAA" +:+
  "AAAAAAAAAAAAAAAAAAAAAAAAAAAAAAAAAAAAAAAAAAAAAAAAAAAAAAAAAAAA".

Definition accounts_json (amount : string) : pyval :=
  PDict [("jsonrpc", PStr "2.0");
         ("result",
          PDict [("value",
                  PList [PDict [("account",
                     PDict [("data",
                        PDict [("parsed",
                           PDict [("info",
                              PDict [("tokenAmount",
                                 PDict [("amount", PStr amount)])])])])])]])])].

(** An aggregator and a node in working order: every quote request gets
    [route_json], every swap-build request a transaction, the token has
    6 decimals and the wallet holds [balance]; [submit] answers the
    submissions. *)
Definition market_world (balance : string) (submit : history -> res pyval) : World := {|
  http := fun _ rq =>
    match rq with
    | HttpGet _ _ _ => Ok (ok_reply route_json)
    | HttpPost url _ body =>
        if String.eqb url (Jupiter.swap_api_url cfg)
        then Ok (ok_reply (PDict [("swapTransaction", PStr swap_tx_b64)]))
        else
          match Val.getitem body "method" with
          | Ok (PStr "getTokenSupply") => Ok (ok_reply (supply_json 6))
          | _ => Ok (ok_reply (accounts_json balance))
          end
    end;
  rpc := fun h rq =>
    match rq with
    | SendRawTransaction _ => submit h
    | _ => Ok PNone
    end
|}.

(** Balances are read with this [int()]: digits only. *)
Fixpoint digits_value (acc : Z) (s : string) : option Z :=
  match s with
  | EmptyString => Some acc
  | String c s' =>
      let d := Z.of_N (N_of_ascii c) - 48 in
      if (0 <=? d) && (d <=? 9) then digits_value (10 * acc + d) s' else None
  end.

Definition lib_int : Lib := {|
  float_of_str := float_of_str lib;
  int_of_str := fun s => match s with
                         | EmptyString => None
                         | _ => digits_value 0 s
                         end;
  repr_float := repr_float lib;
  format_6f := format_6f lib;
  str_of := str_of lib;
  decimal_of_str := decimal_of_str lib;
  strip := strip lib;
  upper := upper lib;
  lower := lower lib;
  pubkey := pubkey lib;
  b58decode := b58decode lib;
  keypair_from_secret := keypair_from_secret lib;
  deserialize_transaction := deserialize_transaction lib;
  sign_and_serialize := sign_and_serialize lib;
  sign_transaction := sign_transaction lib;
  get_associated_token_address := get_associated_token_address lib;
  getenv_ENCRYPTION_KEY := getenv_ENCRYPTION_KEY lib;
  fernet := fernet lib;
  fernet_decrypt := fernet_decrypt lib;
  utf8_decode := utf8_decode lib
|}.


(** A node for transfers: the token has 6 decimals, the recipient has
    no token account yet, submissions are accepted. *)
Definition transfer_world : World := {|
  http := fun _ _ => raise Exception "no route to host";
  rpc := fun _ rq =>
    match rq with
    | GetTokenSupply _ => Ok (PObj [("value", PObj [("decimals", PInt 6)])])
    | GetAccountInfo _ => Ok (PObj [("value", PNone)])
    | GetLatestBlockhash =>
        Ok (PObj [("value", PObj [("blockhash", PStr "9sHcv6xwn9YkB8nxTUGKDwPwNnmqVp5oAXxU8Fdkm4J6")])])
    | SendTransaction _ _ => Ok (PObj [("value", PStr "4transferSig")])
    | _ => Ok PNone
    end
|}.

Definition one_and_a_half : spec_float := Eval vm_compute in Float.of_ratio 3 2.


(** A market in working order whose node accepts every submission. *)
Definition accepting_world : World :=
  market_world "5000000" (fun _ => Ok (PStr "5sigABC")).

Definition wallet : string := "7xKXtg2CW87d97TXJSDpbD5jBkheTqA83TZRuJosgAsU".


(** What [execute_sell] has established for a wallet that holds 5000000
    units of a token with 6 decimals, asked to sell [raw_amount]. *)
Definition prepared (raw_amount : Z) : Jupiter.sell_state := {|
  Jupiter.sell_user_pubkey := wallet;
  Jupiter.sell_original_input := Jupiter.USDC_MINT;
  Jupiter.sell_token_address := Jupiter.USDC_MINT;
  Jupiter.sell_balance_raw := 5000000;
  Jupiter.sell_decimals := PInt 6;
  Jupiter.sell_raw_amount := raw_amount
|}.

(** The two requests of the balance lookup. *)
Definition balance_lookup : history :=
  [Http (HttpPost (SOLANA_RPC_URL cfg) []
           (Jupiter.token_supply_payload (PStr "1") Jupiter.USDC_MINT));
   Http (HttpPost (SOLANA_RPC_URL cfg) []
           (Jupiter.token_accounts_payload wallet Jupiter.USDC_MINT))].

(** One hundred million tokens and two smallest units, at nine decimals. *)
Definition hundred_million_and_two_units : Utils.amount_arg :=
  Utils.AmtDecimal (Dec.Fin false 100000000000000002 (-9)).

(** Twenty-nine nines after the point: one digit more than the context keeps. *)
Definition just_below_one : Utils.amount_arg :=
  Utils.AmtDecimal (Dec.Fin false 99999999999999999999999999999 (-29)).

End Demo.

(** ** Further readings of histories

    Shapes of histories and conditions on replies used to state what the
    functions send, in which order and on what grounds. *)

Module Law.

(** Every event of [evs], taken with the history before it, satisfies
    [P]. *)
Fixpoint each (P : history -> event -> Prop) (h : history) (evs : list event) : Prop :=
  match evs with
  | [] => True
  | ev :: rest => P h ev /\ each P (h ++ [ev]) rest
  end.

(** *** Retry loops *)

(** A node that answers every submission of [tx_bytes] with a rate-limit
    error. *)
Definition always_rate_limited (w : World) (tx_bytes : string) : Prop :=
  forall h, exists e,
    rpc w h (SendRawTransaction tx_bytes) = Raise e /\ Spec.rate_limited e = true.

(** [remaining] submissions from attempt number [attempt] on, each
    followed by its rate-limit pause. *)
Fixpoint rate_limited_trace (tx_bytes : string) (remaining : nat) (attempt : Z)
  : list event :=
  match remaining with
  | O => []
  | S k =>
      Rpc (SendRawTransaction tx_bytes) :: Sleep (2 * (attempt + 1))
        :: rate_limited_trace tx_bytes k (attempt + 1)
  end.

(** The seconds slept in a stretch of history. *)
Fixpoint seconds_slept (evs : list event) : Z :=
  match evs with
  | [] => 0
  | Sleep s :: rest => s + seconds_slept rest
  | _ :: rest => seconds_slept rest
  end.

(** The reply to a blockhash request sent after [h] has the shape
    [response.value.blockhash]. *)
Definition blockhash_reply (w : World) (h : history) (blockhash : pyval) : Prop :=
  exists response value,
    rpc w h GetLatestBlockhash = Ok response /\
    Val.getattr response "value" = Ok value /\
    Val.getattr value "blockhash" = Ok blockhash.

(** [n] failed blockhash requests, each followed by a pause of one
    second. *)
Fixpoint failed_blockhash_attempts (n : nat) : list event :=
  match n with
  | O => []
  | S k => Rpc GetLatestBlockhash :: Sleep 1 :: failed_blockhash_attempts k
  end.

(** The exception [get_blockhash_with_retry] raises when the last attempt
    fails. *)
Definition blockhash_failed (max_retries : Z) : exn :=
  mkExn Exception ("❌ Не удалось получить blockhash после "
                     +:+ Str.of_Z max_retries +:+ " попыток").

(** *** The swap protocol

    What [perform_swap] sends, and on what grounds: each request but the
    quote rests on the reply to the request before it. *)

(** The quote request of [_get_quote]. *)
Definition direct_quote_request (cfg : Config)
    (input_mint output_mint amount bps : string) : http_request :=
  HttpGet (Jupiter.quote_api_url cfg) (Jupiter.headers cfg)
    [("inputMint", input_mint);
     ("outputMint", output_mint);
     ("amount", amount);
     ("slippageBps", bps);
     ("onlyDirectRoutes", "true");
     ("platformFeeBps", Str.of_Z JUPITER_PLATFORM_FEE_BPS);
     ("platformFeeAccount", JUPITER_PLATFORM_FEE_ACCOUNT)].

(** The swap-build request of [_get_swap_transaction]. *)
Definition swap_build_request (cfg : Config) (user_wallet_address : string)
    (quote_data : pyval) : http_request :=
  HttpPost (Jupiter.swap_api_url cfg) (Jupiter.headers cfg)
    (Jupiter.swap_request user_wallet_address quote_data).

(** The request [rq] sent after [h] was answered with status 200 and the
    quote [quote_data], which reports no error. *)
Definition quote_received (w : World) (h : history) (rq : http_request)
    (quote_data : pyval) : Prop :=
  exists reply,
    http w h rq = Ok reply /\ status reply = 200 /\ json reply = Ok quote_data /\
    Val.contains "error" quote_data = Ok false /\ truthy quote_data = true.

(** The request [rq] sent after [h] was answered with status 200 and a
    transaction [tx_b64] of at least 100 characters. *)
Definition transaction_built (w : World) (h : history) (rq : http_request)
    (tx_b64 : string) : Prop :=
  exists reply swap_data,
    http w h rq = Ok reply /\ status reply = 200 /\ json reply = Ok swap_data /\
    Val.contains "error" swap_data = Ok false /\
    Val.get swap_data "swapTransaction" PNone = Ok (PStr tx_b64) /\
    100 <= Str.len tx_b64.

(** [wire] is the transaction [tx_b64] signed with the key the caller
    passed (decrypted when it can be). *)
Definition signed_by (lib : Lib) (user_private_key tx_b64 wire : string) : Prop :=
  exists tx bytes wallet,
    deserialize_transaction lib tx_b64 = Ok tx /\
    b58decode lib (Jupiter.signing_key lib user_private_key) = Ok bytes /\
    keypair_from_secret lib bytes = Ok wallet /\
    sign_and_serialize lib tx wallet = Ok wire.

Inductive swap_step (cfg : Config) (lib : Lib) (w : World)
    (input_mint output_mint amount user_wallet_address user_private_key : string)
    (slippage : spec_float) : history -> event -> Prop :=
| step_quote h bps :
    Jupiter.slippage_bps slippage = Ok bps ->
    swap_step cfg lib w input_mint output_mint amount user_wallet_address
      user_private_key slippage h
      (Http (direct_quote_request cfg input_mint output_mint amount bps))
| step_build h bps quote_data :
    quote_received w h (direct_quote_request cfg input_mint output_mint amount bps)
      quote_data ->
    swap_step cfg lib w input_mint output_mint amount user_wallet_address
      user_private_key slippage
      (h ++ [Http (direct_quote_request cfg input_mint output_mint amount bps)])
      (Http (swap_build_request cfg user_wallet_address quote_data))
| step_submit h quote_data tx_b64 wire :
    transaction_built w h (swap_build_request cfg user_wallet_address quote_data)
      tx_b64 ->
    signed_by lib user_private_key tx_b64 wire ->
    swap_step cfg lib w input_mint output_mint amount user_wallet_address
      user_private_key slippage
      (h ++ [Http (swap_build_request cfg user_wallet_address quote_data)])
      (Rpc (SendRawTransaction wire))
| step_settle h wire tx_sig :
    rpc w h (SendRawTransaction wire) = Ok tx_sig ->
    swap_step cfg lib w input_mint output_mint amount user_wallet_address
      user_private_key slippage
      (h ++ [Rpc (SendRawTransaction wire)]) (Sleep 2)
| step_status h wire tx_sig :
    rpc w h (SendRawTransaction wire) = Ok tx_sig ->
    swap_step cfg lib w input_mint output_mint amount user_wallet_address
      user_private_key slippage
      (h ++ [Rpc (SendRawTransaction wire); Sleep 2])
      (Rpc (GetSignatureStatuses [Jupiter.signature_of_reply lib tx_sig]))
| step_pause h :
    swap_step cfg lib w input_mint output_mint amount user_wallet_address
      user_private_key slippage h (Sleep 1).

(** A signature comes from the reply to the last submission of the
    history. *)
Definition returned_by_node (lib : Lib) (w : World) (h' : history) (v : pyval) : Prop :=
  exists pre wire tx_sig,
    h' = pre ++ [Rpc (SendRawTransaction wire); Sleep 2;
                 Rpc (GetSignatureStatuses [Jupiter.signature_of_reply lib tx_sig])] /\
    rpc w pre (SendRawTransaction wire) = Ok tx_sig /\
    v = PStr (Jupiter.signature_of_reply lib tx_sig) /\
    Jupiter.signature_of_reply lib tx_sig <> "".

(** The mints and the slippage [perform_swap] quotes with. *)
Definition swap_input_mint (token_out_address : string) (is_selling : bool) : string :=
  if is_selling then token_out_address else Jupiter.SOL_MINT.

Definition swap_output_mint (token_out_address : string) (is_selling : bool) : string :=
  if is_selling then Jupiter.SOL_MINT else token_out_address.

Definition swap_slippage (token_out_address : string) (is_selling : bool)
    (slippage : spec_float) : spec_float :=
  if negb is_selling && String.eqb token_out_address Jupiter.BONK_MINT
  then Jupiter.slippage_10 else slippage.

(** *** Replies that are only logged *)

(** Two worlds that give the same answers, except possibly to status
    requests. *)
Definition same_but_status (w1 w2 : World) : Prop :=
  (forall h rq, http w1 h rq = http w2 h rq) /\
  (forall h rq, (forall signatures, rq <> GetSignatureStatuses signatures) ->
                rpc w1 h rq = rpc w2 h rq).

(** *** Parameters of quote requests *)

(** The value of the query parameter [k] of a [GET] request. *)
Definition quote_param (k : string) (ev : event) : option string :=
  match ev with
  | Http (HttpGet _ _ params) => Spec.param k params
  | _ => None
  end.

(** The basis points [execute_swap] buys with: ten per cent for BONK,
    one per cent otherwise. *)
Definition buy_bps (output_mint : string) : string :=
  if String.eqb output_mint Jupiter.BONK_MINT then "1000" else "100".

(** The basis points [execute_sell] sells with: one per cent for the two
    stablecoins, three per cent otherwise. *)
Definition sell_bps (token_address : string) : string :=
  if String.eqb token_address Jupiter.USDC_MINT
     || String.eqb token_address Jupiter.USDT_MINT
  then "100" else "300".

(** *** Balance lookup *)

(** The two requests of [JupiterService.get_token_balance]. *)
Definition supply_request (cfg : Config) (token_pubkey : string) : http_request :=
  HttpPost (SOLANA_RPC_URL cfg) [] (Jupiter.token_supply_payload (PStr "1") token_pubkey).

Definition accounts_request (cfg : Config) (wallet_pubkey token_pubkey : string)
  : http_request :=
  HttpPost (SOLANA_RPC_URL cfg) [] (Jupiter.token_accounts_payload wallet_pubkey token_pubkey).

(** The request [rq] sent after [h] was answered with a non-empty list
    [value] of token accounts. *)
Definition accounts_reply (w : World) (h : history) (rq : http_request) (value : pyval)
  : Prop :=
  exists reply data result,
    http w h rq = Ok reply /\ status reply = 200 /\ json reply = Ok data /\
    Val.contains "error" data = Ok false /\
    Val.get data "result" (PDict []) = Ok result /\
    Val.get result "value" (PList []) = Ok value /\
    truthy value = true.

(** *** The confirmation loop *)

(** The signature after [n] passes: each pass unwraps a [dict] that has
    a [result]. *)
Fixpoint unwrapped (n : nat) (tx_sig : pyval) : pyval :=
  match n with
  | O => tx_sig
  | S k => unwrapped k (SolanaClient.result_of_reply tx_sig)
  end.

(** [n] confirmation requests that did not end the loop, each followed
    by a pause of two seconds. *)
Fixpoint unconfirmed_attempts (tx_sig : pyval) (n : nat) : Wire.trace :=
  match n with
  | O => []
  | S k =>
      let tx_sig := SolanaClient.result_of_reply tx_sig in
      Wire.Call (Wire.ConfirmTransaction tx_sig) :: Wire.Pause 2
        :: unconfirmed_attempts tx_sig k
  end.

(** The answer to the confirmation request sent after [t]: it reports
    the transaction confirmed, it reports it not confirmed, or it cannot
    be used (the call raised, or the reply has another shape). *)
Definition confirmed_reply (sv : Wire.Service) (t : Wire.trace) (tx_sig : pyval) : Prop :=
  exists response,
    Wire.answer sv t (Wire.ConfirmTransaction tx_sig) = Ok response /\
    SolanaClient.confirmed_of response = Ok true.

Definition unconfirmed_reply (sv : Wire.Service) (t : Wire.trace) (tx_sig : pyval) : Prop :=
  exists response,
    Wire.answer sv t (Wire.ConfirmTransaction tx_sig) = Ok response /\
    SolanaClient.confirmed_of response = Ok false.

Definition unusable_reply (sv : Wire.Service) (t : Wire.trace) (tx_sig : pyval) : Prop :=
  (exists e, Wire.answer sv t (Wire.ConfirmTransaction tx_sig) = Raise e) \/
  (exists response e,
     Wire.answer sv t (Wire.ConfirmTransaction tx_sig) = Ok response /\
     SolanaClient.confirmed_of response = Raise e).

(** *** The wallet store *)

(** The private key a step writes to the store, when the step is a
    write of a wallet. *)
Definition stored_private_key (s : Wire.step) : option pyval :=
  match s with
  | Wire.Call (Wire.SetDocument _ (PDict data)) =>
      match assoc "wallet" data with
      | Some (PDict wallet) => assoc "private_key" wallet
      | _ => None
      end
  | _ => None
  end.

(** The wallet a step writes to the store. *)
Definition stored_wallet (s : Wire.step) : option pyval :=
  match s with
  | Wire.Call (Wire.SetDocument _ (PDict data)) => assoc "wallet" data
  | _ => None
  end.

Definition is_write (s : Wire.step) : bool :=
  match s with
  | Wire.Call (Wire.SetDocument _ _) => true
  | _ => false
  end.

Definition writes (evs : Wire.trace) : nat := List.length (List.filter is_write evs).

(** The wallet written last under [id] in a history, [found] when
    there is none. *)
Fixpoint last_wallet (id : string) (t : Wire.trace) (found : option pyval)
  : option pyval :=
  match t with
  | [] => found
  | Wire.Call (Wire.SetDocument id' (PDict data)) :: t' =>
      last_wallet id t'
        (if String.eqb id id'
         then match assoc "wallet" data with Some w => Some w | None => found end
         else found)
  | _ :: t' => last_wallet id t' found
  end.

(** The store answers a read after [t] with a document that holds the
    wallet written last under [id]. *)
Definition reads_back (sv : Wire.Service) (t : Wire.trace) (id : string) : Prop :=
  match last_wallet id t None with
  | Some wallet =>
      exists data,
        Wire.answer sv t (Wire.GetDocument id) = Ok data /\
        (data <> PNone) /\
        Val.get data "wallet" PNone = Ok wallet
  | None => True
  end.

(** The store holds, for a read after [t], a wallet with these keys. *)
Definition holds_wallet (sv : Wire.Service) (t : Wire.trace) (id : string)
    (public_key private_key : pyval) : Prop :=
  exists data wallet_data,
    Wire.answer sv t (Wire.GetDocument id) = Ok data /\
    (data <> PNone) /\
    Val.get data "wallet" PNone = Ok wallet_data /\
    Val.getitem wallet_data "public_key" = Ok public_key /\
    Val.getitem wallet_data "private_key" = Ok private_key.

(** *** The wallet views *)

(** The lamports a reply to [get_balance] carries: under the attribute
    [value], or under ['result']['value'] of a [dict]. *)
Definition lamports_of_reply (lib : Lib) (response : pyval) (lamports : Z) : Prop :=
  (exists v,
     Val.hasattr response "value" = true /\
     Val.getattr response "value" = Ok v /\
     Jupiter.py_int lib v = Ok lamports) \/
  (exists d r v,
     response = PDict d /\ assoc "result" d = Some r /\
     Val.getitem r "value" = Ok v /\
     Jupiter.py_int lib v = Ok lamports).


End Law.

(** ** More concrete environments *)

Module Sample.

(** The market of [Demo.accepting_world], with a node that answers every
    status request with a failure. *)
Definition unconfirmed_world : World := {|
  http := http Demo.accepting_world;
  rpc := fun h rq =>
    match rq with
    | GetSignatureStatuses _ => raise Exception "Transaction failed: InstructionError"
    | _ => rpc Demo.accepting_world h rq
    end
|}.

(** The float nearest to 2.01. *)
Definition two_point_01 : spec_float := Eval vm_compute in Float.of_ratio 201 100.

(** A tenth of a lamport, one and a half, and 2.01 as decimals. *)
Definition tenth_of_a_unit : Dec.Decimal := Dec.Fin false 1 (-10).
Definition one_and_a_half : Dec.Decimal := Dec.Fin false 15 (-1).

(** Sixty-four bytes, as a secret key has. *)
Definition bytes64 : string := Demo.bytes32 +:+ Demo.bytes32.

(** The first 102 characters of every text the sample cipher makes. *)
Definition header : string :=
  "gAAAAABmXk3v" +:+
  "000000000000000000000000000000000000000000000" +:+
  "000000000000000000000000000000000000000000000".

(** [Demo.lib_int] with an encryption key configured and keys of 64
    bytes: the cipher puts [header] before the text and takes it off
    again; a text of digits is read as a [float] too. *)
Definition lib_keys : Lib := {|
  float_of_str := fun s =>
    match int_of_str Demo.lib_int s with
    | Some n => match Float.of_int n with
                | Ok f => Some f
                | Raise _ => None
                end
    | None => None
    end;
  int_of_str := int_of_str Demo.lib_int;
  repr_float := repr_float Demo.lib;
  format_6f := format_6f Demo.lib;
  str_of := str_of Demo.lib;
  decimal_of_str := decimal_of_str Demo.lib;
  strip := strip Demo.lib;
  upper := upper Demo.lib;
  lower := lower Demo.lib;
  pubkey := pubkey Demo.lib;
  b58decode := fun _ => Ok bytes64;
  keypair_from_secret := keypair_from_secret Demo.lib;
  deserialize_transaction := deserialize_transaction Demo.lib;
  sign_and_serialize := sign_and_serialize Demo.lib;
  sign_transaction := sign_transaction Demo.lib;
  get_associated_token_address := get_associated_token_address Demo.lib;
  getenv_ENCRYPTION_KEY := Some "c2VjcmV0LWtleQ==";
  fernet := fun key => Ok key;
  fernet_decrypt := fun _ token =>
    if Str.starts_with header token
    then Ok (String.substring 102 (String.length token - 102) token)
    else raise Exception "InvalidToken";
  utf8_decode := fun b => Ok b
|}.

Definition rt : Runtime := {|
  fromhex := fun _ => raise ValueError "non-hexadecimal number found in fromhex() arg";
  build_transfer := fun _ _ _ => Ok tt;
  to_string := fun _ => raise AttributeError "to_string";
  sign_transfer := fun _ _ => Ok ["3signature"];
  pow10_float := fun n => Float.of_ratio 1 (Z.to_pos (10 ^ (- n)));
  fernet_encrypt := fun _ data => Ok (header +:+ data);
  isoformat := fun _ => Ok "2024-05-01T10:00:00";
  b58encode_text := fun _ => Demo.key44
|}.

(** A key as the sample cipher stores it. *)
Definition stored_key : string := Eval vm_compute in header +:+ Demo.key44.

(** The document written last under [id], [found] when there is none. *)
Fixpoint last_document (id : string) (t : Wire.trace) (found : pyval) : pyval :=
  match t with
  | [] => found
  | Wire.Call (Wire.SetDocument id' data) :: t' =>
      last_document id t' (if String.eqb id id' then data else found)
  | _ :: t' => last_document id t' found
  end.

(** The JSON document a node sends for a balance of five tokens. *)
Definition balance_result : list (string * pyval) :=
  [("context", PDict [("slot", PInt 1114)]);
   ("value", PDict [("amount", PStr "5000000"); ("decimals", PInt 6)])].

Definition balance_json : list (string * pyval) :=
  [("jsonrpc", PStr "2.0"); ("result", PDict balance_result)].

(** A node in working order and a store that hands back the document
    written last. *)
Definition node : Wire.Service := {|
  Wire.answer := fun t c =>
    match c with
    | Wire.ConfirmTransaction _ => Ok (PDict [("result", PDict [("value", PBool true)])])
    | Wire.GetBalance _ => Ok (PObj [("value", PInt 1500000000)])
    | Wire.GetAccountInfo _ => Ok (PObj [("value", PObj [("lamports", PInt 2039280)])])
    | Wire.GetTokenAccountBalance _ => Ok (PDict balance_json)
    | Wire.GetLatestBlockhash =>
        Ok (PObj [("value", PObj [("blockhash",
                     PStr "9sHcv6xwn9YkB8nxTUGKDwPwNnmqVp5oAXxU8Fdkm4J6")])])
    | Wire.SendTransaction _ _ => Ok (PDict [("result", PStr "4transferSig")])
    | Wire.GetDocument id => Ok (last_document id t PNone)
    | Wire.SetDocument _ _ => Ok PNone
    | Wire.UtcNow => Ok (PStr "2024-05-01 10:00:00")
    end
|}.

(** A store that holds one wallet for every user. *)
Definition store_of (wallet : pyval) : Wire.Service := {|
  Wire.answer := fun t c =>
    match c with
    | Wire.GetDocument _ => Ok (PDict [("wallet", wallet)])
    | _ => Wire.answer node t c
    end
|}.

(** A store that takes no writes. *)
Definition refusing_store : Wire.Service := {|
  Wire.answer := fun t c =>
    match c with
    | Wire.SetDocument _ _ => raise Exception "503 The service is currently unavailable"
    | _ => Wire.answer node t c
    end
|}.

(** The pair of keys drawn for a new wallet. *)
Definition new_keypair : Keypair :=
  {| secret_key := bytes64; public_key := Demo.wallet |}.

(** A wallet stored with its key in the clear, and one stored with its
    key encrypted. *)
Definition plain_entries : list (string * pyval) :=
  [("public_key", PStr Demo.wallet); ("private_key", PStr Demo.key44);
   ("created_at", PStr "2023-11-20T08:30:00")].

Definition plain_wallet : pyval := PDict plain_entries.

Definition encrypted_entries : list (string * pyval) :=
  [("public_key", PStr Demo.wallet); ("private_key", PStr stored_key);
   ("created_at", PStr "2023-11-20T08:30:00")].

(** A wallet whose key cannot be decrypted: it was not made by the
    cipher. *)
Definition damaged_wallet : pyval :=
  PDict [("public_key", PStr Demo.wallet);
         ("private_key",
          PStr ("gZZZZZZZZZZZZZZZZZZZZZZZZZZZZZZZZZZZZZZZZZZZZZZZZZZ" +:+
                "ZZZZZZZZZZZZZZZZZZZZZZZZZZZZZZZZZZZZZZZZZZZZZZZZZZZ" +:+
                "ZZZZZZZZZZZZZZZZZZZZ"))].

End Sample.

(** * Properties *)

(** ** Key decryption ([services/utils.py]) *)

(** C10: when decryption of the stored key raises and the key is 40 to 90
    characters long, [decrypt_private_key] returns the key itself; when
    the length is outside that range the exception of the decryption
    propagates. *)
Theorem decrypt_private_key_undecryptable (lib : Lib) (key : string) (e : exn) :
  KeyUtils.decrypt_private_key_body lib key = Raise e ->
  (40 <= Str.len key <= 90 -> KeyUtils.decrypt_private_key lib key = Ok key) /\
  (Str.len key < 40 \/ 90 < Str.len key ->
   KeyUtils.decrypt_private_key lib key = Raise e).
Proof.
  intros Hbody. unfold KeyUtils.decrypt_private_key. rewrite Hbody. split.
  - intros [Hlo Hhi].
    replace (Str.len key >=? 40) with true by (symmetry; apply Z.geb_le; lia).
    replace (Str.len key <=? 90) with true by (symmetry; apply Z.leb_le; lia).
    reflexivity.
  - intros [Hlt | Hgt].
    + replace (Str.len key >=? 40) with false; [reflexivity|].
      symmetry. rewrite Z.geb_leb. apply Z.leb_gt. lia.
    + replace (Str.len key <=? 90) with false
        by (symmetry; apply Z.leb_gt; lia).
      rewrite andb_false_r. reflexivity.
Qed.

Lemma decrypt_private_key_undecryptable_witness :
  KeyUtils.decrypt_private_key Demo.lib Demo.key44 = Ok Demo.key44 /\
  KeyUtils.decrypt_private_key Demo.lib "short"
  = raise ValueError "ENCRYPTION_KEY не найден в переменных окружения".
Proof.
  split.
  - apply (proj1 (decrypt_private_key_undecryptable Demo.lib Demo.key44 _ eq_refl)).
    vm_compute. split; discriminate.
  - apply (proj2 (decrypt_private_key_undecryptable Demo.lib "short" _ eq_refl)).
    left. vm_compute. reflexivity.
Defined.

(** A key that decrypts is returned decrypted, whatever its length. *)
Lemma decrypt_private_key_decrypted (lib : Lib) (key plain : string) :
  KeyUtils.decrypt_private_key_body lib key = Ok plain ->
  KeyUtils.decrypt_private_key lib key = Ok plain.
Proof.
  intros H. unfold KeyUtils.decrypt_private_key. now rewrite H.
Qed.

(** ** Amount conversions ([utils.py]) *)

Lemma pow10_pos (k : Z) : 0 <= k -> 0 < 10 ^ k.
Proof. intros. apply Z.pow_pos_nonneg; lia. Qed.

Lemma nonpositive_le_zero (d : Dec.Decimal) :
  Spec.nonpositive d -> Dec.le_zero d = Ok true.
Proof.
  destruct d as [s c e | s | ]; simpl.
  - intros (q & Hq & Hle). injection Hq as <-. f_equal.
    destruct s; [apply orb_true_r|].
    rewrite orb_false_r. apply N.eqb_eq.
    destruct (e >=? 0) eqn:He.
    + unfold Qle in Hle. simpl in Hle.
      assert (0 < 10 ^ e) by (apply pow10_pos; lia). nia.
    + unfold Qle in Hle. simpl in Hle. lia.
  - now intros ->.
  - intros [].
Qed.

(** C6: for an amount that is at most zero, whatever the decimals,
    [to_lamports] returns 0 and raises nothing. *)
Theorem to_lamports_nonpositive (lib : Lib) (amount : Utils.amount_arg)
    (decimals : N) (value : Dec.Decimal) :
  Utils.decimal_of_amount lib amount = Ok value ->
  Spec.nonpositive value ->
  Utils.to_lamports lib amount decimals = Ok 0.
Proof.
  intros Hvalue Hle.
  unfold Utils.to_lamports, Utils.to_lamports_body.
  rewrite Hvalue. simpl. rewrite (nonpositive_le_zero _ Hle). reflexivity.
Qed.

Lemma to_lamports_nonpositive_witness :
  Utils.to_lamports Demo.lib (Utils.AmtDecimal (Dec.Fin true 15 (-1))) 9 = Ok 0 /\
  Utils.to_lamports Demo.lib (Utils.AmtDecimal (Dec.Fin false 0 0)) 6 = Ok 0.
Proof.
  split.
  - apply (to_lamports_nonpositive Demo.lib
             (Utils.AmtDecimal (Dec.Fin true 15 (-1))) 9 (Dec.Fin true 15 (-1)) eq_refl).
    simpl. eexists; split; [reflexivity|]. vm_compute. discriminate.
  - apply (to_lamports_nonpositive Demo.lib
             (Utils.AmtDecimal (Dec.Fin false 0 0)) 6 (Dec.Fin false 0 0) eq_refl).
    simpl. eexists; split; [reflexivity|]. vm_compute. discriminate.
Defined.

(** ** Submission with retries ([services/solana_client.py]) *)

Lemma app_two {A} (h : list A) (a b : A) : (h ++ [a]) ++ [b] = h ++ [a; b].
Proof. now rewrite <- app_assoc. Qed.

(** What one attempt does, by the reply of the node. *)
Lemma send_attempt_success w tx m attempt h tx_sig :
  rpc w h (SendRawTransaction tx) = Ok tx_sig ->
  SolanaClient.send_attempt w tx m attempt h
  = (Ok (Return (SolanaClient.result_of_reply tx_sig)), h ++ [Spec.submit_request tx]).
Proof.
  intros H. unfold SolanaClient.send_attempt, try_catch, bind, rpc_call, ret.
  now rewrite H.
Qed.

Lemma send_attempt_rate_limited w tx m attempt h e :
  rpc w h (SendRawTransaction tx) = Raise e ->
  Spec.rate_limited e = true ->
  SolanaClient.send_attempt w tx m attempt h
  = (Ok (Next tt), h ++ [Spec.submit_request tx; Sleep (2 * (attempt + 1))]).
Proof.
  intros H Hr. unfold SolanaClient.send_attempt, try_catch, bind, rpc_call, ret.
  rewrite H. unfold Spec.rate_limited in Hr. rewrite Hr.
  unfold sleep. now rewrite app_two.
Qed.

Lemma send_attempt_transient w tx m attempt h e :
  rpc w h (SendRawTransaction tx) = Raise e ->
  Spec.rate_limited e = false ->
  attempt <> m - 1 ->
  SolanaClient.send_attempt w tx m attempt h
  = (Ok (Next tt), h ++ [Spec.submit_request tx; Sleep 1]).
Proof.
  intros H Hr Hlast. unfold SolanaClient.send_attempt, try_catch, bind, rpc_call, ret.
  rewrite H. unfold Spec.rate_limited in Hr. rewrite Hr.
  replace (attempt =? m - 1) with false by (symmetry; now apply Z.eqb_neq).
  unfold sleep. now rewrite app_two.
Qed.

Lemma send_attempt_last w tx m attempt h e :
  rpc w h (SendRawTransaction tx) = Raise e ->
  Spec.rate_limited e = false ->
  attempt = m - 1 ->
  SolanaClient.send_attempt w tx m attempt h
  = (Raise (SolanaClient.submission_failed m), h ++ [Spec.submit_request tx]).
Proof.
  intros H Hr Hlast. unfold SolanaClient.send_attempt, try_catch, bind, rpc_call, ret.
  rewrite H. unfold Spec.rate_limited in Hr. rewrite Hr.
  replace (attempt =? m - 1) with true by (symmetry; now apply Z.eqb_eq).
  reflexivity.
Qed.

Lemma send_loop_step w tx m k attempt h :
  SolanaClient.send_loop w tx m (S k) attempt h
  = match SolanaClient.send_attempt w tx m attempt h with
    | (Ok (Return v), h') => (Ok v, h')
    | (Ok (Next _), h') => SolanaClient.send_loop w tx m k (attempt + 1) h'
    | (Raise e, h') => (Raise e, h')
    end.
Proof.
  simpl. unfold bind.
  destruct (SolanaClient.send_attempt w tx m attempt h) as [[[u|v]|e] h']; reflexivity.
Qed.

(** The loop follows the retry policy, from any attempt on. *)
Lemma send_loop_refines w tx m attempt h r h' :
  Spec.retry_spec w tx m attempt h r h' ->
  forall remaining, Z.of_nat remaining = m - attempt ->
  SolanaClient.send_loop w tx m remaining attempt h = (r, h').
Proof.
  induction 1 as [attempt h tx_sig Hrange Hreply
                 | attempt h e r h' Hrange Hreply Hrate _ IH
                 | attempt h e r h' Hrange Hreply Hrate _ IH
                 | attempt h e Hpos Hlast Hreply Hrate];
    intros [|k] Hk; try lia; rewrite send_loop_step.
  - now rewrite (send_attempt_success _ _ _ _ _ _ Hreply).
  - rewrite (send_attempt_rate_limited _ _ _ _ _ _ Hreply Hrate). apply IH. lia.
  - rewrite (send_attempt_transient _ _ _ _ _ _ Hreply Hrate) by lia. apply IH. lia.
  - now rewrite (send_attempt_last _ _ _ _ _ _ Hreply Hrate Hlast).
Qed.

(** Every attempt appends one submission, and a sleep at most. *)
Lemma send_attempt_events w tx m attempt h :
  exists evs, snd (SolanaClient.send_attempt w tx m attempt h) = h ++ evs /\
              Spec.submissions evs = 1%nat.
Proof.
  unfold SolanaClient.send_attempt, try_catch, bind, rpc_call, ret, sleep, rethrow.
  destruct (rpc w h (SendRawTransaction tx)) as [sig|e]; simpl.
  - now exists [Spec.submit_request tx].
  - destruct (Str.contains "429" (exn_msg e)); simpl.
    + exists [Spec.submit_request tx; Sleep (2 * (attempt + 1))].
      now rewrite app_two.
    + destruct (attempt =? m - 1); simpl.
      * now exists [Spec.submit_request tx].
      * exists [Spec.submit_request tx; Sleep 1]. now rewrite app_two.
Qed.

Lemma submissions_app (a b : list event) :
  Spec.submissions (a ++ b) = (Spec.submissions a + Spec.submissions b)%nat.
Proof. unfold Spec.submissions. now rewrite List.filter_app, List.length_app. Qed.

(** Whatever the node answers, the loop submits at most [remaining]
    times. *)
Lemma send_loop_bounded w tx m remaining :
  forall attempt h,
  exists evs, snd (SolanaClient.send_loop w tx m remaining attempt h) = h ++ evs /\
              (Spec.submissions evs <= remaining)%nat.
Proof.
  induction remaining as [|k IH]; intros attempt h.
  - exists []. simpl. split; [now rewrite app_nil_r | unfold Spec.submissions; simpl; lia].
  - rewrite send_loop_step.
    destruct (send_attempt_events w tx m attempt h) as (evs & Hevs & Hcount).
    destruct (SolanaClient.send_attempt w tx m attempt h) as [[[u|v]|e] h1];
      simpl in Hevs; subst h1.
    + destruct (IH (attempt + 1) (h ++ evs)) as (evs' & Hevs' & Hcount').
      exists (evs ++ evs'). rewrite Hevs', app_assoc. split; [reflexivity|].
      rewrite submissions_app. lia.
    + exists evs. simpl. split; [reflexivity | lia].
    + exists evs. simpl. split; [reflexivity | lia].
Qed.

(** C3 (as amended): on the runs the retry policy covers,
    [send_transaction_with_retry] does what the policy says (2 s times
    the attempt number after a rate limit, 1 s after another error, the
    signature of the first accepted attempt, the fixed submission-failed
    exception when the last attempt fails otherwise), and it submits at
    most [max_retries] times. *)
Theorem send_transaction_with_retry_policy (w : World) (tx_bytes : string)
    (max_retries : Z) (h : history) (r : res pyval) (h' : history) :
  Spec.retry_spec w tx_bytes max_retries 0 h r h' ->
  SolanaClient.send_transaction_with_retry w tx_bytes max_retries h = (r, h') /\
  exists evs, h' = h ++ evs /\ (Z.of_nat (Spec.submissions evs) <= max_retries).
Proof.
  intros Hspec.
  assert (Hm : 0 < max_retries) by (inversion Hspec; lia).
  assert (Hrun : SolanaClient.send_transaction_with_retry w tx_bytes max_retries h = (r, h')).
  { unfold SolanaClient.send_transaction_with_retry.
    apply (send_loop_refines _ _ _ _ _ _ _ Hspec). lia. }
  split; [exact Hrun|].
  destruct (send_loop_bounded w tx_bytes max_retries (Z.to_nat max_retries) 0 h)
    as (evs & Hevs & Hcount).
  unfold SolanaClient.send_transaction_with_retry in Hrun. rewrite Hrun in Hevs.
  exists evs. split; [exact Hevs | lia].
Qed.

Lemma send_transaction_with_retry_policy_witness :
  SolanaClient.send_transaction_with_retry Demo.recovering_world "tx" 3 []
  = (Ok (PStr "5sigABC"),
     [Spec.submit_request "tx"; Sleep 2;
      Spec.submit_request "tx"; Sleep 1;
      Spec.submit_request "tx"]).
Proof.
  refine (proj1 (send_transaction_with_retry_policy
                   Demo.recovering_world "tx" 3 [] _ _ _)).
  eapply Spec.retry_rate_limited; [lia | reflexivity | reflexivity | ].
  eapply Spec.retry_transient; [lia | reflexivity | reflexivity | ].
  refine (Spec.retry_success Demo.recovering_world "tx" 3 2
            [Spec.submit_request "tx"; Sleep 2; Spec.submit_request "tx"; Sleep 1]
            (PDict [("result", PStr "5sigABC")]) _ eq_refl).
  lia.
Defined.

(** The three attempts of the default setting all fail with a transient
    error: the exception raised names the attempts, not the last error.
    This is the point where claim C3 as stated fails. *)
Lemma send_failure_does_not_carry_last_error :
  let last := mkExn Exception "Node is behind by 200 slots" in
  exists e,
    fst (SolanaClient.send_transaction_with_retry
           (Demo.refusing_world (exn_msg last)) "tx"
           SolanaClient.default_max_retries [])
    = Raise e /\
    ~ Spec.carries e last.
Proof.
  eexists. split.
  - vm_compute. reflexivity.
  - unfold Spec.carries. vm_compute. discriminate.
Qed.

(** A rate limit on every attempt: the loop sleeps after the last attempt
    too and the function ends without a signature and without an error. *)
Example send_rate_limited_to_the_end :
  SolanaClient.send_transaction_with_retry
    (Demo.refusing_world "HTTP 429 Too Many Requests") "tx" 3 []
  = (Ok PNone,
     [Spec.submit_request "tx"; Sleep 2;
      Spec.submit_request "tx"; Sleep 4;
      Spec.submit_request "tx"; Sleep 6]).
Proof. vm_compute. reflexivity. Qed.

(** The retry policy covers every run but those whose last attempt is
    rate limited. *)
Lemma send_loop_covered w tx m remaining :
  forall attempt h,
  Z.of_nat remaining = m - attempt -> 0 <= attempt -> (0 < remaining)%nat ->
  let '(r, h') := SolanaClient.send_loop w tx m remaining attempt h in
  Spec.retry_spec w tx m attempt h r h' \/
  (r = Ok PNone /\
   exists h1 e, h' = h1 ++ [Spec.submit_request tx; Sleep (2 * m)] /\
                rpc w h1 (SendRawTransaction tx) = Raise e /\
                Spec.rate_limited e = true).
Proof.
  induction remaining as [|k IH]; intros attempt h Hk Hpos Hrem; [lia|].
  rewrite send_loop_step.
  destruct (rpc w h (SendRawTransaction tx)) as [tx_sig|e] eqn:Hreply.
  - rewrite (send_attempt_success _ _ _ _ _ _ Hreply).
    left. apply Spec.retry_success; [lia | exact Hreply].
  - destruct (Spec.rate_limited e) eqn:Hrate.
    + rewrite (send_attempt_rate_limited _ _ _ _ _ _ Hreply Hrate).
      destruct k as [|k'].
      * simpl. unfold ret. right. split; [reflexivity|].
        exists h, e. replace (2 * m) with (2 * (attempt + 1)) by lia. auto.
      * specialize (IH (attempt + 1)
                      (h ++ [Spec.submit_request tx; Sleep (2 * (attempt + 1))])).
        destruct (SolanaClient.send_loop w tx m (S k') (attempt + 1) _) as [r h'].
        destruct IH as [IH | IH]; try lia.
        -- left. eapply Spec.retry_rate_limited; eauto. lia.
        -- now right.
    + destruct (Z.eq_dec attempt (m - 1)) as [Hlast | Hnot].
      * rewrite (send_attempt_last _ _ _ _ _ _ Hreply Hrate Hlast).
        left. eapply Spec.retry_exhausted; eauto.
      * rewrite (send_attempt_transient _ _ _ _ _ _ Hreply Hrate Hnot).
        destruct k as [|k']; [lia|].
        specialize (IH (attempt + 1) (h ++ [Spec.submit_request tx; Sleep 1])).
        destruct (SolanaClient.send_loop w tx m (S k') (attempt + 1) _) as [r h'].
        destruct IH as [IH | IH]; try lia.
        -- left. eapply Spec.retry_transient; eauto. lia.
        -- now right.
Qed.

(** ** Decimals lookup ([JupiterService.get_token_decimals]) *)

(** C7 (as amended): [get_token_decimals] keeps nothing between calls.
    Every call sends one [getTokenSupply] request and never raises; it
    returns the decimals of the reply when the query succeeds and 9
    otherwise. *)
Theorem get_token_decimals_queries_every_time (cfg : Config) (w : World)
    (token_address : string) (h : history) :
  let rq := HttpPost (SOLANA_RPC_URL cfg) []
              (Jupiter.token_supply_payload (PInt 1) token_address) in
  exists v,
    Jupiter.get_token_decimals cfg w token_address h = (Ok v, h ++ [Http rq]) /\
    (v = PInt 9 \/ Spec.decimals_reply w h rq v) /\
    (forall d, Spec.decimals_reply w h rq d -> v = d).
Proof.
  intros rq. unfold Jupiter.get_token_decimals, try_catch, bind, http_call, lift, ret.
  fold rq.
  destruct (http w h rq) as [reply|e] eqn:Hreply.
  2:{ eexists. split; [reflexivity|]. split; [now left|].
      intros d (reply & data & H & _). congruence. }
  destruct (status reply =? 200) eqn:Hstatus; simpl.
  2:{ eexists. split; [reflexivity|]. split; [now left|].
      intros d (reply' & data & H & Hs & _).
      assert (reply' = reply) by congruence. subst.
      apply Z.eqb_neq in Hstatus. contradiction. }
  apply Z.eqb_eq in Hstatus.
  destruct (json reply) as [data|e] eqn:Hjson.
  2:{ eexists. split; [reflexivity|]. split; [now left|].
      intros d (reply' & data & H & _ & Hj & _).
      assert (reply' = reply) by congruence. subst. congruence. }
  destruct (Val.contains "error" data) as [[|]|e] eqn:Herror.
  1,3: (eexists; split; [reflexivity|]; split; [now left|];
        intros d (reply' & data' & H & _ & Hj & He & _);
        assert (reply' = reply) by congruence; subst;
        assert (data' = data) by congruence; subst; congruence).
  destruct (Jupiter.decimals_of_reply data) as [d0|e] eqn:Hdec.
  - exists d0. split; [reflexivity|]. split.
    + right. exists reply, data. auto.
    + intros d (reply' & data' & H & _ & Hj & _ & Hd).
      assert (reply' = reply) by congruence; subst.
      assert (data' = data) by congruence; subst. congruence.
  - eexists. split; [reflexivity|]. split; [now left|].
    intros d (reply' & data' & H & _ & Hj & _ & Hd).
    assert (reply' = reply) by congruence; subst.
    assert (data' = data) by congruence; subst. congruence.
Qed.

Lemma get_token_decimals_queries_every_time_witness :
  fst (Jupiter.get_token_decimals Demo.cfg Demo.supply_once_world Jupiter.USDC_MINT [])
  = Ok (PInt 6).
Proof.
  destruct (get_token_decimals_queries_every_time
              Demo.cfg Demo.supply_once_world Jupiter.USDC_MINT [])
    as (v & Hrun & _ & Hreal).
  rewrite Hrun. simpl. f_equal. apply Hreal.
  exists (Demo.ok_reply (Demo.supply_json 6)), (Demo.supply_json 6).
  repeat split; reflexivity.
Defined.

(** The first query succeeds with 6 decimals; the second call for the
    same token queries again, fails, and returns 9: no value was cached.
    This is the point where claim C7 as stated fails. *)
Lemma get_token_decimals_second_call_not_cached :
  let first := Jupiter.get_token_decimals Demo.cfg Demo.supply_once_world
                 Jupiter.USDC_MINT [] in
  let second := Jupiter.get_token_decimals Demo.cfg Demo.supply_once_world
                  Jupiter.USDC_MINT (snd first) in
  fst first = Ok (PInt 6) /\
  fst second = Ok (PInt 9) /\
  List.length (snd second) = 2%nat.
Proof. vm_compute. repeat split; reflexivity. Qed.

(** ** Quotes ([JupiterService.get_best_route], [validate_slippage]) *)


(** What [get_best_route] sends: nothing for a malformed output address
    or a slippage that has no integer of basis points, the quote request
    otherwise. *)
Lemma get_best_route_requests (cfg : Config) (lib : Lib) (w : World)
    (input_mint output_mint amount : string) (slippage : spec_float) (h : history) :
  match pubkey lib output_mint with
  | Raise _ =>
      Jupiter.get_best_route cfg lib w input_mint output_mint amount slippage h
      = (raise ValueError ("Неверный формат адреса токена: " +:+ output_mint), h)
  | Ok _ =>
      match Jupiter.slippage_bps slippage with
      | Ok bps =>
          snd (Jupiter.get_best_route cfg lib w input_mint output_mint amount slippage h)
          = h ++ [Spec.quote_request cfg input_mint output_mint amount bps]
      | Raise e =>
          Jupiter.get_best_route cfg lib w input_mint output_mint amount slippage h
          = (Raise e, h)
      end
  end.
Proof.
  unfold Jupiter.get_best_route, bind, lift, http_call, ret, throw.
  destruct (pubkey lib output_mint) as [k|e]; [|reflexivity].
  destruct (Jupiter.slippage_bps slippage) as [bps|e]; [|reflexivity].
  unfold Spec.quote_request.
  match goal with |- context [http w h ?rq] => destruct (http w h rq) as [reply|e] end;
    [|reflexivity].
  destruct (negb (status reply =? 200)).
  - destruct (json reply) as [data|e]; [|reflexivity].
    destruct (Val.get data "error" (PStr "Unknown error")); reflexivity.
  - destruct (json reply) as [data|e]; [|reflexivity].
    destruct (Jupiter.log_platform_fee data); reflexivity.
Qed.




(** ** Token transfers ([SolanaService.send_spl_token]) *)

(** The final history is the initial one followed by the listed events. *)
Ltac hist :=
  repeat rewrite <- app_assoc; simpl;
  first [ reflexivity | symmetry; apply app_nil_r ].





(** ** Swaps ([JupiterService.perform_swap]) *)


(** [_get_quote] never raises and sends at most one request, a quote
    request for [amount]; without a request it returns [None]. *)
Lemma get_quote_run cfg lib w input_mint output_mint amount slippage h :
  exists v evs,
    Jupiter._get_quote cfg lib w input_mint output_mint amount slippage h
    = (Ok v, h ++ evs) /\
    ((evs = [] /\ v = PNone) \/
     exists q, evs = [q] /\ Spec.is_quote_of cfg amount q = true).
Proof.
  unfold Jupiter._get_quote, try_catch, bind, lift, http_call, ret, throw.
  destruct (Jupiter.slippage_bps slippage) as [bps|e].
  2:{ exists PNone, []. split; [now rewrite app_nil_r | now left]. }
  match goal with |- context [http w h ?rq] => set (q := rq) end.
  assert (Hq : forall v, exists v0 evs,
             (Ok v : res pyval, h ++ [Http q]) = (Ok v0, h ++ evs) /\
             ((evs = [] /\ v0 = PNone) \/
              exists q, evs = [q] /\ Spec.is_quote_of cfg amount q = true)).
  { intros v. exists v, [Http q]. split; [reflexivity|]. right.
    exists (Http q). split; [reflexivity|]. subst q. simpl.
    now rewrite !String.eqb_refl. }
  destruct (http w h q) as [reply|e]; [|apply Hq].
  destruct (negb (status reply =? 200)).
  - destruct (json reply) as [data|e]; [|apply Hq].
    destruct (Val.get data "error" (PStr "Unknown error")); apply Hq.
  - destruct (json reply) as [data|e]; [|apply Hq].
    destruct (Val.contains "error" data) as [[|]|e]; [| |apply Hq].
    + destruct (Val.getitem data "error"); apply Hq.
    + destruct (Jupiter.log_platform_fee data); apply Hq.
Qed.

(** [_get_swap_transaction] never raises and sends one swap-build
    request. *)
Lemma get_swap_transaction_run cfg lib w user_wallet_address quote_data h :
  exists v b,
    Jupiter._get_swap_transaction cfg lib w user_wallet_address quote_data h
    = (Ok v, h ++ [b]) /\ Spec.is_swap_build cfg b = true.
Proof.
  unfold Jupiter._get_swap_transaction, try_catch, bind, lift, http_call, ret, throw.
  match goal with |- context [http w h ?rq] => set (b := rq) end.
  assert (Hb : forall v, exists v0 b0,
             (Ok v : res pyval, h ++ [Http b]) = (Ok v0, h ++ [b0]) /\
             Spec.is_swap_build cfg b0 = true).
  { intros v. exists v, (Http b). split; [reflexivity|]. apply String.eqb_refl. }
  destruct (http w h b) as [resp|e]; [|apply Hb].
  destruct (negb (status resp =? 200)); [apply Hb|].
  destruct (json resp) as [swap_data|e]; [|apply Hb].
  destruct (Val.contains "error" swap_data) as [[|]|e]; [| |apply Hb].
  - destruct (Val.getitem swap_data "error"); apply Hb.
  - destruct (Val.get swap_data "swapTransaction" PNone) as [tx_b64|e]; [|apply Hb].
    destruct (negb (truthy tx_b64)); [apply Hb|].
    destruct (Val.len tx_b64) as [n|e]; [|apply Hb].
    destruct (n <? 100); apply Hb.
Qed.

(** [_send_swap_transaction] never raises; it returns a signature only
    after a submission, followed by the two-second sleep and the status
    request, and [None] after no submission or a refused one. *)
Lemma send_swap_transaction_run lib w swap_transaction user_private_key h :
  exists v evs,
    Jupiter._send_swap_transaction lib w swap_transaction user_private_key h
    = (Ok v, h ++ evs) /\
    ((v = PNone /\ (evs = [] \/ exists tx, evs = [Rpc (SendRawTransaction tx)])) \/
     exists tx signature,
       v = PStr signature /\
       evs = [Rpc (SendRawTransaction tx); Sleep 2;
              Rpc (GetSignatureStatuses [signature])]).
Proof.
  unfold Jupiter._send_swap_transaction, try_catch, bind, lift, rpc_call, ret,
    throw, sleep.
  assert (H0 : exists v evs,
             (Ok PNone : res pyval, h) = (Ok v, h ++ evs) /\
             ((v = PNone /\ (evs = [] \/ exists tx, evs = [Rpc (SendRawTransaction tx)])) \/
              exists tx signature,
                v = PStr signature /\
                evs = [Rpc (SendRawTransaction tx); Sleep 2;
                       Rpc (GetSignatureStatuses [signature])])).
  { exists PNone, []. split; [now rewrite app_nil_r|]. left. auto. }
  destruct (match swap_transaction with PStr s => _ | _ => _ end) as [tx|e];
    [|exact H0].
  destruct (b58decode lib (Jupiter.signing_key lib user_private_key)) as [bytes|e];
    [|exact H0].
  destruct (keypair_from_secret lib bytes) as [wallet|e]; [|exact H0].
  destruct (sign_and_serialize lib tx wallet) as [wire|e]; [|exact H0].
  clear H0.
  destruct (rpc w h (SendRawTransaction wire)) as [tx_sig|e].
  2:{ exists PNone, [Rpc (SendRawTransaction wire)]. split; [reflexivity|].
      left. eauto. }
  exists (PStr (Jupiter.signature_of_reply lib tx_sig)).
  exists [Rpc (SendRawTransaction wire); Sleep 2;
          Rpc (GetSignatureStatuses [Jupiter.signature_of_reply lib tx_sig])].
  split.
  - destruct (rpc w _ (GetSignatureStatuses _)); repeat rewrite <- app_assoc; reflexivity.
  - right. eauto.
Qed.

(** One pass of the loop is one cycle: a signature is returned at once, a
    failure is retried after one second while a cycle is left and raises
    the exception of the failed step otherwise. *)
Lemma swap_attempt_run cfg lib w input_mint output_mint amount wallet key slippage
    m attempt h :
  exists o c evs r,
    Spec.swap_cycle cfg amount o c /\
    Jupiter.swap_attempt cfg lib w input_mint output_mint amount wallet key
      slippage m attempt h = (r, h ++ evs) /\
    match o with
    | Spec.Submitted signature => r = Ok (Return (PStr signature)) /\ evs = c
    | _ => if attempt <? m - 1
           then r = Ok (Next tt) /\ evs = c ++ [Sleep 1]
           else r = Raise (Spec.failure_of o) /\ evs = c
    end.
Proof.
  unfold Jupiter.swap_attempt, try_catch, bind.
  destruct (get_quote_run cfg lib w input_mint output_mint amount slippage h)
    as (quote_data & qs & -> & Hq).
  destruct (negb (truthy quote_data)) eqn:Hquote.
  { exists Spec.NoQuote, qs.
    assert (Hc : Spec.swap_cycle cfg amount Spec.NoQuote qs).
    { destruct Hq as [[-> _] | (q & -> & Hq)]; now constructor. }
    unfold Jupiter.retry_or_raise, bind, sleep, ret, throw, rethrow.
    destruct (attempt <? m - 1) eqn:Hlast.
    - exists (qs ++ [Sleep 1]), (Ok (Next tt)). rewrite app_assoc. auto.
    - exists qs, (Raise (Spec.failure_of Spec.NoQuote)). auto. }
  destruct Hq as [[_ ->] | (q & -> & Hq)]; [discriminate|].
  destruct (get_swap_transaction_run cfg lib w wallet quote_data (h ++ [q]))
    as (swap_transaction & b & -> & Hb).
  destruct (negb (truthy swap_transaction)) eqn:Hswap.
  { exists Spec.NoSwapTransaction, [q; b].
    assert (Hc : Spec.swap_cycle cfg amount Spec.NoSwapTransaction [q; b])
      by now constructor.
    unfold Jupiter.retry_or_raise, bind, sleep, ret, throw, rethrow.
    destruct (attempt <? m - 1) eqn:Hlast.
    - exists ([q; b] ++ [Sleep 1]), (Ok (Next tt)).
      repeat rewrite <- app_assoc. auto.
    - exists [q; b], (Raise (Spec.failure_of Spec.NoSwapTransaction)).
      repeat rewrite <- app_assoc. auto. }
  destruct (send_swap_transaction_run lib w swap_transaction key ((h ++ [q]) ++ [b]))
    as (signature & ss & -> & Hs).
  destruct (negb (truthy signature)) eqn:Hsig.
  { assert (Hc : Spec.swap_cycle cfg amount Spec.NoSubmission ([q; b] ++ ss)).
    { destruct Hs as [[_ [-> | (tx & ->)]] | (tx & sg & -> & ->)].
      - now constructor.
      - now constructor.
      - destruct sg; [|discriminate]. now constructor. }
    exists Spec.NoSubmission, ([q; b] ++ ss).
    unfold Jupiter.retry_or_raise, bind, sleep, ret, throw, rethrow.
    destruct (attempt <? m - 1) eqn:Hlast.
    - exists (([q; b] ++ ss) ++ [Sleep 1]), (Ok (Next tt)).
      repeat rewrite <- app_assoc. auto.
    - exists ([q; b] ++ ss), (Raise (Spec.failure_of Spec.NoSubmission)).
      repeat rewrite <- app_assoc. auto. }
  destruct Hs as [[-> _] | (tx & sg & -> & ->)]; [discriminate|].
  exists (Spec.Submitted sg),
    [q; b; Rpc (SendRawTransaction tx); Sleep 2; Rpc (GetSignatureStatuses [sg])],
    [q; b; Rpc (SendRawTransaction tx); Sleep 2; Rpc (GetSignatureStatuses [sg])],
    (Ok (Return (PStr sg))).
  split; [|split].
  - constructor; auto. intros ->. discriminate.
  - unfold ret. repeat rewrite <- app_assoc. reflexivity.
  - auto.
Qed.

Lemma swap_loop_step cfg lib w im om amount wallet key slippage m k attempt h :
  Jupiter.swap_loop cfg lib w im om amount wallet key slippage m (S k) attempt h
  = match Jupiter.swap_attempt cfg lib w im om amount wallet key slippage m attempt h with
    | (Ok (Return v), h') => (Ok v, h')
    | (Ok (Next _), h') =>
        Jupiter.swap_loop cfg lib w im om amount wallet key slippage m k (attempt + 1) h'
    | (Raise e, h') => (Raise e, h')
    end.
Proof.
  simpl. unfold bind.
  destruct (Jupiter.swap_attempt cfg lib w im om amount wallet key slippage m attempt h)
    as [[[u|v]|e] h']; reflexivity.
Qed.

(** The loop runs cycles until one submits or none is left. *)
Lemma swap_loop_run cfg lib w im om amount wallet key slippage m remaining :
  forall attempt h,
  Z.of_nat remaining = m - attempt -> (0 < remaining)%nat ->
  exists n o evs r,
    Jupiter.swap_loop cfg lib w im om amount wallet key slippage m remaining attempt h
    = (r, h ++ evs) /\
    Spec.swap_cycles cfg amount n o evs /\ (n <= remaining)%nat /\
    match o with
    | Spec.Submitted signature => r = Ok (PStr signature) /\ signature <> ""
    | _ => n = remaining /\ r = Raise (Spec.failure_of o)
    end.
Proof.
  induction remaining as [|k IH]; intros attempt h Hk Hpos; [lia|].
  rewrite swap_loop_step.
  destruct (swap_attempt_run cfg lib w im om amount wallet key slippage m attempt h)
    as (o & c & evs & r & Hc & -> & Ho).
  destruct (attempt <? m - 1) eqn:Hlast.
  - apply Z.ltb_lt in Hlast.
    destruct k as [|k']; [lia|].
    destruct o as [ | | |sg].
    4:{ destruct Ho as [-> ->]. exists 1%nat, (Spec.Submitted sg), c, (Ok (PStr sg)).
        split; [reflexivity|]. split; [now constructor|]. split; [lia|].
        split; [reflexivity|]. now inversion Hc. }
    all: destruct Ho as [-> ->];
      destruct (IH (attempt + 1) (h ++ c ++ [Sleep 1]))
        as (n & o' & rest & r' & Hrun & Hcs & Hn & Ho');
      [lia | lia |];
      rewrite Hrun;
      exists (S n), o', (c ++ Sleep 1 :: rest), r';
      (split; [repeat rewrite <- app_assoc; reflexivity|]);
      (split; [eapply Spec.cycles_retry; [exact Hc | exact I | exact Hcs]|]);
      (split; [lia|]);
      destruct o'; intuition lia.
  - apply Z.ltb_ge in Hlast. assert (k = 0%nat) by lia. subst k.
    destruct o as [ | | |sg].
    4:{ destruct Ho as [-> ->]. exists 1%nat, (Spec.Submitted sg), c, (Ok (PStr sg)).
        split; [reflexivity|]. split; [now constructor|]. split; [lia|].
        split; [reflexivity|]. now inversion Hc. }
    all: destruct Ho as [-> ->];
      eexists 1%nat, _, c, _; (split; [reflexivity|]);
      (split; [constructor; exact Hc|]); (split; [lia|]); split; reflexivity.
Qed.




Lemma build_event_kinds cfg b :
  Spec.is_swap_build cfg b = true ->
  Spec.is_quote cfg b = false /\
  Spec.is_submission b = false /\ Spec.is_anchor_fetch b = false.
Proof.
  destruct b as [[url hd params|url hd body]|rq|s]; simpl; try discriminate. auto.
Qed.







(** ** Sells and swaps shown to the user ([execute_swap], [execute_sell]) *)

(** *** The reserve of the balance guard is never negative *)

Lemma binary_round_aux_sign s m e l :
  match binary_round_aux Float.prec Float.emax s m e l with
  | S754_finite s' _ _ => s' = s
  | _ => True
  end.
Proof.
  unfold binary_round_aux.
  destruct (shr_fexp Float.prec Float.emax m e l) as [mrs e1].
  destruct (shr_fexp Float.prec Float.emax _ e1 loc_Exact) as [mrs2 e2].
  destruct (shr_m mrs2); [exact I | | exact I].
  destruct (Z.leb e2 _); [reflexivity | exact I].
Qed.

Lemma of_int_not_negative n f :
  0 < n -> Float.of_int n = Ok f -> Spec.not_negative f.
Proof.
  intros Hn. unfold Float.of_int, binary_normalize.
  destruct n as [|q|q]; try lia.
  unfold binary_round.
  destruct (shl_align q 0 _) as [mz ez].
  pose proof (binary_round_aux_sign false (Zpos mz) ez loc_Exact) as Hs.
  destruct (binary_round_aux Float.prec Float.emax false (Zpos mz) ez loc_Exact)
    as [s|s| |s m e]; intros H; try discriminate; injection H as <-; simpl; auto.
  now subst s.
Qed.

Lemma mul_not_negative mx ex y :
  Spec.not_negative y -> Spec.not_negative (Float.mul (S754_finite false mx ex) y).
Proof.
  unfold Float.mul, SFmul. destruct y as [s|s| |s m e]; simpl; auto.
  intros Hy. destruct s; [contradiction|]. simpl.
  pose proof (binary_round_aux_sign false (Zpos (mx * m)) (ex + e) loc_Exact) as Hs.
  destruct (binary_round_aux Float.prec Float.emax false (Zpos (mx * m)) (ex + e) loc_Exact)
    as [s|s| |s m' e']; simpl; auto.
  now subst s.
Qed.

Lemma to_int_not_negative f z :
  Spec.not_negative f -> Float.to_int f = Ok z -> 0 <= z.
Proof.
  destruct f as [s|s| |s m e]; simpl; try discriminate.
  - intros _ H. injection H as <-. lia.
  - destruct s; [contradiction|]. intros _ H. injection H as <-.
    destruct e; [apply Z.shiftl_nonneg | apply Z.shiftl_nonneg | apply Z.shiftr_nonneg]; lia.
Qed.

Lemma min_balance_nonneg p min_balance :
  0 < p -> Jupiter.min_balance_of p = Ok min_balance -> 0 <= min_balance.
Proof.
  intros Hp. unfold Jupiter.min_balance_of, Float.mul_int.
  destruct (Float.of_int p) as [y|e] eqn:Hy; simpl; [|discriminate].
  apply to_int_not_negative. apply mul_not_negative.
  now apply (of_int_not_negative p).
Qed.

Lemma pow10_positive d p : Val.pow10 d = Ok p -> 0 < p.
Proof.
  destruct d as [|b|n|s|l|l|l]; simpl; try discriminate; intros H; injection H as <-.
  - destruct b; lia.
  - apply Z.pow_pos_nonneg; lia.
Qed.


Lemma sell_error_message_is_error lib original e :
  Spec.error_message (Jupiter.sell_error_message lib original e).
Proof.
  unfold Jupiter.sell_error_message, Spec.error_message.
  repeat match goal with |- context [if ?c then _ else _] => destruct c end;
    reflexivity.
Qed.

Lemma swap_cycle_quotes cfg amount o c :
  Spec.swap_cycle cfg amount o c ->
  forall ev, In ev c -> Spec.is_quote cfg ev = true ->
             Spec.is_quote_of cfg amount ev = true.
Proof.
  intros Hc ev Hin Hev.
  inversion Hc; subst; simpl in Hin;
    repeat match goal with
           | H : _ \/ _ |- _ => destruct H as [<- | H]
           | H : False |- _ => destruct H
           end;
    try assumption; try discriminate;
    match goal with
    | H : Spec.is_swap_build _ _ = true |- _ =>
        apply build_event_kinds in H; destruct H as (H & _); congruence
    end.
Qed.

Lemma swap_cycles_quotes cfg amount n o evs :
  Spec.swap_cycles cfg amount n o evs ->
  forall ev, In ev evs -> Spec.is_quote cfg ev = true ->
             Spec.is_quote_of cfg amount ev = true.
Proof.
  induction 1 as [o c Hc | o1 c n o rest Hc _ _ IH]; intros ev Hin Hev.
  - eapply swap_cycle_quotes; eauto.
  - apply in_app_or in Hin. destruct Hin as [Hin | [<- | Hin]].
    + eapply swap_cycle_quotes; eauto.
    + discriminate.
    + now apply IH.
Qed.

Lemma perform_swap_default_run cfg lib w token amount wallet key slippage is_selling h :
  exists r evs,
    Jupiter.perform_swap cfg lib w token amount wallet key slippage
      Jupiter.perform_swap_default_max_retries is_selling h = (r, h ++ evs) /\
    ((exists signature, r = Ok (PStr signature) /\ signature <> "") \/
     exists e, r = Raise e) /\
    (forall ev, In ev evs -> Spec.is_quote cfg ev = true ->
                Spec.is_quote_of cfg amount ev = true).
Proof.
  unfold Jupiter.perform_swap.
  match goal with
  | |- context [Jupiter.swap_loop _ _ _ ?im ?om _ _ _ ?sl ?m ?k 0 h] =>
      destruct (swap_loop_run cfg lib w im om amount wallet key sl m k 0 h)
        as (n & o & evs & r & Hloop & Hcycles & _ & Ho);
      [reflexivity | unfold Jupiter.perform_swap_default_max_retries; simpl; lia |]
  end.
  exists r, evs. split; [exact Hloop|]. split.
  - destruct o; [right | right | right | left]; destruct Ho; eauto.
  - apply (swap_cycles_quotes _ _ _ _ _ Hcycles).
Qed.


Ltac balance_leaf :=
  eexists _, _, _; split; [reflexivity|];
  eexists; split; [hist | repeat constructor].

Lemma get_token_balance_run cfg lib w wallet_address token_address h :
  exists balance decimals h',
    Jupiter.get_token_balance cfg lib w wallet_address token_address h
    = (Ok (balance, decimals), h') /\
    exists evs, h' = h ++ evs /\ Spec.no_quote cfg evs.
Proof.
  unfold Jupiter.get_token_balance, try_catch, bind, lift, http_call, ret.
  destruct (pubkey lib (strip lib (Jupiter.resolve_symbol cfg lib token_address)))
    as [token_pubkey|e]; [|balance_leaf].
  destruct (pubkey lib (strip lib wallet_address)) as [wallet_pubkey|e]; [|balance_leaf].
  match goal with |- context [http w h ?rq] => destruct (http w h rq) as [response|e] end;
    [|balance_leaf].
  destruct (negb (status response =? 200)); [balance_leaf|].
  destruct (json response) as [decimals_data|e]; [|balance_leaf].
  destruct (Val.contains "error" decimals_data) as [[|]|e]; [balance_leaf| |balance_leaf].
  destruct (Jupiter.decimals_of_reply decimals_data) as [decimals|e]; [|balance_leaf].
  match goal with |- context [http w (h ++ ?evs) ?rq] =>
    destruct (http w (h ++ evs) rq) as [response2|e] end; [|balance_leaf].
  destruct (negb (status response2 =? 200)); [balance_leaf|].
  destruct (json response2) as [data|e]; [|balance_leaf].
  destruct (Val.contains "error" data) as [[|]|e]; [balance_leaf| |balance_leaf].
  match goal with |- context [res_bind ?a ?k] => destruct (res_bind a k) as [value|e] end;
    [|balance_leaf].
  destruct (negb (truthy value)); [balance_leaf|].
  destruct (Jupiter.read_account_balance lib value decimals) as [[b d]|e]; balance_leaf.
Qed.

Lemma quotes_ask_nil cfg amount : Spec.quotes_ask cfg amount [].
Proof. intros ev []. Qed.

Lemma quotes_ask_app cfg amount a b :
  Spec.quotes_ask cfg amount a -> Spec.quotes_ask cfg amount b -> Spec.quotes_ask cfg amount (a ++ b).
Proof. intros Ha Hb ev Hin. apply in_app_or in Hin. destruct Hin; auto. Qed.

Lemma get_best_route_run cfg lib w input_mint output_mint amount slippage h :
  exists r evs,
    Jupiter.get_best_route cfg lib w input_mint output_mint amount slippage h
    = (r, h ++ evs) /\ Spec.quotes_ask cfg amount evs.
Proof.
  pose proof (get_best_route_requests cfg lib w input_mint output_mint amount
                slippage h) as H.
  destruct (pubkey lib output_mint) as [k|e].
  - destruct (Jupiter.slippage_bps slippage) as [bps|e].
    + destruct (Jupiter.get_best_route cfg lib w input_mint output_mint amount slippage h)
        as [r h']. simpl in H. subst h'. eexists _, _. split; [reflexivity|].
      intros ev [<- | []] _. simpl. now rewrite !String.eqb_refl.
    + rewrite H. exists (Raise e), []. rewrite app_nil_r. split; [reflexivity|].
      apply quotes_ask_nil.
  - rewrite H. eexists _, []. rewrite app_nil_r. split; [reflexivity|].
    apply quotes_ask_nil.
Qed.

Lemma sell_route_and_swap_run cfg lib w original token pub priv raw slippage h :
  exists s evs,
    Jupiter.sell_route_and_swap cfg lib w original token pub priv raw slippage h
    = (Ok s, h ++ evs) /\
    Spec.quotes_ask cfg (Str.of_Z raw) evs /\
    (Spec.error_message s \/
     exists signature h0 h1,
       Jupiter.perform_swap cfg lib w token (Str.of_Z raw) pub priv slippage
         Jupiter.perform_swap_default_max_retries true h0
       = (Ok (PStr signature), h1) /\
       s = Jupiter.solscan_url signature).
Proof.
  unfold Jupiter.sell_route_and_swap, try_catch, bind, lift, ret.
  destruct (get_best_route_run cfg lib w token Jupiter.SOL_MINT (Str.of_Z raw) slippage h)
    as (route_r & evs1 & -> & Hask1).
  assert (Herr : forall e, exists s evs,
             (Ok (Jupiter.sell_error_message lib original e), h ++ evs1)
             = (Ok s, h ++ evs) /\
             Spec.quotes_ask cfg (Str.of_Z raw) evs /\
             (Spec.error_message s \/
              exists signature h0 h1,
                Jupiter.perform_swap cfg lib w token (Str.of_Z raw) pub priv slippage
                  Jupiter.perform_swap_default_max_retries true h0
                = (Ok (PStr signature), h1) /\
                s = Jupiter.solscan_url signature)).
  { intros e. eexists _, _. split; [reflexivity|]. split; [exact Hask1|].
    left. apply sell_error_message_is_error. }
  assert (Hmsg : forall msg, Spec.error_message msg -> exists s evs,
             (Ok msg, h ++ evs1) = (Ok s, h ++ evs) /\
             Spec.quotes_ask cfg (Str.of_Z raw) evs /\
             (Spec.error_message s \/
              exists signature h0 h1,
                Jupiter.perform_swap cfg lib w token (Str.of_Z raw) pub priv slippage
                  Jupiter.perform_swap_default_max_retries true h0
                = (Ok (PStr signature), h1) /\
                s = Jupiter.solscan_url signature)).
  { intros msg Hm. eexists _, _. split; [reflexivity|]. split; [exact Hask1|].
    now left. }
  destruct route_r as [route|e]; [|apply Herr].
  destruct (negb (truthy route)); [apply Hmsg; reflexivity|].
  destruct (Val.contains "routePlan" route) as [has_plan|e]; [|apply Herr].
  destruct has_plan; cbv beta iota; [|apply Hmsg; reflexivity].
  destruct (Val.get route "routePlan" PNone) as [plan|e]; [|apply Herr].
  destruct (negb true || negb (truthy plan)); [apply Hmsg; reflexivity|].
  destruct (perform_swap_default_run cfg lib w token (Str.of_Z raw) pub priv slippage
              true (h ++ evs1)) as (r & evs2 & Hrun & Hr & Hask2).
  rewrite Hrun.
  destruct Hr as [(signature & -> & Hne) | (e & ->)]; [|
    eexists _, _; split; [rewrite <- app_assoc; reflexivity|];
    split; [now apply quotes_ask_app|]; left; apply sell_error_message_is_error].
  destruct (negb (truthy (PStr signature))).
  - eexists _, _. split; [rewrite <- app_assoc; reflexivity|].
    split; [now apply quotes_ask_app|]. now left.
  - eexists _, _. split; [rewrite <- app_assoc; reflexivity|].
    split; [now apply quotes_ask_app|]. right. eauto.
Qed.

Lemma balance_guard_cases lib balance raw decimals :
  match Jupiter.balance_guard lib balance raw decimals with
  | Ok (Return msg) =>
      raw > balance /\
      exists p human_balance human_amount,
        Val.pow10 decimals = Ok p /\
        Float.int_truediv balance (Z.to_pos p) = Ok human_balance /\
        Float.int_truediv raw (Z.to_pos p) = Ok human_amount /\
        msg = "❌ Ошибка: Недостаточно токенов. Баланс: "
                +:+ format_6f lib human_balance
                +:+ ", Запрошено: " +:+ format_6f lib human_amount
  | Ok (Next sent) =>
      raw <= balance /\
      exists p min_balance,
        Val.pow10 decimals = Ok p /\
        Jupiter.min_balance_of p = Ok min_balance /\
        sent = if balance - raw <? min_balance then balance - min_balance else raw
  | Raise _ => True
  end.
Proof.
  unfold Jupiter.balance_guard.
  destruct (Val.pow10 decimals) as [p|e]; simpl; [|exact I].
  destruct (Float.int_truediv balance (Z.to_pos p)) as [tb|e] eqn:Htb; simpl; [|exact I].
  destruct (raw >? balance) eqn:Hcmp.
  - destruct (Float.int_truediv raw (Z.to_pos p)) as [ha|e] eqn:Hha; simpl; [|exact I].
    split; [now apply Z.gtb_gt|]. exists p, tb, ha. auto.
  - assert (raw <= balance) by (rewrite Z.gtb_ltb in Hcmp; now apply Z.ltb_ge).
    destruct (Jupiter.min_balance_of p) as [mb|e] eqn:Hmb; simpl; [|exact I].
    destruct (balance - raw <? mb) eqn:Hcap.
    + destruct (Float.int_truediv (balance - mb) (Z.to_pos p)); simpl; [|exact I].
      destruct (Float.int_truediv mb (Z.to_pos p)); simpl; [|exact I].
      split; [assumption|]. exists p, mb. now rewrite Hcap.
    + split; [assumption|]. exists p, mb. now rewrite Hcap.
Qed.

Lemma convert_amount_message lib amount decimals msg :
  Jupiter.convert_amount lib amount decimals = Ok (Return msg) -> Spec.error_message msg.
Proof.
  unfold Jupiter.convert_amount.
  match goal with |- context [match ?x with Ok _ => _ | Raise _ => _ end] =>
    destruct x as [raw|e] end; [discriminate|].
  destruct (is_instance e [ValueError; TypeError]); [|discriminate].
  intros H. injection H as <-. reflexivity.
Qed.

Ltac prepare_leaf :=
  eexists _, _; split; [reflexivity|]; split;
  [ eexists; split; [hist | repeat constructor]
  | intros msg Hmsg; injection Hmsg as <-; reflexivity ].

Lemma sell_prepare_run cfg lib w user_pubkey token_address amount h :
  exists r h',
    Jupiter.sell_prepare cfg lib w user_pubkey token_address amount h = (r, h') /\
    (exists evs, h' = h ++ evs /\ Spec.no_quote cfg evs) /\
    (forall msg, r = Ok (Return msg) -> Spec.error_message msg).
Proof.
  unfold Jupiter.sell_prepare, bind, lift, ret.
  destruct (Str.len (strip lib user_pubkey) <? 32); [prepare_leaf|].
  destruct (b58decode lib (strip lib user_pubkey)) as [decoded|e]; [|prepare_leaf].
  destruct (negb (Str.len_bytes decoded =? 32)); [prepare_leaf|].
  destruct (pubkey lib (strip lib user_pubkey)) as [wallet_pubkey|e]; [|prepare_leaf].
  destruct (pubkey lib (Jupiter.resolve_symbol cfg lib token_address))
    as [token_pubkey|e]; [|prepare_leaf].
  destruct (get_token_balance_run cfg lib w wallet_pubkey token_pubkey h)
    as (balance & decimals & h1 & -> & evs & -> & Hevs).
  destruct (balance =? 0).
  { eexists _, _. split; [reflexivity|]. split; [eauto|].
    intros msg Hmsg. injection Hmsg as <-. reflexivity. }
  destruct (Jupiter.convert_amount lib amount decimals) as [[raw|msg]|e] eqn:Hconv.
  - eexists _, _. split; [reflexivity|]. split; [eauto|]. discriminate.
  - eexists _, _. split; [reflexivity|]. split; [eauto|].
    intros msg' Hmsg. injection Hmsg as <-.
    apply (convert_amount_message _ _ _ _ Hconv).
  - eexists _, _. split; [reflexivity|]. split; [eauto|]. discriminate.
Qed.

Lemma no_quote_quotes_ask cfg amount evs : Spec.no_quote cfg evs -> Spec.quotes_ask cfg amount evs.
Proof.
  intros H ev Hin Hq. unfold Spec.no_quote in H. rewrite List.Forall_forall in H.
  specialize (H ev Hin). congruence.
Qed.



(** An explorer address is not an error message. *)
Lemma solscan_url_not_error (signature : string) :
  ~ Spec.error_message (Jupiter.solscan_url signature).
Proof. unfold Spec.error_message. simpl. discriminate. Qed.

(** *** The balance guard of [execute_sell] *)

Lemma no_quote_count cfg evs :
  Spec.no_quote cfg evs -> Spec.count (Spec.is_quote cfg) evs = 0%nat.
Proof.
  unfold Spec.no_quote, Spec.count.
  induction 1 as [|ev evs Hev _ IH]; simpl; [reflexivity|]. now rewrite Hev.
Qed.

Lemma balance_guard_insufficient lib balance raw decimals p human_balance human_amount :
  raw > balance ->
  Val.pow10 decimals = Ok p ->
  Float.int_truediv balance (Z.to_pos p) = Ok human_balance ->
  Float.int_truediv raw (Z.to_pos p) = Ok human_amount ->
  Jupiter.balance_guard lib balance raw decimals
  = Ok (Return ("❌ Ошибка: Недостаточно токенов. Баланс: "
                  +:+ format_6f lib human_balance
                  +:+ ", Запрошено: " +:+ format_6f lib human_amount)).
Proof.
  intros Hgt Hp Hb Ha. unfold Jupiter.balance_guard. rewrite Hp. simpl.
  rewrite Hb. simpl.
  replace (raw >? balance) with true by (symmetry; now apply Z.gtb_gt).
  rewrite Ha. reflexivity.
Qed.

(** C1: once [execute_sell] has the balance and the requested raw amount,
    (a) a request above the balance returns an error message and no quote
    request is sent at all, the message being the insufficient-balance
    one whenever its two figures can be formed; (b) otherwise every quote
    request sent asks for the guarded amount, which is the balance less
    the reserve [int(0.01 * 10 ** decimals)] when selling the request
    would leave less than the reserve, the request itself if not, and
    which never exceeds the balance. *)
Theorem execute_sell_balance_guard (cfg : Config) (lib : Lib) (w : World)
    (user_pubkey user_privkey token_address : string) (amount : Jupiter.sell_amount)
    (h : history) (st : Jupiter.sell_state) (h1 : history) :
  Jupiter.sell_prepare cfg lib w user_pubkey token_address amount h
  = (Ok (Next st), h1) ->
  let balance := Jupiter.sell_balance_raw st in
  let raw := Jupiter.sell_raw_amount st in
  exists s evs,
    Jupiter.execute_sell cfg lib w user_pubkey user_privkey token_address amount h
    = (Ok s, h ++ evs) /\
    (raw > balance ->
     Spec.error_message s /\
     Spec.count (Spec.is_quote cfg) evs = 0%nat /\
     forall p human_balance human_amount,
       Val.pow10 (Jupiter.sell_decimals st) = Ok p ->
       Float.int_truediv balance (Z.to_pos p) = Ok human_balance ->
       Float.int_truediv raw (Z.to_pos p) = Ok human_amount ->
       s = "❌ Ошибка: Недостаточно токенов. Баланс: "
             +:+ format_6f lib human_balance
             +:+ ", Запрошено: " +:+ format_6f lib human_amount) /\
    (raw <= balance ->
     forall ev, In ev evs -> Spec.is_quote cfg ev = true ->
     exists p min_balance sent,
       Val.pow10 (Jupiter.sell_decimals st) = Ok p /\
       Jupiter.min_balance_of p = Ok min_balance /\
       0 <= min_balance /\
       sent = (if balance - raw <? min_balance then balance - min_balance else raw) /\
       sent <= balance /\
       Spec.is_quote_of cfg (Str.of_Z sent) ev = true).
Proof.
  intros Hprep balance raw.
  destruct (sell_prepare_run cfg lib w user_pubkey token_address amount h)
    as (r0 & h0 & Hrun & (evs0 & -> & Hno) & _).
  rewrite Hprep in Hrun. injection Hrun as <- ->.
  unfold Jupiter.execute_sell, try_catch, bind, ret. rewrite Hprep.
  unfold Jupiter.sell_guarded, bind, lift, ret.
  pose proof (balance_guard_cases lib balance raw (Jupiter.sell_decimals st)) as Hguard.
  pose proof (balance_guard_insufficient lib balance raw (Jupiter.sell_decimals st))
    as Hinsufficient.
  fold balance raw.
  destruct (Jupiter.balance_guard lib balance raw (Jupiter.sell_decimals st))
    as [[sent|msg]|e].
  - (* the guard lets the sale through, for [sent] *)
    destruct Hguard as (Hle & p & min_balance & Hp & Hmin & ->).
    match goal with
    | |- context [Jupiter.sell_route_and_swap cfg lib w ?o ?t ?pk ?k ?a ?sl _] =>
        destruct (sell_route_and_swap_run cfg lib w o t pk k a sl (h ++ evs0))
          as (s & evs & -> & Hask & _)
    end.
    exists s, (evs0 ++ evs). split; [now rewrite app_assoc|]. split; [lia|].
    intros _ ev Hin Hev.
    pose proof (min_balance_nonneg p min_balance (pow10_positive _ _ Hp) Hmin) as Hnonneg.
    exists p, min_balance. eexists. split; [exact Hp|]. split; [exact Hmin|].
    split; [exact Hnonneg|]. split; [reflexivity|]. split.
    + destruct (balance - raw <? min_balance); lia.
    + apply in_app_or in Hin. destruct Hin as [Hin | Hin].
      * apply (no_quote_quotes_ask cfg _ evs0 Hno ev Hin Hev).
      * now apply Hask.
  - (* the request exceeds the balance *)
    destruct Hguard as (Hgt & p & hb & ha & Hp & Hb & Ha & ->).
    eexists _, evs0. split; [reflexivity|]. split; [|lia].
    intros _. split; [reflexivity|]. split; [now apply no_quote_count|].
    intros p' hb' ha' Hp' Hb' Ha'.
    assert (p' = p) by congruence. subst p'. congruence.
  - (* the guard itself raises *)
    eexists _, evs0. split; [reflexivity|]. split.
    + intros Hgt. split; [reflexivity|]. split; [now apply no_quote_count|].
      intros p hb ha Hp Hb Ha.
      specialize (Hinsufficient p hb ha Hgt Hp Hb Ha). discriminate.
    + intros _ ev Hin Hev.
      unfold Spec.no_quote in Hno. rewrite List.Forall_forall in Hno.
      specialize (Hno ev Hin). congruence.
Qed.

(** The wallet holds 5000000 units; a request for 4999999 would leave 1,
    less than the reserve of 10000. *)
Example sell_prepare_near_full_balance :
  Jupiter.sell_prepare Demo.cfg Demo.lib_int Demo.accepting_world
    Demo.wallet Jupiter.USDC_MINT (Jupiter.SellInt 4999999) []
  = (Ok (Next (Demo.prepared 4999999)), Demo.balance_lookup).
Proof. vm_compute. reflexivity. Qed.

Lemma execute_sell_balance_guard_witness :
  Spec.quotes_ask Demo.cfg "4990000"
    (snd (Jupiter.execute_sell Demo.cfg Demo.lib_int Demo.accepting_world
            Demo.wallet Demo.key44 Jupiter.USDC_MINT (Jupiter.SellInt 4999999) [])).
Proof.
  intros ev Hin Hev.
  destruct (execute_sell_balance_guard Demo.cfg Demo.lib_int Demo.accepting_world
              Demo.wallet Demo.key44 Jupiter.USDC_MINT (Jupiter.SellInt 4999999) []
              (Demo.prepared 4999999) Demo.balance_lookup
              sell_prepare_near_full_balance)
    as (s & evs & Hrun & _ & Hsent).
  rewrite Hrun in Hin. simpl in Hin.
  destruct (Hsent ltac:(simpl; lia) ev Hin Hev)
    as (p & min_balance & sent & Hp & Hmin & _ & Hsent' & _ & Hquote).
  injection Hp as <-.
  assert (min_balance = 10000) by (vm_compute in Hmin; congruence). subst min_balance.
  simpl in Hsent'. subst sent. exact Hquote.
Defined.

(** The same wallet asked for more than it holds: the message, and the
    balance lookup as the only requests. *)
Example execute_sell_insufficient_balance :
  Jupiter.execute_sell Demo.cfg Demo.lib_int Demo.accepting_world
    Demo.wallet Demo.key44 Jupiter.USDC_MINT (Jupiter.SellInt 6000000) []
  = (Ok "❌ Ошибка: Недостаточно токенов. Баланс: 0.000000, Запрошено: 0.000000",
     Demo.balance_lookup).
Proof. vm_compute. reflexivity. Qed.

(** A sale that goes through returns the explorer address. *)
Example execute_sell_success :
  fst (Jupiter.execute_sell Demo.cfg Demo.lib_int Demo.accepting_world
         Demo.wallet Demo.key44 Jupiter.USDC_MINT (Jupiter.SellInt 1000000) [])
  = Ok "https://solscan.io/tx/5sigABC".
Proof. vm_compute. reflexivity. Qed.

(** ** Amounts to smallest units and back *)

Lemma ndigits_fuel_bounds fuel : forall n,
  (0 < n)%N -> Z.of_N n < 2 ^ Z.of_nat fuel ->
  1 <= Dec.ndigits_fuel fuel n /\
  10 ^ (Dec.ndigits_fuel fuel n - 1) <= Z.of_N n < 10 ^ Dec.ndigits_fuel fuel n.
Proof.
  induction fuel as [|k IH]; intros n Hpos Hlt.
  - simpl in Hlt. lia.
  - simpl Dec.ndigits_fuel. destruct (n <? 10)%N eqn:Hsmall.
    + apply N.ltb_lt in Hsmall. simpl. lia.
    + apply N.ltb_ge in Hsmall.
      assert (Hq : Z.of_N (n / 10) = Z.of_N n / 10) by now rewrite N2Z.inj_div.
      assert (Hpow : 2 ^ Z.of_nat (S k) = 2 * 2 ^ Z.of_nat k).
      { rewrite Nat2Z.inj_succ, Z.pow_succ_r; lia. }
      destruct (IH (n / 10)%N) as (H1 & Hlo & Hhi).
      * apply N.div_str_pos. lia.
      * rewrite Hq. apply Z.div_lt_upper_bound; lia.
      * set (d := Dec.ndigits_fuel k (n / 10)) in *.
        split; [lia|].
        replace (1 + d - 1) with (Z.succ (d - 1)) by lia.
        replace (1 + d) with (Z.succ d) by lia.
        rewrite !Z.pow_succ_r by lia.
        rewrite Hq in Hlo, Hhi.
        pose proof (Z.mul_div_le (Z.of_N n) 10 ltac:(lia)).
        pose proof (Z.mul_succ_div_gt (Z.of_N n) 10 ltac:(lia)).
        lia.
Qed.

Lemma ndigits_bounds n :
  (0 < n)%N ->
  1 <= Dec.ndigits n /\ 10 ^ (Dec.ndigits n - 1) <= Z.of_N n < 10 ^ Dec.ndigits n.
Proof.
  intros Hpos. unfold Dec.ndigits. apply ndigits_fuel_bounds; [assumption|].
  destruct (N.log2_spec n Hpos) as [_ Hhi].
  rewrite Nat2Z.inj_succ, N_nat_Z.
  apply N2Z.inj_lt in Hhi. rewrite N2Z.inj_pow, N2Z.inj_succ in Hhi. exact Hhi.
Qed.

Lemma ndigits_unique n k :
  1 <= k -> 10 ^ (k - 1) <= Z.of_N n < 10 ^ k -> Dec.ndigits n = k.
Proof.
  intros Hk [Hlo Hhi].
  assert (Hpos : (0 < n)%N).
  { assert (0 < 10 ^ (k - 1)) by (apply Z.pow_pos_nonneg; lia). lia. }
  destruct (ndigits_bounds n Hpos) as (H1 & Hlo' & Hhi').
  set (d := Dec.ndigits n) in *.
  assert (d - 1 < k).
  { apply (Z.pow_lt_mono_r_iff 10); lia. }
  assert (k - 1 < d).
  { apply (Z.pow_lt_mono_r_iff 10); lia. }
  lia.
Qed.

Lemma ndigits_mul_pow10 c j :
  (0 < c)%N -> Dec.ndigits (c * 10 ^ j)%N = Dec.ndigits c + Z.of_N j.
Proof.
  intros Hpos. destruct (ndigits_bounds c Hpos) as (H1 & Hlo & Hhi).
  apply ndigits_unique; [lia|].
  rewrite N2Z.inj_mul, N2Z.inj_pow. simpl (Z.of_N 10).
  replace (Dec.ndigits c + Z.of_N j - 1) with ((Dec.ndigits c - 1) + Z.of_N j) by lia.
  rewrite !Z.pow_add_r by lia.
  assert (0 < 10 ^ Z.of_N j) by (apply Z.pow_pos_nonneg; lia).
  nia.
Qed.

Lemma ndigits_le c k :
  (0 < c)%N -> Z.of_N c < 10 ^ k -> Dec.ndigits c <= k.
Proof.
  intros Hpos Hlt. destruct (ndigits_bounds c Hpos) as (H1 & Hlo & Hhi).
  assert (0 <= k).
  { destruct (Z.neg_nonneg_cases k) as [Hneg|]; [|assumption].
    rewrite Z.pow_neg_r in Hlt by assumption. lia. }
  assert (Dec.ndigits c - 1 < k); [|lia].
  apply (Z.pow_lt_mono_r_iff 10); lia.
Qed.

(** floor (c * 10^x) *)
Lemma round_half_even_exact c j k :
  (k <= j)%N -> Dec.round_half_even (c * 10 ^ j)%N (Z.of_N k) = (c * 10 ^ (j - k))%N.
Proof.
  intros Hk. unfold Dec.round_half_even. rewrite N2Z.id.
  assert (Hsplit : (c * 10 ^ j = c * 10 ^ (j - k) * 10 ^ k)%N).
  { rewrite <- N.mul_assoc, <- N.pow_add_r. f_equal. f_equal. lia. }
  assert (Hp : (10 ^ k <> 0)%N) by (apply N.pow_nonzero; lia).
  rewrite Hsplit, N.div_mul, N.Div0.mod_mul by assumption.
  simpl (2 * 0)%N.
  destruct (10 ^ k)%N as [|p]; [congruence | reflexivity].
Qed.

Lemma of_int_pow10 d : Dec.of_int (10 ^ Z.of_N d) = Dec.Fin false (10 ^ d) 0.
Proof.
  unfold Dec.of_int.
  assert (0 < 10 ^ Z.of_N d) by (apply Z.pow_pos_nonneg; lia).
  replace (10 ^ Z.of_N d <? 0) with false by (symmetry; apply Z.ltb_ge; lia).
  f_equal. apply N2Z.inj. rewrite N2Z.inj_abs_N, N2Z.inj_pow. simpl (Z.of_N 10). lia.
Qed.

(** The digits the product has beyond the 28 of the context. *)
Lemma mul_pow10_exact c e d :
  (0 < c)%N -> Z.of_N c < 10 ^ 28 ->
  Dec.Emin <= e -> e + Z.of_N d <= Dec.Etop ->
  (Spec.excess c d <= d)%N /\
  Dec.mul (Dec.Fin false c e) (Dec.of_int (10 ^ Z.of_N d))
  = Ok (Dec.Fin false (c * 10 ^ (d - Spec.excess c d)) (e + Z.of_N (Spec.excess c d))).
Proof.
  intros Hpos Hc He Hed.
  destruct (ndigits_bounds c Hpos) as (H1 & _).
  pose proof (ndigits_le c 28 Hpos Hc) as H28.
  assert (Hex : (Spec.excess c d <= d)%N) by (unfold Spec.excess, Dec.prec; lia).
  split; [exact Hex|].
  rewrite of_int_pow10. unfold Dec.mul, Dec.fix_. simpl xorb.
  assert (Hnz : (c * 10 ^ d <> 0)%N).
  { apply N.neq_mul_0. split; [lia | apply N.pow_nonzero; lia]. }
  replace (c * 10 ^ d =? 0)%N with false by (symmetry; now apply N.eqb_neq).
  rewrite (ndigits_mul_pow10 c d Hpos), Z.add_0_r.
  unfold Dec.Etop, Dec.Etiny, Dec.Emin, Dec.Emax, Dec.prec in *.
  replace (Dec.ndigits c + Z.of_N d + e - 28 >? 999999 - 28 + 1) with false
    by (symmetry; rewrite Z.gtb_ltb; apply Z.ltb_ge; lia).
  replace (Z.max (Dec.ndigits c + Z.of_N d + e - 28) (-999999 - 28 + 1))
    with (Dec.ndigits c + Z.of_N d + e - 28) by lia.
  destruct (e <? Dec.ndigits c + Z.of_N d + e - 28) eqn:Hround.
  - apply Z.ltb_lt in Hround.
    assert (Hk : Dec.ndigits c + Z.of_N d + e - 28 - e = Z.of_N (Spec.excess c d))
      by (unfold Spec.excess, Dec.prec; lia).
    rewrite Hk, (round_half_even_exact c d (Spec.excess c d) Hex).
    assert (Hnd : Dec.ndigits (c * 10 ^ (d - Spec.excess c d))%N = 28).
    { rewrite (ndigits_mul_pow10 _ _ Hpos). unfold Spec.excess, Dec.prec. lia. }
    rewrite Hnd. replace (28 >? 28) with false by reflexivity. cbv beta iota.
    replace (Dec.ndigits c + Z.of_N d + e - 28 >? 999999 - 28 + 1) with false
      by (symmetry; rewrite Z.gtb_ltb; apply Z.ltb_ge; lia).
    do 2 f_equal. lia.
  - apply Z.ltb_ge in Hround.
    assert (Hzero : Spec.excess c d = 0%N) by (unfold Spec.excess, Dec.prec; lia).
    rewrite Hzero, N.sub_0_r. do 2 f_equal. simpl. lia.
Qed.

Lemma to_int_scaled c j x :
  Dec.to_int (Dec.Fin false (c * 10 ^ j) x) = Ok (Spec.floor_pow10 c (x + Z.of_N j)).
Proof.
  unfold Dec.to_int, Spec.floor_pow10. f_equal.
  rewrite N2Z.inj_mul, N2Z.inj_pow. simpl (Z.of_N 10).
  set (J := Z.of_N j). assert (0 <= J) by (unfold J; lia).
  destruct (x >=? 0) eqn:Hx.
  - apply Z.geb_le in Hx.
    replace (x + J >=? 0) with true by (symmetry; apply Z.geb_le; lia).
    rewrite Z.pow_add_r by lia. ring.
  - rewrite Z.geb_leb in Hx. apply Z.leb_gt in Hx.
    destruct (x + J >=? 0) eqn:Hxj.
    + apply Z.geb_le in Hxj.
      replace (10 ^ J) with (10 ^ (x + J) * 10 ^ (- x)).
      * rewrite Z.mul_assoc, Z.div_mul; [reflexivity|].
        apply Z.pow_nonzero; lia.
      * rewrite <- Z.pow_add_r by lia. f_equal. lia.
    + rewrite Z.geb_leb in Hxj. apply Z.leb_gt in Hxj.
      replace (10 ^ (- x)) with (10 ^ (- (x + J)) * 10 ^ J).
      * rewrite Z.div_mul_cancel_r; [reflexivity | |];
          apply Z.pow_nonzero; lia.
      * rewrite <- Z.pow_add_r by lia. f_equal. lia.
Qed.

Lemma to_lamports_floor lib amount decimals c e :
  Utils.decimal_of_amount lib amount = Ok (Dec.Fin false c e) ->
  (0 < c)%N -> Z.of_N c < 10 ^ 28 ->
  Dec.Emin <= e -> e + Z.of_N decimals <= Dec.Etop ->
  Utils.to_lamports lib amount decimals = Ok (Spec.floor_pow10 c (e + Z.of_N decimals)).
Proof.
  intros Hvalue Hpos Hc He Hed.
  unfold Utils.to_lamports, Utils.to_lamports_body. rewrite Hvalue.
  cbv beta iota delta [res_bind Dec.le_zero].
  replace (c =? 0)%N with false by (symmetry; apply N.eqb_neq; lia).
  cbv beta iota delta [orb].
  destruct (mul_pow10_exact c e decimals Hpos Hc He Hed) as (Hex & ->).
  rewrite to_int_scaled.
  do 2 f_equal. lia.
Qed.

Lemma strip_zeros_value steps : forall c e,
  let '(c', e') := Dec.strip_zeros steps c e in
  e <= e' <= e + Z.of_nat steps /\ c = (c' * 10 ^ Z.to_N (e' - e))%N.
Proof.
  induction steps as [|k IH]; intros c e.
  - simpl. split; [lia|]. rewrite Z.sub_diag. simpl. lia.
  - simpl Dec.strip_zeros. destruct (c mod 10 =? 0)%N eqn:Hmod.
    + apply N.eqb_eq in Hmod.
      specialize (IH (c / 10)%N (e + 1)).
      destruct (Dec.strip_zeros k (c / 10) (e + 1)) as [c' e'].
      destruct IH as ([Hlo Hhi] & Hval). split; [lia|].
      rewrite (N.div_mod c 10) by lia. rewrite Hmod, N.add_0_r, Hval.
      replace (Z.to_N (e' - e)) with (N.succ (Z.to_N (e' - (e + 1)))) by lia.
      rewrite N.pow_succ_r'. lia.
    + split; [lia|]. rewrite Z.sub_diag. simpl. lia.
Qed.

Lemma strip_zeros_pow10 j : forall steps x e,
  (j <= steps)%nat ->
  Dec.strip_zeros steps (x * 10 ^ N.of_nat j) e
  = Dec.strip_zeros (steps - j) x (e + Z.of_nat j).
Proof.
  induction j as [|j IH]; intros steps x e Hj.
  - simpl N.of_nat. rewrite N.pow_0_r, N.mul_1_r, Nat.sub_0_r, Z.add_0_r. reflexivity.
  - destruct steps as [|k]; [lia|].
    simpl Dec.strip_zeros.
    assert (Hsplit : (x * 10 ^ N.of_nat (S j) = x * 10 ^ N.of_nat j * 10)%N).
    { rewrite Nat2N.inj_succ, N.pow_succ_r'. lia. }
    rewrite Hsplit, N.Div0.mod_mul, N.div_mul by lia. simpl (0 =? 0)%N. cbv iota.
    rewrite IH by lia. f_equal. lia.
Qed.

Lemma div_eucl_pair a b : N.div_eucl a b = ((a / b)%N, (a mod b)%N).
Proof. unfold N.div, N.modulo. now destruct (N.div_eucl a b). Qed.

Lemma ndigits_pow10 d : Dec.ndigits (10 ^ d) = Z.of_N d + 1.
Proof.
  rewrite <- (N.mul_1_l (10 ^ d)), ndigits_mul_pow10 by lia.
  change (Dec.ndigits 1) with 1. lia.
Qed.

Lemma fix_small c e :
  (0 < c)%N -> Z.of_N c < 10 ^ 28 -> Dec.Etiny <= e <= 0 ->
  Dec.fix_ false c e = Ok (Dec.Fin false c e).
Proof.
  intros Hpos Hc He. unfold Dec.fix_.
  replace (c =? 0)%N with false by (symmetry; apply N.eqb_neq; lia).
  pose proof (ndigits_le c 28 Hpos Hc) as H28.
  unfold Dec.Etop, Dec.Etiny, Dec.Emin, Dec.Emax, Dec.prec in *.
  replace (Dec.ndigits c + e - 28 >? 999999 - 28 + 1) with false
    by (symmetry; rewrite Z.gtb_ltb; apply Z.ltb_ge; lia).
  replace (e <? Z.max (Dec.ndigits c + e - 28) (-999999 - 28 + 1)) with false
    by (symmetry; apply Z.ltb_ge; lia).
  reflexivity.
Qed.

Lemma div_pow10_exact raw d :
  0 <= raw < 10 ^ 28 -> Z.of_N d <= 1000026 ->
  exists c' e',
    Dec.div (Dec.of_int raw) (Dec.of_int (10 ^ Z.of_N d)) = Ok (Dec.Fin false c' e') /\
    - Z.of_N d <= e' <= 0 /\
    raw = Z.of_N c' * 10 ^ (e' + Z.of_N d).
Proof.
  intros [Hlo Hhi] Hd. rewrite of_int_pow10.
  unfold Dec.of_int.
  replace (raw <? 0) with false by (symmetry; apply Z.ltb_ge; lia).
  set (R := Z.abs_N raw). assert (HR : Z.of_N R = raw) by (unfold R; lia).
  unfold Dec.div. simpl xorb.
  assert (Hp : (10 ^ d <> 0)%N) by (apply N.pow_nonzero; lia).
  replace (10 ^ d =? 0)%N with false by (symmetry; now apply N.eqb_neq).
  destruct (R =? 0)%N eqn:Hzero.
  - apply N.eqb_eq in Hzero. exists 0%N, 0. split; [reflexivity|].
    split; [lia|]. lia.
  - apply N.eqb_neq in Hzero. assert (Hpos : (0 < R)%N) by lia.
    destruct (ndigits_bounds R Hpos) as (H1 & _).
    assert (H28 : Dec.ndigits R <= 28) by (apply ndigits_le; [assumption | lia]).
    rewrite ndigits_pow10. unfold Dec.prec.
    set (L := Dec.ndigits R) in *.
    set (shift := Z.of_N d + 1 - L + 28 + 1).
    assert (Hshift : Z.of_N d + 2 <= shift) by (unfold shift; lia).
    replace (shift >=? 0) with true by (symmetry; apply Z.geb_le; lia).
    set (j := Z.to_nat (30 - L)).
    assert (Hsplit : (R * 10 ^ Z.to_N shift = R * 10 ^ N.of_nat j * 10 ^ d)%N).
    { rewrite <- N.mul_assoc, <- N.pow_add_r. do 2 f_equal. unfold j, shift. lia. }
    rewrite div_eucl_pair, Hsplit, N.div_mul, N.Div0.mod_mul by assumption.
    simpl (0 =? 0)%N. cbv iota.
    rewrite strip_zeros_pow10 by (unfold j, shift; lia).
    pose proof (strip_zeros_value (Z.to_nat (0 - 0 - (0 - 0 - shift)) - j) R
                  (0 - 0 - shift + Z.of_nat j)) as Hstrip.
    destruct (Dec.strip_zeros _ R _) as [c' e'].
    destruct Hstrip as ([He1 He2] & Hval).
    assert (Hbase : 0 - 0 - shift + Z.of_nat j = - Z.of_N d) by (unfold j, shift; lia).
    rewrite Hbase in *.
    assert (He3 : e' <= 0) by (unfold j, shift in *; lia).
    assert (Hc'pos : (0 < c')%N).
    { destruct c'; [|lia]. rewrite N.mul_0_l in Hval. lia. }
    assert (Hpow : 0 < 10 ^ (e' + Z.of_N d)) by (apply Z.pow_pos_nonneg; lia).
    assert (Hraw : raw = Z.of_N c' * 10 ^ (e' + Z.of_N d)).
    { rewrite <- HR, Hval, N2Z.inj_mul, N2Z.inj_pow. simpl (Z.of_N 10).
      do 2 f_equal. lia. }
    exists c', e'. split; [|split; [lia | exact Hraw]].
    apply fix_small; [assumption | nia | unfold Dec.Etiny, Dec.Emin, Dec.prec; lia].
Qed.

Open Scope Q_scope.

Lemma floor_to_unit (raw : Z) (P : positive) (qa : Q) :
  inject_Z raw <= qa * inject_Z (Zpos P) ->
  qa * inject_Z (Zpos P) < inject_Z raw + 1 ->
  qa - (1 # P) < raw # P /\ raw # P <= qa.
Proof.
  destruct qa as [n m].
  unfold Qle, Qlt, Qminus, Qplus, Qopp, Qmult, inject_Z. simpl.
  rewrite ?Pos2Z.inj_mul, ?Z.mul_1_r.
  intros H1 H2. split; nia.
Qed.

Close Scope Q_scope.

Lemma floor_pow10_is_floor c e d qa :
  Dec.to_Q (Dec.Fin false c e) = Some qa ->
  (inject_Z (Spec.floor_pow10 c (e + Z.of_N d)) <= qa * inject_Z (10 ^ Z.of_N d))%Q /\
  (qa * inject_Z (10 ^ Z.of_N d) < inject_Z (Spec.floor_pow10 c (e + Z.of_N d)) + 1)%Q.
Proof.
  intros Hqa. simpl in Hqa. injection Hqa as <-.
  set (D := Z.of_N d). assert (HD : 0 <= D) by (unfold D; lia).
  assert (HP : 0 < 10 ^ D) by (apply Z.pow_pos_nonneg; lia).
  unfold Spec.floor_pow10.
  destruct (e >=? 0) eqn:He.
  - apply Z.geb_le in He.
    replace (e + D >=? 0) with true by (symmetry; apply Z.geb_le; lia).
    unfold Qle, Qlt, Qplus, Qmult, inject_Z. simpl.
    rewrite ?Z.mul_1_r, Z.pow_add_r by lia. lia.
  - rewrite Z.geb_leb in He. apply Z.leb_gt in He.
    assert (Hden : 0 < 10 ^ (- e)) by (apply Z.pow_pos_nonneg; lia).
    unfold Qle, Qlt, Qplus, Qmult, inject_Z. simpl.
    rewrite ?Pos2Z.inj_mul, ?Z.mul_1_r, Z2Pos.id by assumption.
    destruct (e + D >=? 0) eqn:Hed.
    + apply Z.geb_le in Hed.
      assert (Hsplit : 10 ^ D = 10 ^ (e + D) * 10 ^ (- e)).
      { rewrite <- Z.pow_add_r by lia. f_equal. lia. }
      rewrite Hsplit. nia.
    + rewrite Z.geb_leb in Hed. apply Z.leb_gt in Hed.
      assert (HM : 0 < 10 ^ (- (e + D))) by (apply Z.pow_pos_nonneg; lia).
      assert (Hsplit : 10 ^ (- e) = 10 ^ D * 10 ^ (- (e + D))).
      { rewrite <- Z.pow_add_r by lia. f_equal. lia. }
      rewrite Hsplit.
      pose proof (Z.mul_div_le (Z.of_N c) _ HM).
      pose proof (Z.mul_succ_div_gt (Z.of_N c) _ HM).
      nia.
Qed.

Lemma floor_pow10_nonneg c x : 0 <= Spec.floor_pow10 c x.
Proof.
  unfold Spec.floor_pow10. destruct (x >=? 0) eqn:Hx.
  - apply Z.geb_le in Hx. assert (0 < 10 ^ x) by (apply Z.pow_pos_nonneg; lia). nia.
  - rewrite Z.geb_leb in Hx. apply Z.leb_gt in Hx.
    apply Z.div_pos; [lia | apply Z.pow_pos_nonneg; lia].
Qed.

Lemma floor_pow10_small c x :
  (0 < c)%N -> Spec.floor_pow10 c x < 10 ^ 28 -> x < 28.
Proof.
  intros Hpos Hlt. destruct (Z.lt_ge_cases x 28) as [|Hge]; [assumption|].
  unfold Spec.floor_pow10 in Hlt.
  replace (x >=? 0) with true in Hlt by (symmetry; apply Z.geb_le; lia).
  assert (10 ^ 28 <= 10 ^ x) by (apply Z.pow_le_mono_r; lia).
  nia.
Qed.

Lemma quotient_value c' e' raw d :
  - Z.of_N d <= e' <= 0 ->
  raw = Z.of_N c' * 10 ^ (e' + Z.of_N d) ->
  exists qq, Dec.to_Q (Dec.Fin false c' e') = Some qq /\
             (qq == raw # Z.to_pos (10 ^ Z.of_N d))%Q.
Proof.
  intros [Hlo Hhi] Hraw. eexists. split; [reflexivity|].
  set (D := Z.of_N d) in *.
  assert (HP : 0 < 10 ^ D) by (apply Z.pow_pos_nonneg; lia).
  destruct (e' >=? 0) eqn:He.
  - apply Z.geb_le in He. assert (e' = 0) by lia. subst e'.
    unfold Qeq, inject_Z. simpl Qnum. simpl Qden.
    rewrite Z2Pos.id by assumption. rewrite Hraw.
    rewrite Z.add_0_l, Z.pow_0_r. ring.
  - rewrite Z.geb_leb in He. apply Z.leb_gt in He.
    assert (Hden : 0 < 10 ^ (- e')) by (apply Z.pow_pos_nonneg; lia).
    unfold Qeq. simpl Qnum. simpl Qden.
    rewrite !Z2Pos.id by assumption. rewrite Hraw.
    replace (10 ^ D) with (10 ^ (e' + D) * 10 ^ (- e')).
    + ring.
    + rewrite <- Z.pow_add_r by lia. f_equal. lia.
Qed.

(** C5 (as amended): for a positive amount of at most 28 significant
    digits, of exponent not below [Emin], whose raw amount stays below
    [10 ^ 28],
    [to_lamports] returns exactly the floor of the amount times
    [10 ^ decimals]; the decimal quotient that [from_lamports] forms from
    it is exactly [raw / 10 ^ decimals] and lies within one smallest unit
    below the amount.  What [from_lamports] returns is that quotient
    converted to a binary64 float. *)
Theorem to_lamports_from_lamports_round_trip (lib : Lib) (amount : Utils.amount_arg)
    (decimals : N) (c : N) (e : Z) :
  Utils.decimal_of_amount lib amount = Ok (Dec.Fin false c e) ->
  (0 < c)%N -> Z.of_N c < 10 ^ 28 ->
  Dec.Emin <= e ->
  Spec.floor_pow10 c (e + Z.of_N decimals) < 10 ^ 28 ->
  exists raw quotient qa qq,
    Utils.to_lamports lib amount decimals = Ok raw /\
    raw = Spec.floor_pow10 c (e + Z.of_N decimals) /\
    Dec.to_Q (Dec.Fin false c e) = Some qa /\
    (inject_Z raw <= qa * inject_Z (10 ^ Z.of_N decimals))%Q /\
    (qa * inject_Z (10 ^ Z.of_N decimals) < inject_Z raw + 1)%Q /\
    Dec.div (Dec.of_int raw) (Dec.of_int (10 ^ Z.of_N decimals)) = Ok quotient /\
    Utils.from_lamports raw decimals = Ok (Dec.to_float quotient) /\
    Dec.to_Q quotient = Some qq /\
    (qq == inject_Z raw * Spec.smallest_unit decimals)%Q /\
    (qa - Spec.smallest_unit decimals < qq)%Q /\ (qq <= qa)%Q.
Proof.
  intros Hvalue Hpos Hc He Hraw.
  pose proof (floor_pow10_small c _ Hpos Hraw) as Hsmall.
  pose proof (floor_pow10_nonneg c (e + Z.of_N decimals)) as Hnonneg.
  set (raw := Spec.floor_pow10 c (e + Z.of_N decimals)) in *.
  assert (Hd : Z.of_N decimals <= 1000026) by (unfold Dec.Emin in He; lia).
  destruct (div_pow10_exact raw decimals (conj Hnonneg Hraw) Hd)
    as (c' & e' & Hdiv & Hrange & Hval).
  destruct (quotient_value c' e' raw decimals Hrange Hval) as (qq & Hqq & Heq).
  destruct (floor_pow10_is_floor c e decimals _ eq_refl) as [Hfloor1 Hfloor2].
  fold raw in Hfloor1, Hfloor2.
  assert (HP : 0 < 10 ^ Z.of_N decimals) by (apply Z.pow_pos_nonneg; lia).
  exists raw, (Dec.Fin false c' e'). eexists. exists qq.
  split.
  { apply to_lamports_floor; try assumption. unfold Dec.Etop, Dec.Emax, Dec.prec. lia. }
  split; [reflexivity|]. split; [reflexivity|].
  split; [exact Hfloor1|]. split; [exact Hfloor2|]. split; [exact Hdiv|].
  split.
  { unfold Utils.from_lamports, Utils.from_lamports_body.
    replace (raw <? 0) with false by (symmetry; apply Z.ltb_ge; lia).
    rewrite Hdiv. reflexivity. }
  split; [exact Hqq|].
  split.
  { rewrite Heq. unfold Spec.smallest_unit, Qeq, Qmult, inject_Z. simpl. lia. }
  rewrite Heq.
  apply floor_to_unit; rewrite Z2Pos.id by assumption; assumption.
Qed.

(** One and a half tokens at nine decimals. *)
Lemma to_lamports_from_lamports_round_trip_witness :
  exists raw quotient qa qq,
    Utils.to_lamports Demo.lib (Utils.AmtDecimal (Dec.Fin false 15 (-1))) 9 = Ok raw /\
    raw = Spec.floor_pow10 15 (-1 + Z.of_N 9) /\
    Dec.to_Q (Dec.Fin false 15 (-1)) = Some qa /\
    (inject_Z raw <= qa * inject_Z (10 ^ Z.of_N 9))%Q /\
    (qa * inject_Z (10 ^ Z.of_N 9) < inject_Z raw + 1)%Q /\
    Dec.div (Dec.of_int raw) (Dec.of_int (10 ^ Z.of_N 9)) = Ok quotient /\
    Utils.from_lamports raw 9 = Ok (Dec.to_float quotient) /\
    Dec.to_Q quotient = Some qq /\
    (qq == inject_Z raw * Spec.smallest_unit 9)%Q /\
    (qa - Spec.smallest_unit 9 < qq)%Q /\ (qq <= qa)%Q.
Proof.
  apply (to_lamports_from_lamports_round_trip
           Demo.lib (Utils.AmtDecimal (Dec.Fin false 15 (-1))) 9 15 (-1)).
  - reflexivity.
  - reflexivity.
  - reflexivity.
  - unfold Dec.Emin. lia.
  - vm_compute. reflexivity.
Defined.

(** One hundred million tokens and two smallest units come back as one
    hundred million tokens: the float nearest to the exact quotient is two
    units away from the amount.  This is the point where claim C5 as
    stated fails. *)
Lemma round_trip_loses_two_units :
  ~ Spec.round_trip_within_one_unit Demo.lib Demo.hundred_million_and_two_units 9.
Proof.
  intros (err & Herr & Hle).
  vm_compute in Herr. injection Herr as <-.
  vm_compute in Hle. apply Hle. reflexivity.
Qed.

(** The same amount run through the two functions. *)
Example round_trip_hundred_million :
  Utils.to_lamports Demo.lib Demo.hundred_million_and_two_units 9
    = Ok 100000000000000002 /\
  Utils.from_lamports 100000000000000002 9
    = Ok (S754_finite false 6710886400000000 (-26)) /\
  6710886400000000 = 100000000 * 2 ^ 26.
Proof. vm_compute. repeat split. Qed.

(** Beyond 28 significant digits the product is rounded before it is cut
    down: an amount below one token gives one unit at zero decimals. *)
Example to_lamports_rounds_long_amounts :
  Utils.to_lamports Demo.lib Demo.just_below_one 0 = Ok 1 /\
  Spec.floor_pow10 99999999999999999999999999999 (-29 + Z.of_N 0) = 0.
Proof. vm_compute. split; reflexivity. Qed.

(** * Further properties of the sources *)

(** ** Retry loops *)

Lemma rate_limited_loop w tx m remaining :
  Law.always_rate_limited w tx ->
  forall attempt h,
  SolanaClient.send_loop w tx m remaining attempt h
  = (Ok PNone, h ++ Law.rate_limited_trace tx remaining attempt).
Proof.
  intros Hw. induction remaining as [|k IH]; intros attempt h.
  - simpl. unfold ret. now rewrite app_nil_r.
  - destruct (Hw h) as (e & He & Hlimit).
    rewrite send_loop_step, (send_attempt_rate_limited w tx m attempt h e He Hlimit).
    rewrite IH. simpl. now rewrite <- app_assoc.
Qed.

Lemma rate_limited_trace_submissions tx remaining :
  forall attempt,
  Spec.submissions (Law.rate_limited_trace tx remaining attempt) = remaining.
Proof.
  unfold Spec.submissions.
  induction remaining as [|k IH]; intros attempt; simpl; [reflexivity|].
  now rewrite IH.
Qed.

Lemma rate_limited_trace_seconds tx remaining :
  forall attempt,
  Law.seconds_slept (Law.rate_limited_trace tx remaining attempt)
  = Z.of_nat remaining * (2 * attempt + Z.of_nat remaining + 1).
Proof.
  induction remaining as [|k IH]; intros attempt; [reflexivity|].
  cbn [Law.rate_limited_trace Law.seconds_slept]. rewrite IH. lia.
Qed.

(** X1: against a node that answers every submission with a rate-limit
    error, [send_transaction_with_retry] submits [max_retries] times,
    pauses [2 * k] seconds after the [k]-th submission, and then returns
    [None]: it does not raise. *)
Theorem send_transaction_rate_limited_returns_none (w : World) (tx_bytes : string)
    (max_retries : Z) (h : history) :
  Law.always_rate_limited w tx_bytes ->
  exists evs,
    SolanaClient.send_transaction_with_retry w tx_bytes max_retries h
    = (Ok PNone, h ++ evs) /\
    evs = Law.rate_limited_trace tx_bytes (Z.to_nat max_retries) 0 /\
    Spec.submissions evs = Z.to_nat max_retries /\
    Law.seconds_slept evs = Z.of_nat (Z.to_nat max_retries) * (Z.of_nat (Z.to_nat max_retries) + 1).
Proof.
  intros Hw. eexists. split; [|split; [reflexivity|split]].
  - unfold SolanaClient.send_transaction_with_retry. now apply rate_limited_loop.
  - apply rate_limited_trace_submissions.
  - rewrite rate_limited_trace_seconds. lia.
Qed.

Lemma send_transaction_rate_limited_returns_none_witness :
  exists evs,
    SolanaClient.send_transaction_with_retry
      (Demo.refusing_world "HTTP 429 Too Many Requests") "wire" 3 []
    = (Ok PNone, [] ++ evs) /\
    evs = Law.rate_limited_trace "wire" (Z.to_nat 3) 0 /\
    Spec.submissions evs = Z.to_nat 3 /\
    Law.seconds_slept evs = Z.of_nat (Z.to_nat 3) * (Z.of_nat (Z.to_nat 3) + 1).
Proof.
  apply (send_transaction_rate_limited_returns_none
           (Demo.refusing_world "HTTP 429 Too Many Requests") "wire" 3 []).
  intros h. eexists. split; reflexivity.
Defined.
(** One blockhash request: a well-formed reply ends the loop, anything
    else pauses for a second while an attempt is left and raises the
    fixed error otherwise. *)
Lemma blockhash_attempt_run lib w m attempt h :
  (exists blockhash,
     Law.blockhash_reply w h blockhash /\
     Jupiter.blockhash_attempt lib w m attempt h
     = (Ok (Return (PStr (py_str lib blockhash))), h ++ [Rpc GetLatestBlockhash])) \/
  ((forall blockhash, ~ Law.blockhash_reply w h blockhash) /\
   Jupiter.blockhash_attempt lib w m attempt h
   = if attempt <? m - 1
     then (Ok (Next tt), h ++ [Rpc GetLatestBlockhash; Sleep 1])
     else (Raise (Law.blockhash_failed m), h ++ [Rpc GetLatestBlockhash])).
Proof.
  unfold Jupiter.blockhash_attempt, Law.blockhash_reply, try_catch, bind, rpc_call,
    ret, throw, sleep.
  destruct (rpc w h GetLatestBlockhash) as [response|e] eqn:Hrpc.
  - destruct (Val.getattr response "value") as [value|e] eqn:Hvalue.
    + destruct (Val.getattr value "blockhash") as [blockhash|e] eqn:Hhash.
      * left. exists blockhash. split; [|reflexivity]. eauto.
      * right. split.
        { intros b (r0 & v0 & Hr & Hv & Hb). congruence. }
        destruct (attempt <? m - 1); [now rewrite app_two | reflexivity].
    + right. split.
      { intros b (r0 & v0 & Hr & Hv & Hb). congruence. }
      destruct (attempt <? m - 1); [now rewrite app_two | reflexivity].
  - right. split.
    { intros b (r0 & v0 & Hr & Hv & Hb). congruence. }
    destruct (attempt <? m - 1); [now rewrite app_two | reflexivity].
Qed.

Lemma blockhash_loop_run lib w m remaining :
  forall attempt h,
  Z.of_nat remaining = m - attempt -> (0 < remaining)%nat ->
  exists n,
    (n < remaining)%nat /\
    snd (Jupiter.blockhash_loop lib w m remaining attempt h)
    = h ++ Law.failed_blockhash_attempts n ++ [Rpc GetLatestBlockhash] /\
    (forall j blockhash, (j < n)%nat ->
       ~ Law.blockhash_reply w (h ++ Law.failed_blockhash_attempts j) blockhash) /\
    match fst (Jupiter.blockhash_loop lib w m remaining attempt h) with
    | Ok v =>
        exists blockhash,
          Law.blockhash_reply w (h ++ Law.failed_blockhash_attempts n) blockhash /\
          v = PStr (py_str lib blockhash)
    | Raise e =>
        S n = remaining /\
        (forall blockhash,
           ~ Law.blockhash_reply w (h ++ Law.failed_blockhash_attempts n) blockhash) /\
        e = Law.blockhash_failed m
    end.
Proof.
  induction remaining as [|k IH]; intros attempt h Hrem Hpos; [lia|].
  cbn [Jupiter.blockhash_loop]. unfold bind.
  destruct (blockhash_attempt_run lib w m attempt h)
    as [(blockhash & Hreply & ->) | (Hbad & ->)].
  - exists 0%nat. simpl. rewrite app_nil_r. unfold ret. simpl.
    repeat split; [lia | intros; lia | eauto].
  - destruct (attempt <? m - 1) eqn:Hlast.
    + apply Z.ltb_lt in Hlast.
      destruct (IH (attempt + 1) (h ++ [Rpc GetLatestBlockhash; Sleep 1]))
        as (n & Hn & Hsnd & Hfailed & Hres); [lia | lia |].
      exists (S n). split; [lia|]. split; [|split].
      * rewrite Hsnd. simpl. now rewrite <- !app_assoc.
      * intros [|j] b Hj; simpl.
        { rewrite app_nil_r. apply Hbad. }
        specialize (Hfailed j b ltac:(lia)).
        rewrite <- app_assoc in Hfailed. exact Hfailed.
      * destruct (fst (Jupiter.blockhash_loop lib w m k (attempt + 1)
                         (h ++ [Rpc GetLatestBlockhash; Sleep 1]))) as [v|e].
        { destruct Hres as (b & Hb & ->). exists b. split; [|reflexivity].
          simpl. rewrite <- app_assoc in Hb. exact Hb. }
        { destruct Hres as (Hk & Hb & ->). split; [lia|]. split; [|reflexivity].
          intros b. simpl. specialize (Hb b). rewrite <- app_assoc in Hb. exact Hb. }
    + apply Z.ltb_ge in Hlast.
      exists 0%nat. simpl. rewrite app_nil_r.
      repeat split; [lia | intros; lia | lia | exact Hbad].
Qed.

(** X2: [get_blockhash_with_retry] asks for the blockhash at most
    [max_retries] times, pausing one second after each failed request
    but the last.  It returns the blockhash of the first well-formed
    reply as text; when the last request allowed fails too it raises the
    fixed error naming [max_retries].  With [max_retries >= 1] it never
    returns [None]. *)
Theorem get_blockhash_with_retry_policy (lib : Lib) (w : World) (max_retries : Z)
    (h : history) :
  0 < max_retries ->
  exists n,
    Z.of_nat n < max_retries /\
    snd (Jupiter.get_blockhash_with_retry lib w max_retries h)
    = h ++ Law.failed_blockhash_attempts n ++ [Rpc GetLatestBlockhash] /\
    (forall j blockhash, (j < n)%nat ->
       ~ Law.blockhash_reply w (h ++ Law.failed_blockhash_attempts j) blockhash) /\
    match fst (Jupiter.get_blockhash_with_retry lib w max_retries h) with
    | Ok v =>
        exists blockhash,
          Law.blockhash_reply w (h ++ Law.failed_blockhash_attempts n) blockhash /\
          v = PStr (py_str lib blockhash)
    | Raise e =>
        Z.of_nat n = max_retries - 1 /\
        (forall blockhash,
           ~ Law.blockhash_reply w (h ++ Law.failed_blockhash_attempts n) blockhash) /\
        e = Law.blockhash_failed max_retries
    end.
Proof.
  intros Hm. unfold Jupiter.get_blockhash_with_retry.
  destruct (blockhash_loop_run lib w max_retries (Z.to_nat max_retries) 0 h)
    as (n & Hn & Hsnd & Hfailed & Hres); [lia | lia |].
  exists n. split; [lia|]. split; [exact Hsnd|]. split; [exact Hfailed|].
  destruct (fst (Jupiter.blockhash_loop lib w max_retries (Z.to_nat max_retries) 0 h)).
  - exact Hres.
  - destruct Hres as (Hk & Hb & ->). split; [lia|]. split; [exact Hb|reflexivity].
Qed.

(** ** The swap protocol ([perform_swap] and its three steps) *)

Lemma each_app (P : history -> event -> Prop) (a : list event) :
  forall h b, Law.each P h (a ++ b) <-> Law.each P h a /\ Law.each P (h ++ a) b.
Proof.
  induction a as [|ev a IH]; intros h b; simpl.
  - rewrite app_nil_r. tauto.
  - rewrite IH, <- app_assoc. simpl. tauto.
Qed.

Lemma each_impl (P Q : history -> event -> Prop) (evs : list event) :
  forall h, (forall h0 ev, P h0 ev -> Q h0 ev) -> Law.each P h evs -> Law.each Q h evs.
Proof.
  induction evs as [|ev evs IH]; intros h HPQ; simpl; [tauto|].
  intros [Hev Hrest]. split; [now apply HPQ | now apply IH].
Qed.

(** [_get_quote] never raises; it sends at most the one quote request,
    and what it returns other than [None] is the quote received. *)
Lemma get_quote_exact cfg lib w input_mint output_mint amount slippage h :
  exists v evs,
    Jupiter._get_quote cfg lib w input_mint output_mint amount slippage h
    = (Ok v, h ++ evs) /\
    ((evs = [] /\ v = PNone) \/
     exists bps,
       Jupiter.slippage_bps slippage = Ok bps /\
       evs = [Http (Law.direct_quote_request cfg input_mint output_mint amount bps)] /\
       (truthy v = true ->
        Law.quote_received w h
          (Law.direct_quote_request cfg input_mint output_mint amount bps) v)).
Proof.
  unfold Jupiter._get_quote, try_catch, bind, lift, http_call, ret, throw.
  destruct (Jupiter.slippage_bps slippage) as [bps|e].
  2:{ exists PNone, []. split; [now rewrite app_nil_r | now left]. }
  fold (Law.direct_quote_request cfg input_mint output_mint amount bps).
  set (q := Law.direct_quote_request cfg input_mint output_mint amount bps).
  assert (Hnone : exists v evs,
             (Ok PNone : res pyval, h ++ [Http q]) = (Ok v, h ++ evs) /\
             ((evs = [] /\ v = PNone) \/
              exists bps0,
                Ok bps = Ok bps0 /\
                evs = [Http (Law.direct_quote_request cfg input_mint output_mint
                               amount bps0)] /\
                (truthy v = true ->
                 Law.quote_received w h
                   (Law.direct_quote_request cfg input_mint output_mint amount bps0) v))).
  { exists PNone, [Http q]. split; [reflexivity|]. right. exists bps.
    split; [reflexivity|]. split; [reflexivity|]. discriminate. }
  destruct (http w h q) as [reply|e] eqn:Hhttp; [|exact Hnone].
  destruct (status reply =? 200) eqn:Hstatus; simpl.
  - apply Z.eqb_eq in Hstatus.
    destruct (json reply) as [data|e] eqn:Hjson; [|exact Hnone].
    destruct (Val.contains "error" data) as [[|]|e] eqn:Herror; [| |exact Hnone].
    + destruct (Val.getitem data "error"); exact Hnone.
    + destruct (Jupiter.log_platform_fee data); [|exact Hnone].
      exists data, [Http q]. split; [reflexivity|]. right. exists bps.
      split; [reflexivity|]. split; [reflexivity|].
      intros Htruthy. exists reply. auto.
  - destruct (json reply) as [data|e]; [|exact Hnone].
    destruct (Val.get data "error" (PStr "Unknown error")); exact Hnone.
Qed.

(** [_get_swap_transaction] never raises and sends the one swap-build
    request; what it returns other than [None] is the transaction of the
    reply, of at least 100 characters or items. *)
Lemma get_swap_transaction_exact cfg lib w user_wallet_address quote_data h :
  exists v,
    Jupiter._get_swap_transaction cfg lib w user_wallet_address quote_data h
    = (Ok v, h ++ [Http (Law.swap_build_request cfg user_wallet_address quote_data)]) /\
    (truthy v = true ->
     exists reply swap_data n,
       http w h (Law.swap_build_request cfg user_wallet_address quote_data) = Ok reply /\
       status reply = 200 /\ json reply = Ok swap_data /\
       Val.contains "error" swap_data = Ok false /\
       Val.get swap_data "swapTransaction" PNone = Ok v /\
       Val.len v = Ok n /\ 100 <= n).
Proof.
  unfold Jupiter._get_swap_transaction, try_catch, bind, lift, http_call, ret, throw.
  fold (Law.swap_build_request cfg user_wallet_address quote_data).
  set (b := Law.swap_build_request cfg user_wallet_address quote_data).
  assert (Hnone : exists v,
             (Ok PNone : res pyval, h ++ [Http b]) = (Ok v, h ++ [Http b]) /\
             (truthy v = true ->
              exists reply swap_data n,
                http w h b = Ok reply /\
                status reply = 200 /\ json reply = Ok swap_data /\
                Val.contains "error" swap_data = Ok false /\
                Val.get swap_data "swapTransaction" PNone = Ok v /\
                Val.len v = Ok n /\ 100 <= n)).
  { exists PNone. split; [reflexivity | discriminate]. }
  destruct (http w h b) as [resp|e] eqn:Hhttp.
  2:{ destruct Hnone as (v & Heq & Hv). exists v. split; [exact Heq|].
      intros Ht. destruct (Hv Ht) as (? & ? & ? & ? & _). discriminate. }
  assert (Hnone' : exists v,
             (Ok PNone : res pyval, h ++ [Http b]) = (Ok v, h ++ [Http b]) /\
             (truthy v = true ->
              exists reply swap_data n,
                Ok resp = Ok reply /\
                status reply = 200 /\ json reply = Ok swap_data /\
                Val.contains "error" swap_data = Ok false /\
                Val.get swap_data "swapTransaction" PNone = Ok v /\
                Val.len v = Ok n /\ 100 <= n)).
  { exists PNone. split; [reflexivity | discriminate]. }
  clear Hnone.
  destruct (status resp =? 200) eqn:Hstatus; simpl; [|exact Hnone'].
  apply Z.eqb_eq in Hstatus.
  destruct (json resp) as [swap_data|e] eqn:Hjson; [|exact Hnone'].
  destruct (Val.contains "error" swap_data) as [[|]|e] eqn:Herror; [| |exact Hnone'].
  - destruct (Val.getitem swap_data "error"); exact Hnone'.
  - destruct (Val.get swap_data "swapTransaction" PNone) as [tx_b64|e] eqn:Htx;
      [|exact Hnone'].
    destruct (negb (truthy tx_b64)); [exact Hnone'|].
    destruct (Val.len tx_b64) as [n|e] eqn:Hlen; [|exact Hnone'].
    destruct (n <? 100) eqn:Hn; [exact Hnone'|].
    apply Z.ltb_ge in Hn.
    exists tx_b64. split; [reflexivity|]. intros _.
    exists resp, swap_data, n. auto 10.
Qed.

(** [_send_swap_transaction] never raises; it submits only a text it
    could decode, signed with the caller's key; after an accepted
    submission it pauses two seconds, asks for the status once and
    returns the signature of the submission reply. *)
Lemma send_swap_transaction_exact lib w swap_transaction user_private_key h :
  exists v evs,
    Jupiter._send_swap_transaction lib w swap_transaction user_private_key h
    = (Ok v, h ++ evs) /\
    ((evs = [] /\ v = PNone) \/
     exists tx_b64 wire,
       swap_transaction = PStr tx_b64 /\
       Law.signed_by lib user_private_key tx_b64 wire /\
       ((exists e, rpc w h (SendRawTransaction wire) = Raise e /\
                   evs = [Rpc (SendRawTransaction wire)] /\ v = PNone) \/
        exists tx_sig,
          rpc w h (SendRawTransaction wire) = Ok tx_sig /\
          v = PStr (Jupiter.signature_of_reply lib tx_sig) /\
          evs = [Rpc (SendRawTransaction wire); Sleep 2;
                 Rpc (GetSignatureStatuses [Jupiter.signature_of_reply lib tx_sig])])).
Proof.
  unfold Jupiter._send_swap_transaction, try_catch, bind, lift, rpc_call, ret,
    throw, sleep.
  destruct swap_transaction as [| | |tx_b64| | |];
    try (exists PNone, []; split; [now rewrite app_nil_r | now left]).
  destruct (deserialize_transaction lib tx_b64) as [tx|e] eqn:Htx;
    [|exists PNone, []; split; [now rewrite app_nil_r | now left]].
  destruct (b58decode lib (Jupiter.signing_key lib user_private_key))
    as [bytes|e] eqn:Hbytes;
    [|exists PNone, []; split; [now rewrite app_nil_r | now left]].
  destruct (keypair_from_secret lib bytes) as [wallet|e] eqn:Hwallet;
    [|exists PNone, []; split; [now rewrite app_nil_r | now left]].
  destruct (sign_and_serialize lib tx wallet) as [wire|e] eqn:Hwire;
    [|exists PNone, []; split; [now rewrite app_nil_r | now left]].
  assert (Hsigned : Law.signed_by lib user_private_key tx_b64 wire).
  { exists tx, bytes, wallet. auto. }
  destruct (rpc w h (SendRawTransaction wire)) as [tx_sig|e] eqn:Hrpc.
  - exists (PStr (Jupiter.signature_of_reply lib tx_sig)).
    exists [Rpc (SendRawTransaction wire); Sleep 2;
            Rpc (GetSignatureStatuses [Jupiter.signature_of_reply lib tx_sig])].
    split.
    + destruct (rpc w _ (GetSignatureStatuses _)); repeat rewrite <- app_assoc;
        reflexivity.
    + right. exists tx_b64, wire. split; [reflexivity|]. split; [exact Hsigned|].
      right. exists tx_sig. auto.
  - exists PNone, [Rpc (SendRawTransaction wire)]. split; [reflexivity|].
    right. exists tx_b64, wire. split; [reflexivity|]. split; [exact Hsigned|].
    left. exists e. auto.
Qed.
Lemma retry_or_raise_protocol (P : history -> event -> Prop) m attempt msg h :
  (forall h0, P h0 (Sleep 1)) ->
  exists r evs,
    Jupiter.retry_or_raise m attempt msg h = (r, h ++ evs) /\
    Law.each P h evs /\ (forall v, r <> Ok (Return v)) /\
    (forall u, r = Ok (Next u) -> attempt < m - 1).
Proof.
  intros Hpause. unfold Jupiter.retry_or_raise, bind, sleep, ret, throw.
  destruct (attempt <? m - 1) eqn:Hlast.
  - apply Z.ltb_lt in Hlast.
    exists (Ok (Next tt)), [Sleep 1]. simpl.
    split; [reflexivity|]. split; [split; [apply Hpause | exact I]|].
    split; [discriminate | intros; exact Hlast].
  - eexists _, []. rewrite app_nil_r. simpl.
    split; [reflexivity|]. split; [exact I|]. split; discriminate.
Qed.

Lemma swap_attempt_protocol cfg lib w input_mint output_mint amount wallet key
    slippage m attempt h :
  exists r evs,
    Jupiter.swap_attempt cfg lib w input_mint output_mint amount wallet key
      slippage m attempt h = (r, h ++ evs) /\
    Law.each (Law.swap_step cfg lib w input_mint output_mint amount wallet key slippage)
      h evs /\
    (forall v, r = Ok (Return v) -> Law.returned_by_node lib w (h ++ evs) v) /\
    (forall u, r = Ok (Next u) -> attempt < m - 1).
Proof.
  set (P := Law.swap_step cfg lib w input_mint output_mint amount wallet key slippage).
  assert (Hpause : forall h0, P h0 (Sleep 1)) by (intros; apply Law.step_pause).
  assert (Hfail : forall (c : IO (flow pyval unit)) evs0 r0 evs1,
             c (h ++ evs0) = (r0, (h ++ evs0) ++ evs1) ->
             Law.each P h evs0 -> Law.each P (h ++ evs0) evs1 ->
             (forall v, r0 <> Ok (Return v)) ->
             (forall u, r0 = Ok (Next u) -> attempt < m - 1) ->
             exists r evs,
               (match c (h ++ evs0) with
                | (Ok a, h') => (Ok a, h')
                | (Raise e, h') =>
                    (if attempt <? m - 1 then (sleep 1 ;;; ret (Next tt))%io
                     else rethrow e) h'
                end) = (r, h ++ evs) /\
               Law.each P h evs /\
               (forall v, r = Ok (Return v) -> Law.returned_by_node lib w (h ++ evs) v) /\
               (forall u, r = Ok (Next u) -> attempt < m - 1)).
  { intros c evs0 r0 evs1 Hc H0 H1 Hr Hnext. rewrite Hc.
    destruct r0 as [a|e].
    - exists (Ok a), (evs0 ++ evs1). rewrite app_assoc. split; [reflexivity|].
      split; [now apply each_app|]. split; [|exact Hnext].
      intros v Hv. now destruct (Hr v).
    - unfold bind, sleep, ret, rethrow. destruct (attempt <? m - 1) eqn:Hlast.
      + apply Z.ltb_lt in Hlast.
        exists (Ok (Next tt)), ((evs0 ++ evs1) ++ [Sleep 1]).
        rewrite !app_assoc. split; [reflexivity|].
        split; [|split; [discriminate | intros; exact Hlast]].
        apply each_app. split; [now apply each_app|]. simpl. auto.
      + exists (Raise e), (evs0 ++ evs1). rewrite app_assoc. split; [reflexivity|].
        split; [now apply each_app | split; discriminate]. }
  unfold Jupiter.swap_attempt, try_catch, bind.
  destruct (get_quote_exact cfg lib w input_mint output_mint amount slippage h)
    as (quote_data & qs & -> & Hq).
  assert (Hqs : Law.each P h qs).
  { destruct Hq as [[-> _] | (bps & Hbps & -> & _)]; simpl; [exact I|].
    split; [|exact I]. now apply Law.step_quote. }
  destruct (negb (truthy quote_data)) eqn:Hquote.
  { destruct (retry_or_raise_protocol P m attempt
                "Не удалось получить quote от Jupiter API" (h ++ qs) Hpause)
      as (r0 & evs1 & Hrun & Hevs & Hr & Hnext).
    apply (Hfail (Jupiter.retry_or_raise m attempt
                    "Не удалось получить quote от Jupiter API") qs r0 evs1);
      assumption. }
  apply negb_false_iff in Hquote.
  destruct Hq as [[_ ->] | (bps & Hbps & -> & Hreceived)]; [discriminate|].
  specialize (Hreceived Hquote).
  set (q := Law.direct_quote_request cfg input_mint output_mint amount bps) in *.
  destruct (get_swap_transaction_exact cfg lib w wallet quote_data (h ++ [Http q]))
    as (swap_transaction & -> & Hbuilt).
  set (b := Law.swap_build_request cfg wallet quote_data) in *.
  assert (Hqb : Law.each P h [Http q; Http b]).
  { simpl. split; [exact (proj1 Hqs)|]. split; [|exact I].
    now apply Law.step_build. }
  rewrite <- app_assoc. simpl ([Http q] ++ [Http b]).
  destruct (negb (truthy swap_transaction)) eqn:Hswap.
  { destruct (retry_or_raise_protocol P m attempt
                "Не удалось получить транзакцию свопа от Jupiter API"
                (h ++ [Http q; Http b]) Hpause)
      as (r0 & evs1 & Hrun & Hevs & Hr & Hnext).
    apply (Hfail (Jupiter.retry_or_raise m attempt
                    "Не удалось получить транзакцию свопа от Jupiter API")
             [Http q; Http b] r0 evs1); assumption. }
  apply negb_false_iff in Hswap.
  destruct (Hbuilt Hswap)
    as (reply & swap_data & n & Hhttp & Hstatus & Hjson & Herror & Htx & Hlen & Hn).
  destruct (send_swap_transaction_exact lib w swap_transaction key
              (h ++ [Http q; Http b]))
    as (signature & ss & -> & Hs).
  assert (Hss : Law.each P (h ++ [Http q; Http b]) ss).
  { destruct Hs as [[-> _] | (tx_b64 & wire & -> & Hsigned & Hsub)]; [exact I|].
    assert (Hstep : P (h ++ [Http q; Http b]) (Rpc (SendRawTransaction wire))).
    { replace (h ++ [Http q; Http b]) with ((h ++ [Http q]) ++ [Http b])
        by now rewrite <- app_assoc.
      apply Law.step_submit with (tx_b64 := tx_b64); [|exact Hsigned].
      exists reply, swap_data. simpl in Hlen. injection Hlen as <-. auto 10. }
    destruct Hsub as [(e & Hrpc & -> & _) | (tx_sig & Hrpc & _ & ->)].
    - simpl. auto.
    - simpl. split; [exact Hstep|]. split.
      + now apply Law.step_settle with (tx_sig := tx_sig).
      + split; [|exact I]. rewrite <- app_assoc. now apply Law.step_status. }
  destruct (negb (truthy signature)) eqn:Hsig.
  { destruct (retry_or_raise_protocol P m attempt
                "Не удалось отправить транзакцию свопа"
                ((h ++ [Http q; Http b]) ++ ss) Hpause)
      as (r0 & evs1 & Hrun & Hevs & Hr & Hnext).
    replace ((h ++ [Http q; Http b]) ++ ss) with (h ++ ([Http q; Http b] ++ ss)) in *
      by apply app_assoc.
    apply (Hfail (Jupiter.retry_or_raise m attempt
                    "Не удалось отправить транзакцию свопа")
             ([Http q; Http b] ++ ss) r0 evs1).
    - exact Hrun.
    - apply each_app. split; [exact Hqb|].
      now replace (h ++ [Http q; Http b] ++ ss) with ((h ++ [Http q; Http b]) ++ ss)
        by (symmetry; apply app_assoc).
    - exact Hevs.
    - exact Hr.
    - exact Hnext. }
  apply negb_false_iff in Hsig.
  unfold ret. exists (Ok (Return signature)), ([Http q; Http b] ++ ss).
  rewrite <- app_assoc. split; [reflexivity|]. split; [now apply each_app|].
  split; [|discriminate].
  intros v Hv. injection Hv as <-.
  destruct Hs as [[_ ->] | (tx_b64 & wire & _ & _ & Hsub)]; [discriminate|].
  destruct Hsub as [(e & _ & _ & ->) | (tx_sig & Hrpc & -> & ->)]; [discriminate|].
  exists (h ++ [Http q; Http b]), wire, tx_sig.
  rewrite <- app_assoc. repeat split; [exact Hrpc|].
  intros Hempty. rewrite Hempty in Hsig. discriminate.
Qed.
Lemma swap_loop_protocol cfg lib w im om amount wallet key slippage m remaining :
  forall attempt h,
  Z.of_nat remaining = Z.max 0 (m - attempt) ->
  exists r evs,
    Jupiter.swap_loop cfg lib w im om amount wallet key slippage m remaining attempt h
    = (r, h ++ evs) /\
    Law.each (Law.swap_step cfg lib w im om amount wallet key slippage) h evs /\
    (forall v, r = Ok v ->
       (remaining = 0%nat /\ v = PNone /\ evs = []) \/
       Law.returned_by_node lib w (h ++ evs) v).
Proof.
  induction remaining as [|k IH]; intros attempt h Hrem.
  - exists (Ok PNone), []. simpl. unfold ret. rewrite app_nil_r.
    split; [reflexivity|]. split; [exact I|]. intros v Hv. injection Hv as <-. auto.
  - rewrite swap_loop_step.
    destruct (swap_attempt_protocol cfg lib w im om amount wallet key slippage
                m attempt h) as (r0 & evs0 & -> & Hevs0 & Hret & Hnext).
    destruct r0 as [[u|v]|e].
    + specialize (Hnext u eq_refl).
      destruct (IH (attempt + 1) (h ++ evs0)) as (r & evs & -> & Hevs & Hres); [lia|].
      exists r, (evs0 ++ evs). rewrite app_assoc. split; [reflexivity|].
      split; [now apply each_app|].
      intros v Hv. destruct (Hres v Hv) as [(Hk & _) | Hnode]; [lia|].
      right. exact Hnode.
    + exists (Ok v), evs0. split; [reflexivity|]. split; [exact Hevs0|].
      intros v0 Hv0. injection Hv0 as <-. right. now apply Hret.
    + exists (Raise e), evs0. split; [reflexivity|]. split; [exact Hevs0|]. discriminate.
Qed.

(** X3: every request [perform_swap] sends rests on what came before.
    A quote request asks for the given amount in the direction of the
    trade (token to SOL when selling, SOL to token when buying), with
    the slippage passed in (ten per cent when buying BONK), direct
    routes only, and the platform fee of 90 bps for the fee account.  A
    swap-build request follows a quote request that was answered with
    a quote, and carries that quote, the wallet address and the same
    fee.  A submission follows a swap-build request that was answered
    with a transaction of at least 100 characters, and submits that
    transaction signed with the caller's key.  The status request
    follows an accepted submission by two seconds.  Whatever is returned
    is the signature the node gave for the last submission, except for
    [None] when [max_retries] is not positive. *)
Theorem perform_swap_follows_protocol (cfg : Config) (lib : Lib) (w : World)
    (token_out_address amount user_wallet_address user_private_key : string)
    (slippage : spec_float) (max_retries : Z) (is_selling : bool) (h : history) :
  exists r evs,
    Jupiter.perform_swap cfg lib w token_out_address amount user_wallet_address
      user_private_key slippage max_retries is_selling h = (r, h ++ evs) /\
    Law.each (Law.swap_step cfg lib w
                (Law.swap_input_mint token_out_address is_selling)
                (Law.swap_output_mint token_out_address is_selling)
                amount user_wallet_address user_private_key
                (Law.swap_slippage token_out_address is_selling slippage)) h evs /\
    (forall v, r = Ok v ->
       (max_retries <= 0 /\ v = PNone /\ evs = []) \/
       Law.returned_by_node lib w (h ++ evs) v).
Proof.
  unfold Jupiter.perform_swap.
  assert (Hslip : (if negb is_selling
                      && String.eqb (if is_selling then Jupiter.SOL_MINT
                                     else token_out_address) Jupiter.BONK_MINT
                   then Jupiter.slippage_10 else slippage)
                  = Law.swap_slippage token_out_address is_selling slippage).
  { unfold Law.swap_slippage. now destruct is_selling. }
  rewrite Hslip.
  destruct (swap_loop_protocol cfg lib w
              (Law.swap_input_mint token_out_address is_selling)
              (Law.swap_output_mint token_out_address is_selling)
              amount user_wallet_address user_private_key
              (Law.swap_slippage token_out_address is_selling slippage)
              max_retries (Z.to_nat max_retries) 0 h)
    as (r & evs & Hrun & Hevs & Hres); [lia|].
  exists r, evs. split; [exact Hrun|]. split; [exact Hevs|].
  intros v Hv. destruct (Hres v Hv) as [(Hzero & -> & ->) | Hnode].
  - left. repeat split. lia.
  - now right.
Qed.

(** ** Status replies are only logged *)

Lemma bind_ext {A B} (m1 m2 : IO A) (k1 k2 : A -> IO B) (h : history) :
  (forall h0, m1 h0 = m2 h0) -> (forall a h0, k1 a h0 = k2 a h0) ->
  bind m1 k1 h = bind m2 k2 h.
Proof.
  intros Hm Hk. unfold bind. rewrite Hm. destruct (m2 h) as [[a|e] h']; auto.
Qed.

Lemma try_catch_ext {A} (m1 m2 : IO A) (k1 k2 : exn -> IO A) (h : history) :
  (forall h0, m1 h0 = m2 h0) -> (forall e h0, k1 e h0 = k2 e h0) ->
  try_catch m1 k1 h = try_catch m2 k2 h.
Proof.
  intros Hm Hk. unfold try_catch. rewrite Hm. destruct (m2 h) as [[a|e] h']; auto.
Qed.

(** The status check run after a submission leaves the same history and
    the same result whatever the node answers. *)
Lemma status_check_same (w1 w2 : World) (signature : string) (h : history) :
  try_catch (sleep 2 ;;; _ <- rpc_call w1 (GetSignatureStatuses [signature]) ;; ret tt)%io
    (fun _ => ret tt) h
  = try_catch (sleep 2 ;;; _ <- rpc_call w2 (GetSignatureStatuses [signature]) ;; ret tt)%io
      (fun _ => ret tt) h.
Proof.
  unfold try_catch, bind, sleep, rpc_call, ret.
  destruct (rpc w1 _ _), (rpc w2 _ _); reflexivity.
Qed.

Section SameButStatus.

Variables (w1 w2 : World).
Hypothesis Hsame : Law.same_but_status w1 w2.

Lemma http_call_same rq h : http_call w1 rq h = http_call w2 rq h.
Proof. unfold http_call. now rewrite (proj1 Hsame). Qed.

Lemma rpc_call_same rq h :
  (forall signatures, rq <> GetSignatureStatuses signatures) ->
  rpc_call w1 rq h = rpc_call w2 rq h.
Proof. intros Hrq. unfold rpc_call. now rewrite (proj2 Hsame h rq Hrq). Qed.

(** Structural comparison of two runs that differ in the world only. *)
Ltac same_step :=
  first
    [ reflexivity
    | apply http_call_same
    | apply rpc_call_same; discriminate
    | apply status_check_same
    | apply bind_ext; intros
    | apply try_catch_ext; intros
    | match goal with
      | |- (if ?c then _ else _) _ = (if ?c then _ else _) _ => destruct c
      | |- (match ?x with _ => _ end) _ = (match ?x with _ => _ end) _ => destruct x
      end ].

Ltac same := cbv zeta; repeat same_step.

Lemma get_quote_same cfg lib im om amount slippage h :
  Jupiter._get_quote cfg lib w1 im om amount slippage h
  = Jupiter._get_quote cfg lib w2 im om amount slippage h.
Proof. unfold Jupiter._get_quote. same. Qed.

Lemma get_swap_transaction_same cfg lib wallet quote_data h :
  Jupiter._get_swap_transaction cfg lib w1 wallet quote_data h
  = Jupiter._get_swap_transaction cfg lib w2 wallet quote_data h.
Proof. unfold Jupiter._get_swap_transaction. same. Qed.

Lemma send_swap_transaction_same lib swap_transaction key h :
  Jupiter._send_swap_transaction lib w1 swap_transaction key h
  = Jupiter._send_swap_transaction lib w2 swap_transaction key h.
Proof. unfold Jupiter._send_swap_transaction. same. Qed.

Lemma swap_attempt_same cfg lib im om amount wallet key slippage m attempt h :
  Jupiter.swap_attempt cfg lib w1 im om amount wallet key slippage m attempt h
  = Jupiter.swap_attempt cfg lib w2 im om amount wallet key slippage m attempt h.
Proof.
  unfold Jupiter.swap_attempt.
  apply try_catch_ext; [|reflexivity]. intros h0.
  apply bind_ext; [apply get_quote_same|]. intros quote_data h1.
  destruct (negb (truthy quote_data)); [reflexivity|].
  apply bind_ext; [apply get_swap_transaction_same|]. intros swap_transaction h2.
  destruct (negb (truthy swap_transaction)); [reflexivity|].
  apply bind_ext; [apply send_swap_transaction_same|]. reflexivity.
Qed.

Lemma swap_loop_same cfg lib im om amount wallet key slippage m remaining :
  forall attempt h,
  Jupiter.swap_loop cfg lib w1 im om amount wallet key slippage m remaining attempt h
  = Jupiter.swap_loop cfg lib w2 im om amount wallet key slippage m remaining attempt h.
Proof.
  induction remaining as [|k IH]; intros attempt h; [reflexivity|].
  cbn [Jupiter.swap_loop].
  apply bind_ext; [apply swap_attempt_same|]. intros [u|v] h0; [apply IH | reflexivity].
Qed.

Lemma perform_swap_same cfg lib token amount wallet key slippage m is_selling h :
  Jupiter.perform_swap cfg lib w1 token amount wallet key slippage m is_selling h
  = Jupiter.perform_swap cfg lib w2 token amount wallet key slippage m is_selling h.
Proof. unfold Jupiter.perform_swap. apply swap_loop_same. Qed.

Lemma execute_swap_same cfg lib user_pubkey user_privkey route h :
  Jupiter.execute_swap cfg lib w1 user_pubkey user_privkey route h
  = Jupiter.execute_swap cfg lib w2 user_pubkey user_privkey route h.
Proof.
  unfold Jupiter.execute_swap.
  apply try_catch_ext; [|reflexivity]. intros h0.
  apply bind_ext; [reflexivity|]. intros output_mint h1.
  apply bind_ext; [reflexivity|]. intros amount h2.
  destruct (negb (truthy output_mint && truthy amount)); [reflexivity|].
  apply bind_ext; [intros; apply perform_swap_same|]. intros signature h3.
  apply bind_ext; [reflexivity|]. intros tx_signature h4.
  apply bind_ext; [intros; apply status_check_same | reflexivity].
Qed.

Lemma get_token_balance_same cfg lib wallet token h :
  Jupiter.get_token_balance cfg lib w1 wallet token h
  = Jupiter.get_token_balance cfg lib w2 wallet token h.
Proof. unfold Jupiter.get_token_balance. same. Qed.

Lemma get_best_route_same cfg lib im om amount slippage h :
  Jupiter.get_best_route cfg lib w1 im om amount slippage h
  = Jupiter.get_best_route cfg lib w2 im om amount slippage h.
Proof. unfold Jupiter.get_best_route. same. Qed.

Lemma sell_route_and_swap_same cfg lib original token pub priv raw slippage h :
  Jupiter.sell_route_and_swap cfg lib w1 original token pub priv raw slippage h
  = Jupiter.sell_route_and_swap cfg lib w2 original token pub priv raw slippage h.
Proof.
  unfold Jupiter.sell_route_and_swap.
  apply try_catch_ext; [|reflexivity]. intros h0.
  apply bind_ext; [apply get_best_route_same|]. intros route h1.
  destruct (negb (truthy route)); [reflexivity|].
  apply bind_ext; [reflexivity|]. intros has_plan h2.
  apply bind_ext; [reflexivity|]. intros plan h3.
  destruct (negb has_plan || negb (truthy plan)); [reflexivity|].
  apply bind_ext; [intros; apply perform_swap_same | reflexivity].
Qed.

Lemma sell_prepare_same cfg lib user_pubkey token amount h :
  Jupiter.sell_prepare cfg lib w1 user_pubkey token amount h
  = Jupiter.sell_prepare cfg lib w2 user_pubkey token amount h.
Proof.
  unfold Jupiter.sell_prepare. cbv zeta.
  destruct (Str.len (strip lib user_pubkey) <? 32); [reflexivity|].
  destruct (b58decode lib (strip lib user_pubkey)); [|reflexivity].
  destruct (negb _); [reflexivity|].
  destruct (pubkey lib (strip lib user_pubkey)); [|reflexivity].
  destruct (pubkey lib (Jupiter.resolve_symbol cfg lib token)); [|reflexivity].
  apply bind_ext; [apply get_token_balance_same | reflexivity].
Qed.

Lemma execute_sell_same cfg lib user_pubkey user_privkey token amount h :
  Jupiter.execute_sell cfg lib w1 user_pubkey user_privkey token amount h
  = Jupiter.execute_sell cfg lib w2 user_pubkey user_privkey token amount h.
Proof.
  unfold Jupiter.execute_sell.
  apply try_catch_ext; [|reflexivity]. intros h0.
  apply bind_ext; [apply sell_prepare_same|]. intros [st|msg] h1; [|reflexivity].
  unfold Jupiter.sell_guarded.
  apply bind_ext; [reflexivity|]. intros [sent|msg] h2; [|reflexivity].
  apply sell_route_and_swap_same.
Qed.

End SameButStatus.

(** X4: what the node says about the status of a submitted transaction
    has no effect on a swap.  Against two worlds that differ only in
    their answers to status requests, [perform_swap], [execute_swap] and
    [execute_sell] return the same result and send the same requests: a
    transaction reported as failed is still answered with its signature
    and explorer address. *)
Theorem status_replies_change_nothing (cfg : Config) (lib : Lib) (w1 w2 : World)
    (h : history) :
  Law.same_but_status w1 w2 ->
  (forall token amount wallet key slippage max_retries is_selling,
     Jupiter.perform_swap cfg lib w1 token amount wallet key slippage max_retries
       is_selling h
     = Jupiter.perform_swap cfg lib w2 token amount wallet key slippage max_retries
         is_selling h) /\
  (forall user_pubkey user_privkey route,
     Jupiter.execute_swap cfg lib w1 user_pubkey user_privkey route h
     = Jupiter.execute_swap cfg lib w2 user_pubkey user_privkey route h) /\
  (forall user_pubkey user_privkey token amount,
     Jupiter.execute_sell cfg lib w1 user_pubkey user_privkey token amount h
     = Jupiter.execute_sell cfg lib w2 user_pubkey user_privkey token amount h).
Proof.
  intros Hsame. split; [|split]; intros.
  - now apply perform_swap_same.
  - now apply execute_swap_same.
  - now apply execute_sell_same.
Qed.

(** ** What buys and sells ask the aggregator *)

Lemma each_In (P : history -> event -> Prop) (evs : list event) :
  forall h ev, Law.each P h evs -> In ev evs -> exists h0, P h0 ev.
Proof.
  induction evs as [|ev0 evs IH]; intros h ev Hall Hin; [destruct Hin|].
  destruct Hall as [H0 Hrest]. destruct Hin as [<- | Hin]; [eauto|].
  exact (IH _ _ Hrest Hin).
Qed.

(** The quote requests among the steps of a swap. *)
Lemma swap_step_quote cfg lib w im om amount wallet key slippage h ev :
  Law.swap_step cfg lib w im om amount wallet key slippage h ev ->
  Spec.is_quote cfg ev = true ->
  exists bps, Jupiter.slippage_bps slippage = Ok bps /\
              ev = Http (Law.direct_quote_request cfg im om amount bps).
Proof.
  intros Hstep Hquote. destruct Hstep; try discriminate. eauto.
Qed.

Lemma perform_swap_quotes cfg lib w token amount wallet key slippage m is_selling h :
  exists r evs,
    Jupiter.perform_swap cfg lib w token amount wallet key slippage m is_selling h
    = (r, h ++ evs) /\
    forall ev, In ev evs -> Spec.is_quote cfg ev = true ->
      exists bps,
        Jupiter.slippage_bps (Law.swap_slippage token is_selling slippage) = Ok bps /\
        ev = Http (Law.direct_quote_request cfg
                     (Law.swap_input_mint token is_selling)
                     (Law.swap_output_mint token is_selling) amount bps).
Proof.
  unfold Jupiter.perform_swap.
  assert (Hslip : (if negb is_selling
                      && String.eqb (if is_selling then Jupiter.SOL_MINT else token)
                           Jupiter.BONK_MINT
                   then Jupiter.slippage_10 else slippage)
                  = Law.swap_slippage token is_selling slippage).
  { unfold Law.swap_slippage. now destruct is_selling. }
  rewrite Hslip.
  destruct (swap_loop_protocol cfg lib w
              (Law.swap_input_mint token is_selling)
              (Law.swap_output_mint token is_selling)
              amount wallet key (Law.swap_slippage token is_selling slippage)
              m (Z.to_nat m) 0 h)
    as (r & evs & Hrun & Hevs & _); [lia|].
  exists r, evs. split; [exact Hrun|].
  intros ev Hin Hquote. destruct (each_In _ _ _ _ Hevs Hin) as (h0 & Hstep).
  exact (swap_step_quote _ _ _ _ _ _ _ _ _ _ _ Hstep Hquote).
Qed.

Lemma slippage_bps_10 : Jupiter.slippage_bps Jupiter.slippage_10 = Ok "1000".
Proof. vm_compute. reflexivity. Qed.

Lemma slippage_bps_3 : Jupiter.slippage_bps Jupiter.slippage_3 = Ok "300".
Proof. vm_compute. reflexivity. Qed.

Lemma slippage_bps_1 : Jupiter.slippage_bps Jupiter.slippage_1 = Ok "100".
Proof. vm_compute. reflexivity. Qed.

(** X5: every quote request [execute_swap] causes buys the token named
    by the route with SOL: it asks for the route's [inAmount] from the
    SOL mint to the route's [outputMint], over direct routes only, with
    a slippage of 1000 bps for BONK and 100 bps for any other token, and
    with the platform fee of 90 bps for the fee account.  A route that
    lacks [outputMint] or [inAmount] causes no request at all. *)
Theorem execute_swap_quote_requests (cfg : Config) (lib : Lib) (w : World)
    (user_pubkey user_privkey : string) (route : pyval) (h : history) :
  exists s evs,
    Jupiter.execute_swap cfg lib w user_pubkey user_privkey route h = (Ok s, h ++ evs) /\
    (forall ev, In ev evs -> Spec.is_quote cfg ev = true ->
       exists output_mint amount,
         Val.get route "outputMint" PNone = Ok output_mint /\
         Val.get route "inAmount" PNone = Ok amount /\
         ev = Http (Law.direct_quote_request cfg Jupiter.SOL_MINT
                      (py_str lib output_mint) (py_str lib amount)
                      (Law.buy_bps (py_str lib output_mint)))) /\
    ((forall output_mint amount,
        Val.get route "outputMint" PNone = Ok output_mint ->
        Val.get route "inAmount" PNone = Ok amount ->
        truthy output_mint && truthy amount = false) ->
     evs = []).
Proof.
  unfold Jupiter.execute_swap, try_catch, bind, lift, ret, throw.
  destruct (Val.get route "outputMint" PNone) as [output_mint|e] eqn:Hout.
  2:{ eexists _, []. rewrite app_nil_r. split; [reflexivity|].
      split; [intros ev []|reflexivity]. }
  destruct (Val.get route "inAmount" PNone) as [amount|e] eqn:Hamount.
  2:{ eexists _, []. rewrite app_nil_r. split; [reflexivity|].
      split; [intros ev []|reflexivity]. }
  destruct (truthy output_mint && truthy amount) eqn:Hboth; simpl.
  2:{ eexists _, []. rewrite app_nil_r. split; [reflexivity|].
      split; [intros ev []|reflexivity]. }
  match goal with
  | |- context [Jupiter.perform_swap cfg lib w ?t ?a ?p ?k ?sl ?m ?sel h] =>
      destruct (perform_swap_quotes cfg lib w t a p k sl m sel h)
        as (r & evs & -> & Hquotes);
      set (slip := sl) in *
  end.
  assert (Hbps : Jupiter.slippage_bps
                   (Law.swap_slippage (py_str lib output_mint) false slip)
                 = Ok (Law.buy_bps (py_str lib output_mint))).
  { unfold Law.swap_slippage, Law.buy_bps, slip. simpl negb. simpl andb.
    destruct (String.eqb (py_str lib output_mint) Jupiter.BONK_MINT) eqn:Hbonk;
      [apply slippage_bps_10|].
    destruct output_mint as [| | |m| | |]; try apply slippage_bps_1.
    simpl in Hbonk. rewrite Hbonk. apply slippage_bps_1. }
  assert (Hevs : forall ev, In ev evs -> Spec.is_quote cfg ev = true ->
            exists output_mint0 amount0,
              Ok output_mint = Ok output_mint0 /\ Ok amount = Ok amount0 /\
              ev = Http (Law.direct_quote_request cfg Jupiter.SOL_MINT
                           (py_str lib output_mint0) (py_str lib amount0)
                           (Law.buy_bps (py_str lib output_mint0)))).
  { intros ev Hin Hq. destruct (Hquotes ev Hin Hq) as (bps & Hb & ->).
    rewrite Hbps in Hb. injection Hb as <-.
    exists output_mint, amount. auto. }
  assert (Hno : (forall output_mint0 amount0,
                   Ok output_mint = Ok output_mint0 -> Ok amount = Ok amount0 ->
                   truthy output_mint0 && truthy amount0 = false) -> False).
  { intros Hf. specialize (Hf _ _ eq_refl eq_refl). congruence. }
  destruct r as [signature|e].
  2:{ eexists _, evs. split; [reflexivity|]. split; [exact Hevs|].
      intros Hf. destruct (Hno Hf). }
  destruct (match signature with PStr s0 => _ | _ => _ end) as [tx_signature|e].
  2:{ eexists _, evs. split; [reflexivity|]. split; [exact Hevs|].
      intros Hf. destruct (Hno Hf). }
  unfold sleep, rpc_call.
  eexists _, (evs ++ [Sleep 2; Rpc (GetSignatureStatuses [tx_signature])]).
  split.
  - destruct (rpc w _ (GetSignatureStatuses _)); repeat rewrite <- app_assoc;
      reflexivity.
  - split; [|intros Hf; destruct (Hno Hf)].
    intros ev Hin Hq. apply in_app_or in Hin. destruct Hin as [Hin | Hin].
    + now apply Hevs.
    + simpl in Hin. destruct Hin as [<- | [<- | []]]; discriminate.
Qed.
Lemma sell_prepare_state cfg lib w user_pubkey token_address amount h st h' :
  Jupiter.sell_prepare cfg lib w user_pubkey token_address amount h = (Ok (Next st), h') ->
  Jupiter.sell_token_address st = Jupiter.resolve_symbol cfg lib token_address /\
  Jupiter.sell_user_pubkey st = strip lib user_pubkey /\
  Jupiter.sell_original_input st = token_address /\
  Jupiter.sell_balance_raw st <> 0.
Proof.
  unfold Jupiter.sell_prepare, bind, lift, ret.
  destruct (Str.len (strip lib user_pubkey) <? 32); [discriminate|].
  destruct (b58decode lib (strip lib user_pubkey)) as [decoded|e]; [|discriminate].
  destruct (negb (Str.len_bytes decoded =? 32)); [discriminate|].
  destruct (pubkey lib (strip lib user_pubkey)) as [wallet_pubkey|e]; [|discriminate].
  destruct (pubkey lib (Jupiter.resolve_symbol cfg lib token_address))
    as [token_pubkey|e]; [|discriminate].
  destruct (Jupiter.get_token_balance cfg lib w wallet_pubkey token_pubkey h)
    as [[[balance decimals]|e] h1]; [|discriminate].
  destruct (balance =? 0) eqn:Hzero; [discriminate|].
  apply Z.eqb_neq in Hzero.
  destruct (Jupiter.convert_amount lib amount decimals) as [[raw|msg]|e];
    try discriminate.
  intros H. injection H as <- <-. simpl. auto.
Qed.

(** The quote requests of the route check and of the swap that follows
    it. *)
Lemma sell_route_and_swap_quotes cfg lib w original token pub priv raw slippage h :
  exists s evs,
    Jupiter.sell_route_and_swap cfg lib w original token pub priv raw slippage h
    = (Ok s, h ++ evs) /\
    forall ev, In ev evs -> Spec.is_quote cfg ev = true ->
      exists bps,
        Jupiter.slippage_bps slippage = Ok bps /\
        (ev = Spec.quote_request cfg token Jupiter.SOL_MINT (Str.of_Z raw) bps \/
         ev = Http (Law.direct_quote_request cfg token Jupiter.SOL_MINT
                      (Str.of_Z raw) bps)).
Proof.
  unfold Jupiter.sell_route_and_swap, try_catch, bind, lift, ret.
  pose proof (get_best_route_requests cfg lib w token Jupiter.SOL_MINT (Str.of_Z raw)
                slippage h) as Hroute.
  assert (Hroute' : exists r evs,
            Jupiter.get_best_route cfg lib w token Jupiter.SOL_MINT (Str.of_Z raw)
              slippage h = (r, h ++ evs) /\
            forall ev, In ev evs -> Spec.is_quote cfg ev = true ->
              exists bps,
                Jupiter.slippage_bps slippage = Ok bps /\
                (ev = Spec.quote_request cfg token Jupiter.SOL_MINT (Str.of_Z raw) bps \/
                 ev = Http (Law.direct_quote_request cfg token Jupiter.SOL_MINT
                              (Str.of_Z raw) bps))).
  { destruct (pubkey lib Jupiter.SOL_MINT) as [k|e].
    - destruct (Jupiter.slippage_bps slippage) as [bps|e].
      + destruct (Jupiter.get_best_route cfg lib w token Jupiter.SOL_MINT (Str.of_Z raw)
                    slippage h) as [r h'].
        simpl in Hroute. subst h'. eexists _, _. split; [reflexivity|].
        intros ev [<- | []] _. eauto.
      + rewrite Hroute. exists (Raise e), []. rewrite app_nil_r.
        split; [reflexivity | intros ev []].
    - rewrite Hroute. eexists _, []. rewrite app_nil_r.
      split; [reflexivity | intros ev []]. }
  destruct Hroute' as (r & evs & -> & Hevs).
  destruct r as [route|e]; [|eexists _, _; split; [reflexivity | exact Hevs]].
  destruct (negb (truthy route)); [eexists _, _; split; [reflexivity | exact Hevs]|].
  destruct (Val.contains "routePlan" route) as [has_plan|e];
    [|eexists _, _; split; [reflexivity | exact Hevs]].
  assert (Hdone : forall s,
            exists s0 evs0,
              (Ok s : res string, h ++ evs) = (Ok s0, h ++ evs0) /\
              forall ev, In ev evs0 -> Spec.is_quote cfg ev = true ->
                exists bps,
                  Jupiter.slippage_bps slippage = Ok bps /\
                  (ev = Spec.quote_request cfg token Jupiter.SOL_MINT (Str.of_Z raw) bps \/
                   ev = Http (Law.direct_quote_request cfg token Jupiter.SOL_MINT
                                (Str.of_Z raw) bps))).
  { intros s. exists s, evs. split; [reflexivity | exact Hevs]. }
  assert (Hswap : exists r evs1,
            Jupiter.perform_swap cfg lib w token (Str.of_Z raw) pub priv slippage
              Jupiter.perform_swap_default_max_retries true (h ++ evs)
            = (r, h ++ evs ++ evs1) /\
            forall s,
            exists s0 evs0,
              (Ok s : res string, h ++ evs ++ evs1) = (Ok s0, h ++ evs0) /\
              forall ev, In ev evs0 -> Spec.is_quote cfg ev = true ->
                exists bps,
                  Jupiter.slippage_bps slippage = Ok bps /\
                  (ev = Spec.quote_request cfg token Jupiter.SOL_MINT (Str.of_Z raw) bps \/
                   ev = Http (Law.direct_quote_request cfg token Jupiter.SOL_MINT
                                (Str.of_Z raw) bps))).
  { destruct (perform_swap_quotes cfg lib w token (Str.of_Z raw) pub priv slippage
                Jupiter.perform_swap_default_max_retries true (h ++ evs))
      as (r & evs1 & Hrun & Hquotes).
    exists r, evs1. rewrite app_assoc. split; [exact Hrun|].
    intros s. exists s, (evs ++ evs1). rewrite app_assoc. split; [reflexivity|].
    intros ev Hin Hq. apply in_app_or in Hin. destruct Hin as [Hin | Hin].
    - now apply Hevs.
    - destruct (Hquotes ev Hin Hq) as (bps & Hbps & ->). eauto. }
  destruct Hswap as (r & evs1 & Hswap & Hafter).
  destruct has_plan; simpl.
  - destruct (Val.get route "routePlan" PNone) as [plan|e]; [|apply Hdone].
    destruct (negb (truthy plan)); [apply Hdone|].
    rewrite Hswap. destruct r as [signature|e]; [|apply Hafter].
    destruct (negb (truthy signature)); [apply Hafter|].
    destruct signature; try apply Hafter;
      destruct (Jupiter.extract_signature _); apply Hafter.
  - apply Hdone.
Qed.

(** X6: every quote request [execute_sell] causes sells the token for
    SOL: its input mint is the token address (after the symbol table),
    its output mint is the SOL mint, its slippage is 100 bps for USDC
    and USDT and 300 bps for every other token, BONK included, and it
    asks for the platform fee of 90 bps for the fee account. *)
Theorem execute_sell_quote_requests (cfg : Config) (lib : Lib) (w : World)
    (user_pubkey user_privkey token_address : string) (amount : Jupiter.sell_amount)
    (h : history) :
  exists s evs,
    Jupiter.execute_sell cfg lib w user_pubkey user_privkey token_address amount h
    = (Ok s, h ++ evs) /\
    forall ev, In ev evs -> Spec.is_quote cfg ev = true ->
      let token := Jupiter.resolve_symbol cfg lib token_address in
      Law.quote_param "inputMint" ev = Some token /\
      Law.quote_param "outputMint" ev = Some Jupiter.SOL_MINT /\
      Law.quote_param "slippageBps" ev = Some (Law.sell_bps token) /\
      Law.quote_param "platformFeeBps" ev = Some "90" /\
      Law.quote_param "platformFeeAccount" ev = Some JUPITER_PLATFORM_FEE_ACCOUNT.
Proof.
  unfold Jupiter.execute_sell, try_catch, bind, ret.
  destruct (sell_prepare_run cfg lib w user_pubkey token_address amount h)
    as (r0 & h0 & Hprep & (evs0 & -> & Hno) & _).
  rewrite Hprep.
  assert (Hevs0 : forall ev, In ev evs0 -> Spec.is_quote cfg ev = true -> False).
  { intros ev Hin Hq. unfold Spec.no_quote in Hno. rewrite List.Forall_forall in Hno.
    specialize (Hno ev Hin). congruence. }
  destruct r0 as [[st|msg]|e];
    [|eexists _, evs0; split; [reflexivity|]; intros ev Hin Hq;
      destruct (Hevs0 ev Hin Hq) ..].
  destruct (sell_prepare_state _ _ _ _ _ _ _ _ _ Hprep) as (Htoken & _).
  unfold Jupiter.sell_guarded, bind, lift, ret.
  destruct (Jupiter.balance_guard lib (Jupiter.sell_balance_raw st)
              (Jupiter.sell_raw_amount st) (Jupiter.sell_decimals st))
    as [[sent|msg]|e];
    [|eexists _, evs0; split; [reflexivity|]; intros ev Hin Hq;
      destruct (Hevs0 ev Hin Hq) ..].
  match goal with
  | |- context [Jupiter.sell_route_and_swap cfg lib w ?o ?t ?p ?k sent ?sl (h ++ evs0)] =>
      destruct (sell_route_and_swap_quotes cfg lib w o t p k sent sl (h ++ evs0))
        as (s & evs1 & -> & Hquotes);
      set (slip := sl) in *
  end.
  exists s, (evs0 ++ evs1). rewrite app_assoc. split; [reflexivity|].
  intros ev Hin Hq. set (token := Jupiter.resolve_symbol cfg lib token_address) in *.
  apply in_app_or in Hin.
  destruct Hin as [Hin | Hin]; [destruct (Hevs0 ev Hin Hq)|].
  destruct (Hquotes ev Hin Hq) as (bps & Hbps & Hev).
  unfold slip in Hbps. rewrite Htoken in Hev, Hbps.
  assert (Hsell : bps = Law.sell_bps token).
  { unfold Law.sell_bps.
    destruct (String.eqb token Jupiter.USDC_MINT || String.eqb token Jupiter.USDT_MINT).
    - rewrite slippage_bps_1 in Hbps. congruence.
    - rewrite slippage_bps_3 in Hbps. congruence. }
  subst bps. destruct Hev as [-> | ->]; simpl; auto.
Qed.

(** ** What a token transfer submits ([SolanaService.send_spl_token]) *)


(** ** More on amounts in smallest units ([to_lamports]) *)

Lemma unit_times_scale (d : N) (q : Q) :
  (q < Spec.smallest_unit d)%Q -> (q * inject_Z (10 ^ Z.of_N d) < 1)%Q.
Proof.
  assert (HP : 0 < 10 ^ Z.of_N d) by (apply Z.pow_pos_nonneg; lia).
  destruct q as [n m]. unfold Spec.smallest_unit, Qlt, Qmult, inject_Z. simpl.
  rewrite Z2Pos.id by assumption. intros H. nia.
Qed.

(** X8: a positive amount of at most 28 significant digits that is
    smaller than one smallest unit converts to 0 units: dust is dropped
    without an error. *)
Theorem to_lamports_below_one_unit (lib : Lib) (amount : Utils.amount_arg)
    (decimals : N) (c : N) (e : Z) (qa : Q) :
  Utils.decimal_of_amount lib amount = Ok (Dec.Fin false c e) ->
  (0 < c)%N -> Z.of_N c < 10 ^ 28 -> Dec.Emin <= e ->
  Dec.to_Q (Dec.Fin false c e) = Some qa ->
  (qa < Spec.smallest_unit decimals)%Q ->
  Utils.to_lamports lib amount decimals = Ok 0.
Proof.
  intros Hvalue Hpos Hc He Hqa Hsmall.
  destruct (floor_pow10_is_floor c e decimals qa Hqa) as [Hlow _].
  pose proof (unit_times_scale decimals qa Hsmall) as Hlt.
  pose proof (floor_pow10_nonneg c (e + Z.of_N decimals)) as Hnonneg.
  assert (Hfloor : Spec.floor_pow10 c (e + Z.of_N decimals) = 0).
  { assert (Hq : (inject_Z (Spec.floor_pow10 c (e + Z.of_N decimals)) < 1)%Q)
      by (eapply Qle_lt_trans; eassumption).
    unfold Qlt, inject_Z in Hq. simpl in Hq. lia. }
  assert (Hneg : e + Z.of_N decimals < 0).
  { destruct (Z.lt_ge_cases (e + Z.of_N decimals) 0) as [|Hge]; [assumption|].
    unfold Spec.floor_pow10 in Hfloor.
    replace (e + Z.of_N decimals >=? 0) with true in Hfloor
      by (symmetry; apply Z.geb_le; lia).
    assert (0 < 10 ^ (e + Z.of_N decimals)) by (apply Z.pow_pos_nonneg; lia).
    nia. }
  rewrite (to_lamports_floor lib amount decimals c e Hvalue Hpos Hc He).
  - now rewrite Hfloor.
  - unfold Dec.Etop, Dec.Emax, Dec.prec. lia.
Qed.



(** ** The balance lookup ([JupiterService.get_token_balance]) *)

(** X11: [get_token_balance] never raises.  With a malformed token or
    wallet address it answers [(0, 9)] without a request.  Otherwise it
    asks for the token supply; unless that reply gives the decimals it
    answers [(0, 9)]; else it asks for the wallet's token accounts, and
    a balance other than 0 is the one read from the first account of
    that reply, returned with the decimals of the supply reply. *)
Theorem get_token_balance_lookup (cfg : Config) (lib : Lib) (w : World)
    (wallet_address token_address : string) (h : history) :
  exists balance decimals evs,
    Jupiter.get_token_balance cfg lib w wallet_address token_address h
    = (Ok (balance, decimals), h ++ evs) /\
    match pubkey lib (strip lib (Jupiter.resolve_symbol cfg lib token_address)),
          pubkey lib (strip lib wallet_address) with
    | Ok token_pubkey, Ok wallet_pubkey =>
        (evs = [Http (Law.supply_request cfg token_pubkey)] /\
         balance = 0 /\ decimals = PInt 9 /\
         forall d, ~ Spec.decimals_reply w h (Law.supply_request cfg token_pubkey) d) \/
        (exists d,
           Spec.decimals_reply w h (Law.supply_request cfg token_pubkey) d /\
           evs = [Http (Law.supply_request cfg token_pubkey);
                  Http (Law.accounts_request cfg wallet_pubkey token_pubkey)] /\
           ((balance = 0 /\ (decimals = d \/ decimals = PInt 9)) \/
            exists value,
              Law.accounts_reply w (h ++ [Http (Law.supply_request cfg token_pubkey)])
                (Law.accounts_request cfg wallet_pubkey token_pubkey) value /\
              Jupiter.read_account_balance lib value d = Ok (balance, decimals)))
    | _, _ => evs = [] /\ balance = 0 /\ decimals = PInt 9
    end.
Proof.
  unfold Jupiter.get_token_balance, try_catch, bind, lift, http_call, ret.
  destruct (pubkey lib (strip lib (Jupiter.resolve_symbol cfg lib token_address)))
    as [token_pubkey|e].
  2:{ exists 0, (PInt 9), []. rewrite app_nil_r. auto. }
  destruct (pubkey lib (strip lib wallet_address)) as [wallet_pubkey|e].
  2:{ exists 0, (PInt 9), []. rewrite app_nil_r. auto. }
  fold (Law.supply_request cfg token_pubkey).
  fold (Law.accounts_request cfg wallet_pubkey token_pubkey).
  set (rq1 := Law.supply_request cfg token_pubkey).
  set (rq2 := Law.accounts_request cfg wallet_pubkey token_pubkey).
  assert (Hone : (forall d, ~ Spec.decimals_reply w h rq1 d) ->
            exists balance decimals evs,
              (Ok (0, PInt 9) : res (Z * pyval), h ++ [Http rq1])
              = (Ok (balance, decimals), h ++ evs) /\
              ((evs = [Http rq1] /\ balance = 0 /\ decimals = PInt 9 /\
                forall d, ~ Spec.decimals_reply w h rq1 d) \/
               (exists d,
                  Spec.decimals_reply w h rq1 d /\
                  evs = [Http rq1; Http rq2] /\
                  ((balance = 0 /\ (decimals = d \/ decimals = PInt 9)) \/
                   exists value,
                     Law.accounts_reply w (h ++ [Http rq1]) rq2 value /\
                     Jupiter.read_account_balance lib value d = Ok (balance, decimals))))).
  { intros Hbad. exists 0, (PInt 9), [Http rq1]. split; [reflexivity|]. left. auto. }
  destruct (http w h rq1) as [response|e] eqn:Hhttp.
  2:{ apply Hone. intros d (reply & data & Hr & _). congruence. }
  destruct (status response =? 200) eqn:Hstatus; simpl.
  2:{ apply Hone. intros d (reply & data & Hr & Hs & _).
      rewrite Hhttp in Hr. injection Hr as <-. apply Z.eqb_neq in Hstatus.
      contradiction. }
  apply Z.eqb_eq in Hstatus.
  destruct (json response) as [decimals_data|e] eqn:Hjson.
  2:{ apply Hone. intros d (reply & data & Hr & Hs & Hj & _).
      rewrite Hhttp in Hr. injection Hr as <-. congruence. }
  destruct (Val.contains "error" decimals_data) as [[|]|e] eqn:Herror.
  1,3: apply Hone; intros d (reply & data & Hr & Hs & Hj & He & _);
       rewrite Hhttp in Hr; injection Hr as <-; congruence.
  destruct (Jupiter.decimals_of_reply decimals_data) as [d|e] eqn:Hdec.
  2:{ apply Hone. intros d (reply & data & Hr & Hs & Hj & He & Hd).
      rewrite Hhttp in Hr. injection Hr as <-. congruence. }
  clear Hone.
  assert (Hgood : Spec.decimals_reply w h rq1 d).
  { exists response, decimals_data. auto. }
  assert (Htwo : forall decimals, decimals = d \/ decimals = PInt 9 ->
            exists balance decimals0 evs,
              (Ok (0, decimals) : res (Z * pyval), (h ++ [Http rq1]) ++ [Http rq2])
              = (Ok (balance, decimals0), h ++ evs) /\
              ((evs = [Http rq1] /\ balance = 0 /\ decimals0 = PInt 9 /\
                forall d0, ~ Spec.decimals_reply w h rq1 d0) \/
               (exists d0,
                  Spec.decimals_reply w h rq1 d0 /\
                  evs = [Http rq1; Http rq2] /\
                  ((balance = 0 /\ (decimals0 = d0 \/ decimals0 = PInt 9)) \/
                   exists value,
                     Law.accounts_reply w (h ++ [Http rq1]) rq2 value /\
                     Jupiter.read_account_balance lib value d0
                     = Ok (balance, decimals0))))).
  { intros decimals Hd. exists 0, decimals, [Http rq1; Http rq2].
    rewrite <- app_assoc. split; [reflexivity|]. right. exists d. auto. }
  destruct (http w (h ++ [Http rq1]) rq2) as [response2|e] eqn:Hhttp2; [|now apply Htwo; auto].
  destruct (status response2 =? 200) eqn:Hstatus2; simpl; [|now apply Htwo; auto].
  apply Z.eqb_eq in Hstatus2.
  destruct (json response2) as [data|e] eqn:Hjson2; [|now apply Htwo; auto].
  destruct (Val.contains "error" data) as [[|]|e] eqn:Herror2;
    [now apply Htwo; auto | | now apply Htwo; auto].
  unfold res_bind.
  destruct (Val.get data "result" (PDict [])) as [result|e] eqn:Hresult;
    [|now apply Htwo; auto].
  destruct (Val.get result "value" (PList [])) as [value|e] eqn:Hvalue;
    [|now apply Htwo; auto].
  destruct (truthy value) eqn:Htruthy; simpl; [|now apply Htwo; auto].
  destruct (Jupiter.read_account_balance lib value d) as [[b d1]|e] eqn:Hread;
    [|now apply Htwo; auto].
  exists b, d1, [Http rq1; Http rq2]. rewrite <- app_assoc. split; [reflexivity|].
  right. exists d. split; [exact Hgood|]. split; [reflexivity|]. right.
  exists value. split; [|exact Hread].
  exists response2, data, result. auto 10.
Qed.

(** ** Checks of [execute_sell] before anything is sent *)

(** X12: [execute_sell] answers with an error message, and sends
    nothing, when the wallet address (stripped) has fewer than 32
    characters, is not base58, does not decode to 32 bytes or is refused
    as a public key, and when the token address (after the symbol table)
    is refused as a public key. *)
Theorem execute_sell_rejects_bad_addresses (cfg : Config) (lib : Lib) (w : World)
    (user_pubkey user_privkey token_address : string) (amount : Jupiter.sell_amount)
    (h : history) :
  Str.len (strip lib user_pubkey) < 32 \/
  (exists e, b58decode lib (strip lib user_pubkey) = Raise e) \/
  (exists decoded, b58decode lib (strip lib user_pubkey) = Ok decoded /\
                   Str.len_bytes decoded <> 32) \/
  (exists e, pubkey lib (strip lib user_pubkey) = Raise e) \/
  (exists e, pubkey lib (Jupiter.resolve_symbol cfg lib token_address) = Raise e) ->
  exists s,
    Jupiter.execute_sell cfg lib w user_pubkey user_privkey token_address amount h
    = (Ok s, h) /\
    Spec.error_message s.
Proof.
  intros Hbad.
  unfold Jupiter.execute_sell, Jupiter.sell_prepare, try_catch, bind, lift, ret.
  destruct (Str.len (strip lib user_pubkey) <? 32) eqn:Hlen;
    [eexists; split; reflexivity|].
  apply Z.ltb_ge in Hlen.
  destruct (b58decode lib (strip lib user_pubkey)) as [decoded|e] eqn:Hdecode;
    [|eexists; split; reflexivity].
  destruct (Str.len_bytes decoded =? 32) eqn:Hbytes; simpl;
    [|eexists; split; reflexivity].
  apply Z.eqb_eq in Hbytes.
  destruct (pubkey lib (strip lib user_pubkey)) as [wallet_pubkey|e] eqn:Hwallet;
    [|eexists; split; reflexivity].
  destruct (pubkey lib (Jupiter.resolve_symbol cfg lib token_address))
    as [token_pubkey|e] eqn:Htoken; [|eexists; split; reflexivity].
  exfalso.
  destruct Hbad as [H | [(e & H) | [(d & H & Hd) | [(e & H) | (e & H)]]]];
    try discriminate; try lia.
  injection H as <-. contradiction.
Qed.

(** X13: when the balance lookup answers 0, be it an empty wallet or a
    lookup that failed, [execute_sell] answers that the balance could
    not be obtained and sends nothing after the lookup: no quote, no
    swap, no submission. *)
Theorem execute_sell_zero_balance (cfg : Config) (lib : Lib) (w : World)
    (user_pubkey user_privkey token_address : string) (amount : Jupiter.sell_amount)
    (h : history) (decoded wallet_pubkey token_pubkey : string) (decimals : pyval)
    (h1 : history) :
  32 <= Str.len (strip lib user_pubkey) ->
  b58decode lib (strip lib user_pubkey) = Ok decoded ->
  Str.len_bytes decoded = 32 ->
  pubkey lib (strip lib user_pubkey) = Ok wallet_pubkey ->
  pubkey lib (Jupiter.resolve_symbol cfg lib token_address) = Ok token_pubkey ->
  Jupiter.get_token_balance cfg lib w wallet_pubkey token_pubkey h
  = (Ok (0, decimals), h1) ->
  Jupiter.execute_sell cfg lib w user_pubkey user_privkey token_address amount h
  = (Ok ("❌ Ошибка: Не удалось получить баланс токена " +:+ token_address), h1).
Proof.
  intros Hlen Hdecode Hbytes Hwallet Htoken Hbalance.
  unfold Jupiter.execute_sell, Jupiter.sell_prepare, try_catch, bind, lift, ret.
  replace (Str.len (strip lib user_pubkey) <? 32) with false
    by (symmetry; apply Z.ltb_ge; lia).
  rewrite Hdecode.
  replace (Str.len_bytes decoded =? 32) with true by (symmetry; now apply Z.eqb_eq).
  cbn [negb]. rewrite Hwallet, Htoken, Hbalance. reflexivity.
Qed.

(** ** The confirmation loop ([confirm_transaction_with_retry]) *)

Lemma confirm_attempt_run sv tx_sig m attempt t :
  let s := SolanaClient.result_of_reply tx_sig in
  let asked := t ++ [Wire.Call (Wire.ConfirmTransaction s)] in
  (Law.confirmed_reply sv t s /\
   SolanaClient.confirm_attempt sv tx_sig m attempt t = (Ok (Return (PBool true)), asked)) \/
  (~ Law.confirmed_reply sv t s /\ attempt < m - 1 /\
   SolanaClient.confirm_attempt sv tx_sig m attempt t
   = (Ok (Next s), asked ++ [Wire.Pause 2])) \/
  (Law.unconfirmed_reply sv t s /\ m - 1 <= attempt /\
   SolanaClient.confirm_attempt sv tx_sig m attempt t = (Ok (Return (PBool false)), asked)) \/
  (Law.unusable_reply sv t s /\ m - 1 <= attempt /\
   SolanaClient.confirm_attempt sv tx_sig m attempt t
   = (Raise (SolanaClient.confirmation_failed m), asked)).
Proof.
  intros s asked. subst asked.
  unfold SolanaClient.confirm_attempt, Law.confirmed_reply, Law.unconfirmed_reply,
    Law.unusable_reply, Wire.try_catch, Wire.bind, Wire.ask, Wire.lift, Wire.ret,
    Wire.pause, Wire.rethrow.
  fold s.
  destruct (Wire.answer sv t (Wire.ConfirmTransaction s)) as [response|e] eqn:Hanswer.
  - destruct (SolanaClient.confirmed_of response) as [[|]|e] eqn:Hconfirmed.
    + left. split; [eauto | reflexivity].
    + destruct (attempt <? m - 1) eqn:Hlast.
      * apply Z.ltb_lt in Hlast. right. left.
        split; [|split; [exact Hlast | reflexivity]].
        intros (r & Hr & Hc). congruence.
      * apply Z.ltb_ge in Hlast. right. right. left.
        split; [eauto|]. split; [exact Hlast | reflexivity].
    + destruct (attempt <? m - 1) eqn:Hlast.
      * apply Z.ltb_lt in Hlast. right. left.
        split; [|split; [exact Hlast | reflexivity]].
        intros (r & Hr & Hc). congruence.
      * apply Z.ltb_ge in Hlast. right. right. right.
        split; [right; eauto|]. split; [exact Hlast | reflexivity].
  - destruct (attempt <? m - 1) eqn:Hlast.
    + apply Z.ltb_lt in Hlast. right. left.
      split; [|split; [exact Hlast | reflexivity]].
      intros (r & Hr & Hc). congruence.
    + apply Z.ltb_ge in Hlast. right. right. right.
      split; [left; eauto|]. split; [exact Hlast | reflexivity].
Qed.

Lemma confirm_loop_run sv m remaining :
  forall attempt tx_sig t,
  Z.of_nat remaining = m - attempt -> (0 < remaining)%nat ->
  exists n,
    (n < remaining)%nat /\
    snd (SolanaClient.confirm_loop sv tx_sig m remaining attempt t)
    = t ++ Law.unconfirmed_attempts tx_sig n
        ++ [Wire.Call (Wire.ConfirmTransaction (Law.unwrapped (S n) tx_sig))] /\
    (forall j, (j < n)%nat ->
       ~ Law.confirmed_reply sv (t ++ Law.unconfirmed_attempts tx_sig j)
           (Law.unwrapped (S j) tx_sig)) /\
    let last := t ++ Law.unconfirmed_attempts tx_sig n in
    match fst (SolanaClient.confirm_loop sv tx_sig m remaining attempt t) with
    | Ok v =>
        (v = PBool true /\ Law.confirmed_reply sv last (Law.unwrapped (S n) tx_sig)) \/
        (v = PBool false /\ S n = remaining /\
         Law.unconfirmed_reply sv last (Law.unwrapped (S n) tx_sig))
    | Raise e =>
        S n = remaining /\
        Law.unusable_reply sv last (Law.unwrapped (S n) tx_sig) /\
        e = SolanaClient.confirmation_failed m
    end.
Proof.
  induction remaining as [|k IH]; intros attempt tx_sig t Hrem Hpos; [lia|].
  cbn [SolanaClient.confirm_loop]. unfold Wire.bind.
  destruct (confirm_attempt_run sv tx_sig m attempt t)
    as [(Hyes & ->) | [(Hno & Hlast & ->) | [(Hno & Hlast & ->) | (Hbad & Hlast & ->)]]].
  - exists 0%nat. cbn. rewrite app_nil_r.
    split; [lia|]. split; [reflexivity|]. split; [intros; lia|]. left. auto.
  - destruct (IH (attempt + 1) (SolanaClient.result_of_reply tx_sig)
                ((t ++ [Wire.Call (Wire.ConfirmTransaction
                                     (SolanaClient.result_of_reply tx_sig))])
                 ++ [Wire.Pause 2]))
      as (n & Hn & Hsnd & Hbefore & Hres); [lia | lia |].
    exists (S n). split; [lia|]. split; [|split].
    + rewrite Hsnd. cbn. now rewrite <- !app_assoc.
    + intros [|j] Hj; cbn.
      * now rewrite app_nil_r.
      * specialize (Hbefore j ltac:(lia)). rewrite <- !app_assoc in Hbefore.
        exact Hbefore.
    + cbn zeta in Hres |- *.
      replace (t ++ Law.unconfirmed_attempts tx_sig (S n))
        with (((t ++ [Wire.Call (Wire.ConfirmTransaction
                                   (SolanaClient.result_of_reply tx_sig))])
               ++ [Wire.Pause 2])
              ++ Law.unconfirmed_attempts (SolanaClient.result_of_reply tx_sig) n)
        by (cbn; now rewrite <- !app_assoc).
      change (Law.unwrapped (S (S n)) tx_sig)
        with (Law.unwrapped (S n) (SolanaClient.result_of_reply tx_sig)).
      destruct (fst (SolanaClient.confirm_loop sv (SolanaClient.result_of_reply tx_sig)
                       m k (attempt + 1) _)) as [v|e].
      * destruct Hres as [[-> H] | (-> & Hk & H)]; [left; auto | right].
        split; [reflexivity|]. split; [lia | exact H].
      * destruct Hres as (Hk & H & ->). split; [lia|]. auto.
  - exists 0%nat. cbn. rewrite app_nil_r.
    split; [lia|]. split; [reflexivity|]. split; [intros; lia|]. right.
    split; [reflexivity|]. split; [lia | exact Hno].
  - exists 0%nat. cbn. rewrite app_nil_r.
    split; [lia|]. split; [reflexivity|]. split; [intros; lia|].
    split; [lia|]. auto.
Qed.

(** X14: with [max_retries >= 1], [confirm_transaction_with_retry]
    asks the node at most [max_retries] times, pausing two seconds
    between requests.  It returns [True] at the first reply whose
    [result.value] holds, [False] when the last reply allowed is well
    formed and shows no confirmation, and raises the fixed error naming
    [max_retries] when the last request allowed raises or is answered in
    another shape.  It never returns [None]. *)
Theorem confirm_transaction_with_retry_policy (sv : Wire.Service) (tx_sig : pyval)
    (max_retries : Z) (t : Wire.trace) :
  0 < max_retries ->
  exists n,
    Z.of_nat n < max_retries /\
    snd (SolanaClient.confirm_transaction_with_retry sv tx_sig max_retries t)
    = t ++ Law.unconfirmed_attempts tx_sig n
        ++ [Wire.Call (Wire.ConfirmTransaction (Law.unwrapped (S n) tx_sig))] /\
    (forall j, (j < n)%nat ->
       ~ Law.confirmed_reply sv (t ++ Law.unconfirmed_attempts tx_sig j)
           (Law.unwrapped (S j) tx_sig)) /\
    let last := t ++ Law.unconfirmed_attempts tx_sig n in
    match fst (SolanaClient.confirm_transaction_with_retry sv tx_sig max_retries t) with
    | Ok v =>
        (v = PBool true /\ Law.confirmed_reply sv last (Law.unwrapped (S n) tx_sig)) \/
        (v = PBool false /\ Z.of_nat n = max_retries - 1 /\
         Law.unconfirmed_reply sv last (Law.unwrapped (S n) tx_sig))
    | Raise e =>
        Z.of_nat n = max_retries - 1 /\
        Law.unusable_reply sv last (Law.unwrapped (S n) tx_sig) /\
        e = SolanaClient.confirmation_failed max_retries
    end.
Proof.
  intros Hm. unfold SolanaClient.confirm_transaction_with_retry.
  destruct (confirm_loop_run sv max_retries (Z.to_nat max_retries) 0 tx_sig t)
    as (n & Hn & Hsnd & Hbefore & Hres); [lia | lia |].
  exists n. split; [lia|]. split; [exact Hsnd|]. split; [exact Hbefore|].
  cbn zeta in Hres |- *.
  destruct (fst (SolanaClient.confirm_loop sv tx_sig max_retries
                   (Z.to_nat max_retries) 0 t)) as [v|e].
  - destruct Hres as [H | (-> & Hk & H)]; [left; exact H | right].
    split; [reflexivity|]. split; [lia | exact H].
  - destruct Hres as (Hk & H & ->). split; [lia|]. auto.
Qed.

(** ** Transfers of SOL ([SolanaService.send_sol]) *)

(** A key is used only when it decodes to exactly 64 bytes; hex is tried
    only when base58 fails or gives nothing. *)
Lemma decode_secret_ok lib rt key b :
  SolanaService.decode_secret lib rt key = Ok b ->
  Str.len_bytes b = 64 /\
  (b58decode lib key = Ok b \/
   ((exists e, b58decode lib key = Raise e) \/ b58decode lib key = Ok "") /\
   fromhex rt key = Ok b).
Proof.
  unfold SolanaService.decode_secret.
  destruct (b58decode lib key) as [b0|e0] eqn:H58.
  - destruct (String.eqb b0 "") eqn:Hempty.
    + apply String.eqb_eq in Hempty. subst b0.
      destruct (fromhex rt key) as [b1|e1] eqn:Hhex.
      * destruct (String.eqb b1 "" || negb (Str.len_bytes b1 =? 64)) eqn:Hc;
          [discriminate|].
        intros H. injection H as <-. apply orb_false_iff in Hc. destruct Hc as [_ Hc].
        apply negb_false_iff, Z.eqb_eq in Hc. split; [exact Hc|]. right. auto.
      * simpl. discriminate.
    + destruct (String.eqb b0 "" || negb (Str.len_bytes b0 =? 64)) eqn:Hc;
        [discriminate|].
      intros H. injection H as <-. apply orb_false_iff in Hc. destruct Hc as [_ Hc].
      apply negb_false_iff, Z.eqb_eq in Hc. split; [exact Hc|]. now left.
  - destruct (fromhex rt key) as [b1|e1] eqn:Hhex; [|discriminate].
    destruct (String.eqb b1 "" || negb (Str.len_bytes b1 =? 64)) eqn:Hc;
      [discriminate|].
    intros H. injection H as <-. apply orb_false_iff in Hc. destruct Hc as [_ Hc].
    apply negb_false_iff, Z.eqb_eq in Hc. split; [exact Hc|]. right. eauto.
Qed.

(** X15: [send_sol] raises a [ValueError] and sends nothing when the
    key or the address is empty, when the amount is not above zero, when
    the key gives no keypair, and when the address is refused as a
    public key. *)
Theorem send_sol_validates_first (lib : Lib) (rt : Runtime) (sv : Wire.Service)
    (from_private_key to_address : string) (amount : spec_float) (t : Wire.trace) :
  from_private_key = "" \/ to_address = "" \/
  Float.leb amount (S754_zero false) = true \/
  (exists e, SolanaService.sender_keypair lib rt from_private_key = Raise e) \/
  (exists e, pubkey lib to_address = Raise e) ->
  exists e,
    SolanaService.send_sol lib rt sv from_private_key to_address amount t = (Raise e, t) /\
    exn_cls e = ValueError.
Proof.
  intros Hbad. unfold SolanaService.send_sol.
  destruct (String.eqb from_private_key "") eqn:Hkey; [eexists; split; reflexivity|].
  destruct (String.eqb to_address "") eqn:Hto; [eexists; split; reflexivity|].
  destruct (Float.leb amount (S754_zero false)) eqn:Hamount;
    [eexists; split; reflexivity|].
  apply String.eqb_neq in Hkey, Hto.
  unfold Wire.bind, Wire.lift.
  destruct (SolanaService.sender_keypair lib rt from_private_key) as [keypair|e] eqn:Hkp.
  2:{ exists e. split; [reflexivity|].
      unfold SolanaService.sender_keypair in Hkp.
      destruct (res_bind _ _); [discriminate|]. now injection Hkp as <-. }
  unfold SolanaService.recipient_pubkey.
  destruct (pubkey lib to_address) as [to_pubkey|e] eqn:Hpk.
  2:{ eexists. split; reflexivity. }
  exfalso.
  destruct Hbad as [H | [H | [H | [(e & H) | (e & H)]]]];
    congruence || discriminate.
Qed.

(** X16: a call of [send_sol] that returns has sent exactly two
    requests, the latest blockhash and then the transaction.  The
    transaction moves [int(amount * 1e9)] lamports, a positive number of
    SOL, from the public key of the keypair made of the 64-byte secret
    to the recipient's public key, under the blockhash of the reply, and
    it was signed; what is returned is the signature of the submission
    reply. *)
Theorem send_sol_success (lib : Lib) (rt : Runtime) (sv : Wire.Service)
    (from_private_key to_address : string) (amount : spec_float)
    (t : Wire.trace) (tx_signature : pyval) (t' : Wire.trace) :
  SolanaService.send_sol lib rt sv from_private_key to_address amount t
  = (Ok tx_signature, t') ->
  exists secret keypair to_pubkey lamports blockhash_resp recent_blockhash tx_resp,
    let transaction := {| Wire.from_pubkey := public_key keypair;
                          Wire.to_pubkey := to_pubkey;
                          Wire.lamports := lamports;
                          Wire.blockhash := recent_blockhash |} in
    SolanaService.decode_secret lib rt from_private_key = Ok secret /\
    Str.len_bytes secret = 64 /\
    keypair_from_secret lib secret = Ok keypair /\
    pubkey lib to_address = Ok to_pubkey /\
    Float.leb amount (S754_zero false) = false /\
    SolanaService.sol_to_lamports amount = Ok lamports /\
    Wire.answer sv t Wire.GetLatestBlockhash = Ok blockhash_resp /\
    SolanaService.blockhash_text lib rt blockhash_resp = Ok recent_blockhash /\
    (exists signatures, sign_transfer rt transaction keypair = Ok signatures /\
                        signatures <> []) /\
    Wire.answer sv (t ++ [Wire.Call Wire.GetLatestBlockhash])
      (Wire.SendTransaction transaction keypair) = Ok tx_resp /\
    SolanaService.sol_signature_of lib tx_resp = Ok tx_signature /\
    t' = t ++ [Wire.Call Wire.GetLatestBlockhash;
               Wire.Call (Wire.SendTransaction transaction keypair)].
Proof.
  unfold SolanaService.send_sol.
  destruct (String.eqb from_private_key ""); [discriminate|].
  destruct (String.eqb to_address ""); [discriminate|].
  destruct (Float.leb amount (S754_zero false)) eqn:Hamount; [discriminate|].
  unfold Wire.bind, Wire.lift, Wire.ask, Wire.throw.
  destruct (SolanaService.sender_keypair lib rt from_private_key) as [keypair|e] eqn:Hkp;
    [|discriminate].
  unfold SolanaService.sender_keypair in Hkp.
  destruct (SolanaService.decode_secret lib rt from_private_key) as [secret|e] eqn:Hsecret;
    [|discriminate].
  simpl in Hkp.
  destruct (keypair_from_secret lib secret) as [kp|e] eqn:Hfrom; [|discriminate].
  injection Hkp as <-.
  unfold SolanaService.recipient_pubkey.
  destruct (pubkey lib to_address) as [to_pubkey|e] eqn:Hto; [|discriminate].
  destruct (SolanaService.sol_to_lamports amount) as [lamports|e] eqn:Hlamports;
    [|discriminate].
  destruct (build_transfer rt (public_key kp) to_pubkey lamports) as [[]|e];
    [|discriminate].
  destruct (Wire.answer sv t Wire.GetLatestBlockhash) as [blockhash_resp|e] eqn:Hbh;
    [|discriminate].
  destruct (SolanaService.blockhash_text lib rt blockhash_resp)
    as [recent_blockhash|e] eqn:Htext; [|discriminate].
  cbv zeta.
  match goal with |- context [sign_transfer rt ?tx kp] => set (transaction := tx) end.
  destruct (sign_transfer rt transaction kp) as [[|sg sgs]|e] eqn:Hsign;
    [discriminate| |discriminate].
  destruct (Wire.answer sv _ (Wire.SendTransaction transaction kp)) as [tx_resp|e] eqn:Hsend;
    [|discriminate].
  destruct (SolanaService.sol_signature_of lib tx_resp) as [sig|e] eqn:Hsig;
    [|discriminate].
  intros H. injection H as <- <-.
  destruct (decode_secret_ok lib rt from_private_key secret Hsecret) as [Hlen _].
  exists secret, kp, to_pubkey, lamports, blockhash_resp, recent_blockhash, tx_resp.
  fold transaction.
  repeat split; try assumption.
  - exists (sg :: sgs). split; [exact Hsign | discriminate].
  - now rewrite <- app_assoc.
Qed.

(** ** Stored keys ([is_encrypted], [WalletService.get_wallet]) *)

Lemma decrypt_recognised lib key :
  KeyUtils.is_encrypted key = true ->
  100 < Str.len key /\
  KeyUtils.decrypt_private_key lib key = KeyUtils.decrypt_private_key_body lib key.
Proof.
  unfold KeyUtils.is_encrypted, KeyUtils.decrypt_private_key. intros H.
  apply andb_true_iff in H. destruct H as [_ Hlen]. apply Z.gtb_gt in Hlen.
  split; [lia|].
  destruct (KeyUtils.decrypt_private_key_body lib key) as [plain|e]; [reflexivity|].
  replace (Str.len key <=? 90) with false by (symmetry; apply Z.leb_gt; lia).
  now rewrite andb_false_r.
Qed.

(** X17: a key that [is_encrypted] recognises is never handed back
    undecrypted by [decrypt_private_key]: it has more than 100
    characters, so the fallback for keys of 40 to 90 characters does not
    apply, and the result is the decrypted key or the exception of the
    decryption. *)
Theorem recognised_key_has_no_fallback (lib : Lib) (key : string) :
  KeyUtils.is_encrypted key = true ->
  KeyUtils.decrypt_private_key lib key = KeyUtils.decrypt_private_key_body lib key.
Proof. intros H. now apply decrypt_recognised. Qed.

Lemma get_user_wallet_run sv user_id t :
  exists wallet_data,
    Firebase.get_user_wallet sv user_id t
    = (Ok wallet_data, t ++ [Wire.Call (Wire.GetDocument (Str.of_Z user_id))]).
Proof.
  unfold Firebase.get_user_wallet, Wire.try_catch, Wire.bind, Wire.ask, Wire.ret,
    Wire.lift.
  destruct (Wire.answer sv t _) as [data|e]; [|eauto].
  destruct data; try (eexists; reflexivity);
    destruct (Val.get _ "wallet" PNone); eexists; reflexivity.
Qed.

Lemma save_user_wallet_run sv user_id wallet_data t :
  exists ok evs,
    Firebase.save_user_wallet sv user_id wallet_data t = (Ok ok, t ++ evs) /\
    (evs = [Wire.Call Wire.UtcNow] \/
     exists now,
       evs = [Wire.Call Wire.UtcNow;
              Wire.Call (Wire.SetDocument (Str.of_Z user_id)
                           (PDict [("wallet", wallet_data); ("updated_at", now)]))]).
Proof.
  unfold Firebase.save_user_wallet, Wire.try_catch, Wire.bind, Wire.ask, Wire.ret.
  destruct (Wire.answer sv t Wire.UtcNow) as [now|e]; [|eauto].
  destruct (Wire.answer sv _ (Wire.SetDocument _ _)) as [r|e];
    eexists _, _; rewrite <- app_assoc; split; try reflexivity; right; eauto.
Qed.

(** The upgrade of a stored key never raises; what it writes, if it
    writes, is the encrypted key. *)
Lemma upgrade_stored_key_run lib rt sv user_id wallet_data private_key t :
  exists evs,
    WalletService.upgrade_stored_key lib rt sv user_id wallet_data private_key t
    = (Ok tt, t ++ evs) /\
    (Law.writes evs <= 1)%nat /\
    forall s v, In s evs -> Law.stored_private_key s = Some v ->
      exists encrypted_key,
        KeyUtils.encrypt_private_key lib rt private_key = Ok encrypted_key /\
        v = PStr encrypted_key.
Proof.
  unfold WalletService.upgrade_stored_key, Wire.try_catch, Wire.bind, Wire.lift,
    Wire.ask, Wire.ret.
  assert (Hnil : exists evs,
            (Ok tt : res unit, t) = (Ok tt, t ++ evs) /\
            (Law.writes evs <= 1)%nat /\
            forall s v, In s evs -> Law.stored_private_key s = Some v ->
              exists encrypted_key,
                KeyUtils.encrypt_private_key lib rt private_key = Ok encrypted_key /\
                v = PStr encrypted_key).
  { exists []. rewrite app_nil_r. split; [reflexivity|]. split; [unfold Law.writes; simpl; lia|].
    intros s v []. }
  destruct (KeyUtils.encrypt_private_key lib rt private_key) as [encrypted_key|e];
    [|exact Hnil].
  destruct (Val.getitem wallet_data "public_key") as [public_key|e]; [|exact Hnil].
  clear Hnil.
  destruct (Wire.answer sv t Wire.UtcNow) as [now|e].
  2:{ exists [Wire.Call Wire.UtcNow]. split; [reflexivity|]. split; [unfold Law.writes; simpl; lia|].
      intros s v [<- | []]. discriminate. }
  destruct (isoformat rt now) as [updated_at|e].
  2:{ exists [Wire.Call Wire.UtcNow]. split; [reflexivity|]. split; [unfold Law.writes; simpl; lia|].
      intros s v [<- | []]. discriminate. }
  match goal with
  | |- context [Firebase.save_user_wallet sv user_id ?wd ?t0] =>
      destruct (save_user_wallet_run sv user_id wd t0) as (ok & evs & -> & Hevs)
  end.
  exists (Wire.Call Wire.UtcNow :: evs). rewrite <- app_assoc.
  split; [reflexivity|].
  destruct Hevs as [-> | (now' & ->)].
  - split; [unfold Law.writes; simpl; lia|]. intros s v [<- | [<- | []]]; discriminate.
  - split; [unfold Law.writes; simpl; lia|].
    intros s v [<- | [<- | [<- | []]]]; try discriminate.
    simpl. intros H. injection H as <-. eauto.
Qed.
(** The handling of the stored key: what is written is the encrypted
    form of a key that was stored in the clear; what is returned is the
    wallet with the decrypted key, or with the key as stored. *)
Lemma unlock_run lib rt sv user_id wallet_data t :
  exists r evs,
    WalletService.unlock lib rt sv user_id wallet_data t = (r, t ++ evs) /\
    (Law.writes evs <= 1)%nat /\
    (forall s v, In s evs -> Law.stored_private_key s = Some v ->
       exists private_key encrypted_key,
         Val.getitem wallet_data "private_key" = Ok (PStr private_key) /\
         KeyUtils.is_encrypted private_key = false /\
         KeyUtils.encrypt_private_key lib rt private_key = Ok encrypted_key /\
         v = PStr encrypted_key) /\
    (forall v, r = Ok v ->
       exists public_key stored key,
         v = WalletService.wallet_of public_key key /\
         Val.getitem wallet_data "public_key" = Ok public_key /\
         Val.getitem wallet_data "private_key" = Ok stored /\
         (key = stored \/
          exists private_key plain,
            stored = PStr private_key /\
            KeyUtils.is_encrypted private_key = true /\
            KeyUtils.decrypt_private_key lib private_key = Ok plain /\
            key = PStr plain)).
Proof.
  unfold WalletService.unlock, Wire.try_catch, Wire.bind, Wire.lift, Wire.ret,
    Wire.throw, Wire.rethrow.
  destruct (Val.getitem wallet_data "private_key") as [stored|e] eqn:Hstored.
  2:{ exists (Raise e), []. rewrite app_nil_r. split; [reflexivity|].
      split; [unfold Law.writes; simpl; lia|]. split; [intros s v []|discriminate]. }
  assert (Hnil : (Law.writes [] <= 1)%nat) by (unfold Law.writes; simpl; lia).
  assert (Hnone : forall s v, In s (@nil Wire.step) -> Law.stored_private_key s = Some v ->
            exists private_key encrypted_key,
              Ok stored = Ok (PStr private_key) /\
              KeyUtils.is_encrypted private_key = false /\
              KeyUtils.encrypt_private_key lib rt private_key = Ok encrypted_key /\
              v = PStr encrypted_key) by (intros s v []).
  (* every path ends in one of these two ways *)
  assert (Hraise : forall (e : exn) evs t',
            t' = t ++ evs ->
            (Law.writes evs <= 1)%nat ->
            (forall s v, In s evs -> Law.stored_private_key s = Some v ->
               exists private_key encrypted_key,
                 Ok stored = Ok (PStr private_key) /\
                 KeyUtils.is_encrypted private_key = false /\
                 KeyUtils.encrypt_private_key lib rt private_key = Ok encrypted_key /\
                 v = PStr encrypted_key) ->
            exists r evs0,
              (Raise e : res pyval, t') = (r, t ++ evs0) /\
              (Law.writes evs0 <= 1)%nat /\
              (forall s v, In s evs0 -> Law.stored_private_key s = Some v ->
                 exists private_key encrypted_key,
                   Ok stored = Ok (PStr private_key) /\
                   KeyUtils.is_encrypted private_key = false /\
                   KeyUtils.encrypt_private_key lib rt private_key = Ok encrypted_key /\
                   v = PStr encrypted_key) /\
              (forall v, r = Ok v ->
                 exists public_key stored0 key,
                   v = WalletService.wallet_of public_key key /\
                   Val.getitem wallet_data "public_key" = Ok public_key /\
                   Ok stored = Ok stored0 /\
                   (key = stored0 \/
                    exists private_key plain,
                      stored0 = PStr private_key /\
                      KeyUtils.is_encrypted private_key = true /\
                      KeyUtils.decrypt_private_key lib private_key = Ok plain /\
                      key = PStr plain))).
  { intros e evs t' -> Hw Hs. exists (Raise e), evs. split; [reflexivity|].
    split; [exact Hw|]. split; [exact Hs | discriminate]. }
  assert (Hreturn : forall public_key key evs t',
            t' = t ++ evs ->
            Val.getitem wallet_data "public_key" = Ok public_key ->
            (key = stored \/
             exists private_key plain,
               stored = PStr private_key /\
               KeyUtils.is_encrypted private_key = true /\
               KeyUtils.decrypt_private_key lib private_key = Ok plain /\
               key = PStr plain) ->
            (Law.writes evs <= 1)%nat ->
            (forall s v, In s evs -> Law.stored_private_key s = Some v ->
               exists private_key encrypted_key,
                 Ok stored = Ok (PStr private_key) /\
                 KeyUtils.is_encrypted private_key = false /\
                 KeyUtils.encrypt_private_key lib rt private_key = Ok encrypted_key /\
                 v = PStr encrypted_key) ->
            exists r evs0,
              (Ok (WalletService.wallet_of public_key key) : res pyval, t')
              = (r, t ++ evs0) /\
              (Law.writes evs0 <= 1)%nat /\
              (forall s v, In s evs0 -> Law.stored_private_key s = Some v ->
                 exists private_key encrypted_key,
                   Ok stored = Ok (PStr private_key) /\
                   KeyUtils.is_encrypted private_key = false /\
                   KeyUtils.encrypt_private_key lib rt private_key = Ok encrypted_key /\
                   v = PStr encrypted_key) /\
              (forall v, r = Ok v ->
                 exists public_key0 stored0 key0,
                   v = WalletService.wallet_of public_key0 key0 /\
                   Val.getitem wallet_data "public_key" = Ok public_key0 /\
                   Ok stored = Ok stored0 /\
                   (key0 = stored0 \/
                    exists private_key plain,
                      stored0 = PStr private_key /\
                      KeyUtils.is_encrypted private_key = true /\
                      KeyUtils.decrypt_private_key lib private_key = Ok plain /\
                      key0 = PStr plain))).
  { intros public_key key evs t' -> Hpub Hkey Hw Hs.
    eexists _, evs. split; [reflexivity|]. split; [exact Hw|]. split; [exact Hs|].
    intros v Hv. injection Hv as <-. exists public_key, stored, key. auto. }
  assert (Ht : t = t ++ []) by (symmetry; apply app_nil_r).
  destruct (Val.getitem wallet_data "public_key") as [public_key|epub] eqn:Hpub.
  - (* the public key is there *)
    destruct stored as [| | |private_key| | |];
      try (cbn [Val.len raise];
           first [ apply (Hraise _ [] t Ht); assumption
                 | match goal with
                   | |- context [(?n >=? 40) && (?n <=? 90)] =>
                       destruct ((n >=? 40) && (n <=? 90))
                   end; cbv beta;
                   [ apply (Hreturn public_key _ [] t Ht eq_refl); auto
                   | apply (Hraise _ [] t Ht); assumption ] ]).
    destruct (KeyUtils.is_encrypted private_key) eqn:Hrecognised.
    + destruct (KeyUtils.decrypt_private_key lib private_key) as [plain|e] eqn:Hdecrypt.
      * apply (Hreturn public_key (PStr plain) [] t Ht eq_refl); [|assumption..].
        right. exists private_key, plain. auto.
      * cbn [Val.len]. destruct ((_ >=? 40) && (_ <=? 90)); cbv beta.
        -- apply (Hreturn public_key _ [] t Ht eq_refl); auto.
        -- apply (Hraise _ [] t Ht); assumption.
    + destruct (upgrade_stored_key_run lib rt sv user_id wallet_data private_key t)
        as (evs & -> & Hwrites & Hstored').
      apply (Hreturn public_key _ evs _ eq_refl eq_refl); [now left | exact Hwrites |].
      intros s v Hin Hv. destruct (Hstored' s v Hin Hv) as (enc & Henc & ->).
      exists private_key, enc. auto.
  - (* no public key: nothing can be returned *)
    destruct stored as [| | |private_key| | |];
      try (cbn [Val.len raise];
           first [ apply (Hraise _ [] t Ht); assumption
                 | match goal with
                   | |- context [(?n >=? 40) && (?n <=? 90)] =>
                       destruct ((n >=? 40) && (n <=? 90))
                   end; cbv beta;
                   apply (Hraise _ [] t Ht); assumption ]).
    destruct (KeyUtils.is_encrypted private_key) eqn:Hrecognised.
    + destruct (KeyUtils.decrypt_private_key lib private_key) as [plain|e] eqn:Hdecrypt;
        cbn [Val.len]; try destruct ((_ >=? 40) && (_ <=? 90)); cbv beta;
        apply (Hraise _ [] t Ht); assumption.
    + destruct (upgrade_stored_key_run lib rt sv user_id wallet_data private_key t)
        as (evs & -> & Hwrites & Hstored').
      assert (Hs : forall s v, In s evs -> Law.stored_private_key s = Some v ->
                exists private_key0 encrypted_key,
                  Ok (PStr private_key) = Ok (PStr private_key0) /\
                  KeyUtils.is_encrypted private_key0 = false /\
                  KeyUtils.encrypt_private_key lib rt private_key0 = Ok encrypted_key /\
                  v = PStr encrypted_key).
      { intros s v Hin Hv. destruct (Hstored' s v Hin Hv) as (enc & Henc & ->).
        exists private_key, enc. auto. }
      cbn [Val.len]. destruct ((_ >=? 40) && (_ <=? 90)); cbv beta;
        now apply (Hraise _ evs _ eq_refl).
Qed.

Lemma get_wallet_never_raises lib rt sv user_id t :
  exists wallet t1, WalletService.get_wallet lib rt sv user_id t = (Ok wallet, t1).
Proof.
  unfold WalletService.get_wallet, Wire.try_catch, Wire.bind, Wire.ret.
  destruct (get_user_wallet_run sv user_id t) as (wallet_data & ->).
  destruct (truthy wallet_data); [|eauto].
  destruct (WalletService.unlock lib rt sv user_id wallet_data _) as [[v|e] t1]; eauto.
Qed.

(** X18: [get_wallet] never raises: it answers [None] or a wallet of a
    public key and a private key.  It writes to the store at most once,
    and the private key it writes is the encrypted form of a stored key
    that [is_encrypted] did not recognise: a key in the clear is never
    written.  The private key it returns is the stored one, as it is or
    decrypted. *)
Theorem get_wallet_never_stores_a_key_in_the_clear (lib : Lib) (rt : Runtime)
    (sv : Wire.Service) (user_id : Z) (t : Wire.trace) :
  exists v evs wallet_data t1,
    WalletService.get_wallet lib rt sv user_id t = (Ok v, t ++ evs) /\
    Firebase.get_user_wallet sv user_id t = (Ok wallet_data, t1) /\
    (Law.writes evs <= 1)%nat /\
    (forall s k, In s evs -> Law.stored_private_key s = Some k ->
       exists private_key encrypted_key,
         Val.getitem wallet_data "private_key" = Ok (PStr private_key) /\
         KeyUtils.is_encrypted private_key = false /\
         KeyUtils.encrypt_private_key lib rt private_key = Ok encrypted_key /\
         k = PStr encrypted_key) /\
    (v = PNone \/
     exists public_key stored key,
       v = WalletService.wallet_of public_key key /\
       Val.getitem wallet_data "public_key" = Ok public_key /\
       Val.getitem wallet_data "private_key" = Ok stored /\
       (key = stored \/
        exists private_key plain,
          stored = PStr private_key /\
          KeyUtils.is_encrypted private_key = true /\
          KeyUtils.decrypt_private_key lib private_key = Ok plain /\
          key = PStr plain)).
Proof.
  unfold WalletService.get_wallet, Wire.try_catch, Wire.bind, Wire.ret.
  destruct (get_user_wallet_run sv user_id t) as (wallet_data & Hget).
  rewrite Hget.
  set (asked := Wire.Call (Wire.GetDocument (Str.of_Z user_id))) in *.
  destruct (truthy wallet_data).
  - destruct (unlock_run lib rt sv user_id wallet_data (t ++ [asked]))
      as (r & evs & -> & Hwrites & Hstored & Hres).
    assert (Hw : (Law.writes (asked :: evs) <= 1)%nat).
    { unfold Law.writes in *. simpl. exact Hwrites. }
    assert (Hs : forall s k, In s (asked :: evs) -> Law.stored_private_key s = Some k ->
              exists private_key encrypted_key,
                Val.getitem wallet_data "private_key" = Ok (PStr private_key) /\
                KeyUtils.is_encrypted private_key = false /\
                KeyUtils.encrypt_private_key lib rt private_key = Ok encrypted_key /\
                k = PStr encrypted_key).
    { intros s k [<- | Hin] Hk; [discriminate|]. now apply (Hstored s k). }
    destruct r as [v|e].
    + exists v, (asked :: evs), wallet_data, (t ++ [asked]). rewrite <- app_assoc.
      split; [reflexivity|]. split; [reflexivity|]. split; [exact Hw|].
      split; [exact Hs|]. right. now apply Hres.
    + exists PNone, (asked :: evs), wallet_data, (t ++ [asked]). rewrite <- app_assoc.
      split; [reflexivity|]. split; [reflexivity|]. split; [exact Hw|].
      split; [exact Hs|]. now left.
  - exists PNone, [asked], wallet_data, (t ++ [asked]).
    split; [reflexivity|]. split; [reflexivity|].
    split; [unfold Law.writes; simpl; lia|].
    split; [|now left]. intros s k [<- | []]. discriminate.
Qed.

(** X19: a stored key that [is_encrypted] recognises and that cannot be
    decrypted makes [get_wallet] answer [None], as if the user had no
    wallet; nothing is written. *)
Theorem get_wallet_undecryptable (lib : Lib) (rt : Runtime) (sv : Wire.Service)
    (user_id : Z) (t : Wire.trace) (wallet_data : pyval) (t1 : Wire.trace)
    (private_key : string) (e : exn) :
  Firebase.get_user_wallet sv user_id t = (Ok wallet_data, t1) ->
  truthy wallet_data = true ->
  Val.getitem wallet_data "private_key" = Ok (PStr private_key) ->
  KeyUtils.is_encrypted private_key = true ->
  KeyUtils.decrypt_private_key_body lib private_key = Raise e ->
  WalletService.get_wallet lib rt sv user_id t = (Ok PNone, t1).
Proof.
  intros Hget Htruthy Hstored Hrecognised Hfail.
  destruct (decrypt_recognised lib private_key Hrecognised) as [Hlen Hdecrypt].
  rewrite Hfail in Hdecrypt.
  unfold WalletService.get_wallet, WalletService.unlock, Wire.try_catch, Wire.bind,
    Wire.lift, Wire.ret, Wire.rethrow.
  rewrite Hget, Htruthy, Hstored, Hrecognised, Hdecrypt. cbn [Val.len].
  replace (Str.len private_key <=? 90) with false by (symmetry; apply Z.leb_gt; lia).
  now rewrite andb_false_r.
Qed.

(** ** The wallet views ([get_sol_balance], [get_token_balance]) *)

Lemma sol_balance_of_cases lib response x :
  SolanaService.sol_balance_of lib response = Ok x ->
  x = SolanaService.zero \/
  exists lamports sol,
    Law.lamports_of_reply lib response lamports /\
    Float.int_div lamports Float.billion = Ok sol /\
    x = Float.round2 sol.
Proof.
  unfold SolanaService.sol_balance_of.
  assert (Hcaught : forall e : exn,
            (if is_instance e [KeyError; ValueError; TypeError; AttributeError]
             then Ok SolanaService.zero else Raise e) = Ok x ->
            x = SolanaService.zero).
  { intros e. destruct (is_instance e _); [|discriminate]. intros H. now injection H. }
  assert (Hdone : forall lamports,
            Law.lamports_of_reply lib response lamports ->
            match (final_balance <-? Float.int_div lamports Float.billion ;;
                   Ok (Float.round2 final_balance))%res with
            | Ok x0 => Ok x0
            | Raise e =>
                if is_instance e [KeyError; ValueError; TypeError; AttributeError]
                then Ok SolanaService.zero else Raise e
            end = Ok x ->
            x = SolanaService.zero \/
            exists lamports sol,
              Law.lamports_of_reply lib response lamports /\
              Float.int_div lamports Float.billion = Ok sol /\
              x = Float.round2 sol).
  { intros lamports Hl.
    destruct (Float.int_div lamports Float.billion) as [sol|e] eqn:Hdiv; simpl.
    - intros H. injection H as <-. right. exists lamports, sol. auto.
    - intros H. left. now apply (Hcaught e). }
  destruct (Val.hasattr response "value") eqn:Hattr.
  - destruct (Val.getattr response "value") as [v|e] eqn:Hv; simpl;
      [|intros H; left; now apply (Hcaught e)].
    destruct (Jupiter.py_int lib v) as [lamports|e] eqn:Hint; simpl;
      [|intros H; left; now apply (Hcaught e)].
    apply Hdone. left. exists v. auto.
  - destruct response as [| | | | |d|]; simpl;
      try (intros H; left; now injection H).
    destruct (assoc "result" d) as [r|] eqn:Hr; simpl;
      [|intros H; left; now injection H].
    destruct (Val.getitem r "value") as [v|e] eqn:Hv; simpl;
      [|intros H; left; now apply (Hcaught e)].
    destruct (Jupiter.py_int lib v) as [lamports|e] eqn:Hint; simpl;
      [|intros H; left; now apply (Hcaught e)].
    apply Hdone. right. exists d, r, v. auto.
Qed.

(** X20: [get_sol_balance] never raises.  It sends nothing when the
    address is refused as a public key, and one balance request
    otherwise.  The balance it answers is [0.0], or the lamports of the
    reply divided by [1e9] and rounded to two places. *)
Theorem get_sol_balance_answers (lib : Lib) (sv : Wire.Service) (public_key : string)
    (t : Wire.trace) :
  exists x evs,
    SolanaService.get_sol_balance lib sv public_key t = (Ok x, t ++ evs) /\
    match pubkey lib public_key with
    | Raise _ => evs = [] /\ x = SolanaService.zero
    | Ok owner =>
        evs = [Wire.Call (Wire.GetBalance owner)] /\
        (x = SolanaService.zero \/
         exists response lamports sol,
           Wire.answer sv t (Wire.GetBalance owner) = Ok response /\
           Law.lamports_of_reply lib response lamports /\
           Float.int_div lamports Float.billion = Ok sol /\
           x = Float.round2 sol)
    end.
Proof.
  unfold SolanaService.get_sol_balance, Wire.try_catch, Wire.bind, Wire.lift,
    Wire.ask, Wire.ret.
  destruct (pubkey lib public_key) as [owner|e].
  2:{ exists SolanaService.zero, []. now rewrite app_nil_r. }
  destruct (Wire.answer sv t (Wire.GetBalance owner)) as [response|e] eqn:Hanswer.
  2:{ exists SolanaService.zero, [Wire.Call (Wire.GetBalance owner)]. auto. }
  destruct (truthy response); cbn [negb].
  2:{ exists SolanaService.zero, [Wire.Call (Wire.GetBalance owner)]. auto. }
  destruct (SolanaService.sol_balance_of lib response) as [x|e] eqn:Hx.
  2:{ exists SolanaService.zero, [Wire.Call (Wire.GetBalance owner)]. auto. }
  exists x, [Wire.Call (Wire.GetBalance owner)]. split; [reflexivity|].
  split; [reflexivity|].
  destruct (sol_balance_of_cases lib response x Hx) as [-> | (lamports & sol & H1 & H2 & H3)];
    [now left | right].
  exists response, lamports, sol. auto.
Qed.


(** X22: a balance reply in the form of the node's JSON document, a
    [dict] whose [result] is a [dict] without entries [amount] and
    [decimals] of its own (they sit one level down, under [value]), is
    read as [0.0] whatever amount it carries. *)
Theorem token_balance_of_json_document (lib : Lib) (rt : Runtime)
    (d result : list (string * pyval)) :
  float_of_str lib "0" = Some SolanaService.zero ->
  assoc "result" d = Some (PDict result) ->
  assoc "amount" result = None ->
  assoc "decimals" result = None ->
  SolanaService.token_balance_of lib rt (PDict d) = Ok SolanaService.zero.
Proof.
  intros Hzero Hresult Hamount Hdecimals.
  unfold SolanaService.token_balance_of. cbn [Val.hasattr].
  rewrite Hresult. cbn [res_bind SolanaService.field].
  rewrite Hamount, Hdecimals. cbn [SolanaService.py_float]. rewrite Hzero.
  reflexivity.
Qed.

(** ** New wallets and exported keys ([create_wallet], [export_private_key]) *)

(** The runs of [create_wallet], by what the cipher, the clock and the
    store answer. *)
Lemma create_wallet_run lib rt sv user_id keypair t :
  let private_key := b58encode_text rt (secret_key keypair) in
  match KeyUtils.encrypt_private_key lib rt private_key with
  | Raise e =>
      WalletService.create_wallet lib rt sv user_id keypair t = (Raise e, t)
  | Ok encrypted_private_key =>
      match Wire.answer sv t Wire.UtcNow with
      | Raise e =>
          WalletService.create_wallet lib rt sv user_id keypair t
          = (Raise e, t ++ [Wire.Call Wire.UtcNow])
      | Ok now =>
          match isoformat rt now with
          | Raise e =>
              WalletService.create_wallet lib rt sv user_id keypair t
              = (Raise e, t ++ [Wire.Call Wire.UtcNow])
          | Ok created_at =>
              let wallet_data :=
                PDict [("public_key", PStr (public_key keypair));
                       ("private_key", PStr encrypted_private_key);
                       ("created_at", PStr created_at)] in
              exists evs,
                WalletService.create_wallet lib rt sv user_id keypair t
                = (Ok (WalletService.wallet_of (PStr (public_key keypair))
                         (PStr private_key)),
                   t ++ Wire.Call Wire.UtcNow :: Wire.Call Wire.UtcNow :: evs) /\
                match Wire.answer sv (t ++ [Wire.Call Wire.UtcNow]) Wire.UtcNow with
                | Raise _ => evs = []
                | Ok now' =>
                    evs = [Wire.Call (Wire.SetDocument (Str.of_Z user_id)
                                        (PDict [("wallet", wallet_data);
                                                ("updated_at", now')]))]
                end
          end
      end
  end.
Proof.
  cbv zeta. unfold WalletService.create_wallet, Wire.bind, Wire.lift, Wire.ask, Wire.ret.
  destruct (KeyUtils.encrypt_private_key lib rt _) as [enc|e]; [|reflexivity].
  destruct (Wire.answer sv t Wire.UtcNow) as [now|e]; [|reflexivity].
  destruct (isoformat rt now) as [created_at|e]; [|reflexivity].
  unfold Firebase.save_user_wallet, Wire.try_catch, Wire.bind, Wire.ask, Wire.ret.
  destruct (Wire.answer sv (t ++ [Wire.Call Wire.UtcNow]) Wire.UtcNow) as [now'|e].
  - eexists. split; [|reflexivity].
    destruct (Wire.answer sv _ (Wire.SetDocument _ _));
      now rewrite <- !app_assoc.
  - exists []. split; [|reflexivity]. now rewrite <- !app_assoc.
Qed.

(** X23: [create_wallet] writes to the store at most once, and the
    private key it writes is the new key encrypted, never the key
    itself.  When it returns, it returns the wallet of the new public
    key and of the new private key in the clear; when the key cannot be
    encrypted it raises the error of the encryption and nothing is
    asked of the store. *)
Theorem create_wallet_stores_the_encrypted_key (lib : Lib) (rt : Runtime)
    (sv : Wire.Service) (user_id : Z) (keypair : Keypair) (t : Wire.trace) :
  exists private_key r evs,
    private_key = b58encode_text rt (secret_key keypair) /\
    WalletService.create_wallet lib rt sv user_id keypair t = (r, t ++ evs) /\
    (Law.writes evs <= 1)%nat /\
    (forall s k, In s evs -> Law.stored_private_key s = Some k ->
       exists encrypted_private_key,
         KeyUtils.encrypt_private_key lib rt private_key = Ok encrypted_private_key /\
         k = PStr encrypted_private_key) /\
    (forall v, r = Ok v ->
       v = WalletService.wallet_of (PStr (public_key keypair)) (PStr private_key)) /\
    (forall e, KeyUtils.encrypt_private_key lib rt private_key = Raise e ->
       r = Raise e /\ evs = []).
Proof.
  exists (b58encode_text rt (secret_key keypair)).
  cut (exists r evs,
    WalletService.create_wallet lib rt sv user_id keypair t = (r, t ++ evs) /\
    (Law.writes evs <= 1)%nat /\
    (forall s k, In s evs -> Law.stored_private_key s = Some k ->
       exists encrypted_private_key,
         KeyUtils.encrypt_private_key lib rt (b58encode_text rt (secret_key keypair))
         = Ok encrypted_private_key /\
         k = PStr encrypted_private_key) /\
    (forall v, r = Ok v ->
       v = WalletService.wallet_of (PStr (public_key keypair))
             (PStr (b58encode_text rt (secret_key keypair)))) /\
    (forall e, KeyUtils.encrypt_private_key lib rt (b58encode_text rt (secret_key keypair))
               = Raise e ->
       r = Raise e /\ evs = [])).
  { intros (r & evs & H). exists r, evs. split; [reflexivity | exact H]. }
  pose proof (create_wallet_run lib rt sv user_id keypair t) as Hrun.
  cbv zeta in Hrun.
  destruct (KeyUtils.encrypt_private_key lib rt _) as [enc|e].
  2:{ exists (Raise e), []. rewrite app_nil_r. split; [exact Hrun|].
      split; [unfold Law.writes; simpl; lia|]. split; [intros s k []|].
      split; [discriminate|]. intros e' He. now injection He as <-. }
  destruct (Wire.answer sv t Wire.UtcNow) as [now|e].
  2:{ exists (Raise e), [Wire.Call Wire.UtcNow]. split; [exact Hrun|].
      split; [unfold Law.writes; simpl; lia|].
      split; [intros s k [<- | []]; discriminate|].
      split; discriminate. }
  destruct (isoformat rt now) as [created_at|e].
  2:{ exists (Raise e), [Wire.Call Wire.UtcNow]. split; [exact Hrun|].
      split; [unfold Law.writes; simpl; lia|].
      split; [intros s k [<- | []]; discriminate|].
      split; discriminate. }
  destruct Hrun as (evs & Hrun & Hevs).
  eexists _, _. split; [exact Hrun|].
  destruct (Wire.answer sv (t ++ [Wire.Call Wire.UtcNow]) Wire.UtcNow) as [now'|e];
    subst evs.
  - split; [unfold Law.writes; simpl; lia|]. split.
    + intros s k [<- | [<- | [<- | []]]]; try discriminate.
      simpl. intros H. injection H as <-. eauto.
    + split; [|discriminate]. intros v H. now injection H as <-.
  - split; [unfold Law.writes; simpl; lia|]. split.
    + intros s k [<- | [<- | []]]; discriminate.
    + split; [|discriminate]. intros v H. now injection H as <-.
Qed.

(** X24: [create_wallet] hands out the new wallet although the store
    refused to take it: the failure of the write stays inside
    [save_user_wallet], whose answer is not looked at. *)
Theorem create_wallet_ignores_a_refused_write (lib : Lib) (rt : Runtime)
    (sv : Wire.Service) (user_id : Z) (keypair : Keypair) (t : Wire.trace)
    (encrypted_private_key : string) (now now' : pyval) (created_at : string)
    (private_key : string) (document : pyval) (e : exn) :
  private_key = b58encode_text rt (secret_key keypair) ->
  document = PDict [("wallet", PDict [("public_key", PStr (public_key keypair));
                                      ("private_key", PStr encrypted_private_key);
                                      ("created_at", PStr created_at)]);
                    ("updated_at", now')] ->
  KeyUtils.encrypt_private_key lib rt private_key = Ok encrypted_private_key ->
  Wire.answer sv t Wire.UtcNow = Ok now ->
  isoformat rt now = Ok created_at ->
  Wire.answer sv (t ++ [Wire.Call Wire.UtcNow]) Wire.UtcNow = Ok now' ->
  Wire.answer sv (t ++ [Wire.Call Wire.UtcNow; Wire.Call Wire.UtcNow])
    (Wire.SetDocument (Str.of_Z user_id) document) = Raise e ->
  WalletService.create_wallet lib rt sv user_id keypair t
  = (Ok (WalletService.wallet_of (PStr (public_key keypair)) (PStr private_key)),
     t ++ [Wire.Call Wire.UtcNow; Wire.Call Wire.UtcNow;
           Wire.Call (Wire.SetDocument (Str.of_Z user_id) document)]).
Proof.
  intros -> -> Henc Hnow Hiso Hnow' Hset.
  pose proof (create_wallet_run lib rt sv user_id keypair t) as Hrun.
  cbv zeta in Hrun. rewrite Henc, Hnow, Hiso, Hnow' in Hrun.
  destruct Hrun as (evs & Hrun & ->). exact Hrun.
Qed.

Lemma last_wallet_app id t t' found :
  Law.last_wallet id (t ++ t') found = Law.last_wallet id t' (Law.last_wallet id t found).
Proof.
  revert found. induction t as [|s t IH]; intros found; [reflexivity|].
  destruct s as [c|seconds]; [|apply IH].
  destruct c; try apply IH. simpl. destruct data; apply IH.
Qed.

Lemma get_user_wallet_holds sv user_id t data wallet_data :
  Wire.answer sv t (Wire.GetDocument (Str.of_Z user_id)) = Ok data ->
  data <> PNone ->
  Val.get data "wallet" PNone = Ok wallet_data ->
  Firebase.get_user_wallet sv user_id t
  = (Ok wallet_data, t ++ [Wire.Call (Wire.GetDocument (Str.of_Z user_id))]).
Proof.
  intros Hdata Hsome Hwallet.
  unfold Firebase.get_user_wallet, Wire.try_catch, Wire.bind, Wire.ask, Wire.lift,
    Wire.ret.
  rewrite Hdata. destruct data; try congruence; now rewrite Hwallet.
Qed.

(** A stored key that [is_encrypted] recognises and that the cipher
    opens: [get_wallet] reads the store once and returns the wallet with
    the key in the clear. *)
Lemma get_wallet_decrypts lib rt sv user_id t public_key encrypted_key private_key :
  Law.holds_wallet sv t (Str.of_Z user_id) public_key (PStr encrypted_key) ->
  KeyUtils.is_encrypted encrypted_key = true ->
  KeyUtils.decrypt_private_key_body lib encrypted_key = Ok private_key ->
  WalletService.get_wallet lib rt sv user_id t
  = (Ok (WalletService.wallet_of public_key (PStr private_key)),
     t ++ [Wire.Call (Wire.GetDocument (Str.of_Z user_id))]).
Proof.
  intros (data & wallet_data & Hdata & Hsome & Hwallet & Hpub & Hkey) Hrecognised Hopen.
  assert (Hdecrypt : KeyUtils.decrypt_private_key lib encrypted_key = Ok private_key).
  { unfold KeyUtils.decrypt_private_key. now rewrite Hopen. }
  assert (Htruthy : truthy wallet_data = true).
  { destruct wallet_data as [| | | | |d|]; try discriminate.
    destruct d; [discriminate | reflexivity]. }
  unfold WalletService.get_wallet, Wire.try_catch, Wire.bind.
  rewrite (get_user_wallet_holds sv user_id t data wallet_data Hdata Hsome Hwallet).
  rewrite Htruthy.
  unfold WalletService.unlock, Wire.try_catch, Wire.bind, Wire.lift, Wire.ret.
  rewrite Hkey. cbn [Val.len]. rewrite Hrecognised, Hdecrypt, Hpub. reflexivity.
Qed.

(** X25: a wallet made by [create_wallet] comes back from [get_wallet].
    With a clock that answers, a cipher that opens what it has closed
    and whose texts [is_encrypted] recognises, and a store that reads
    back the wallet written last, [get_wallet] returns what
    [create_wallet] returned, after one read of the store. *)
Theorem get_wallet_after_create_wallet (lib : Lib) (rt : Runtime) (sv : Wire.Service)
    (user_id : Z) (keypair : Keypair) (t : Wire.trace) (wallet : pyval)
    (t1 : Wire.trace) (private_key : string) :
  private_key = b58encode_text rt (secret_key keypair) ->
  (forall t', exists now, Wire.answer sv t' Wire.UtcNow = Ok now) ->
  (forall encrypted_private_key,
     KeyUtils.encrypt_private_key lib rt private_key = Ok encrypted_private_key ->
     KeyUtils.is_encrypted encrypted_private_key = true /\
     KeyUtils.decrypt_private_key_body lib encrypted_private_key = Ok private_key) ->
  WalletService.create_wallet lib rt sv user_id keypair t = (Ok wallet, t1) ->
  Law.reads_back sv t1 (Str.of_Z user_id) ->
  WalletService.get_wallet lib rt sv user_id t1
  = (Ok wallet, t1 ++ [Wire.Call (Wire.GetDocument (Str.of_Z user_id))]).
Proof.
  intros -> Hclock Hcipher Hcreate Hstore.
  pose proof (create_wallet_run lib rt sv user_id keypair t) as Hrun.
  cbv zeta in Hrun.
  destruct (KeyUtils.encrypt_private_key lib rt _) as [enc|e] eqn:Henc;
    [|congruence].
  destruct (Hcipher enc eq_refl) as [Hrecognised Hopen].
  destruct (Wire.answer sv t Wire.UtcNow) as [now|e]; [|congruence].
  destruct (isoformat rt now) as [created_at|e]; [|congruence].
  destruct Hrun as (evs & Hrun & Hevs).
  destruct (Hclock (t ++ [Wire.Call Wire.UtcNow])) as (now' & Hnow').
  rewrite Hnow' in Hevs. subst evs.
  rewrite Hcreate in Hrun. injection Hrun as -> ->.
  apply get_wallet_decrypts with (encrypted_key := enc); [|assumption..].
  unfold Law.reads_back in Hstore. rewrite last_wallet_app in Hstore.
  cbn [Law.last_wallet assoc] in Hstore. rewrite String.eqb_refl in Hstore.
  cbn in Hstore.
  destruct Hstore as (data & Hdata & Hsome & Hwallet).
  exists data. eexists. split; [exact Hdata|]. split; [exact Hsome|].
  split; [exact Hwallet|]. split; reflexivity.
Qed.

(** X26: a key stored in the clear is encrypted at the first read.
    With a stored key that [is_encrypted] does not recognise, a cipher
    and a clock in working order, [get_wallet] returns the wallet with
    the key as stored and asks the store to replace the key by its
    encrypted form. *)
Theorem get_wallet_encrypts_a_stored_key (lib : Lib) (rt : Runtime) (sv : Wire.Service)
    (user_id : Z) (t : Wire.trace) (public_key : pyval)
    (private_key encrypted_key : string) (now now' : pyval) (updated_at : string)
    (read : Wire.step) :
  read = Wire.Call (Wire.GetDocument (Str.of_Z user_id)) ->
  Law.holds_wallet sv t (Str.of_Z user_id) public_key (PStr private_key) ->
  KeyUtils.is_encrypted private_key = false ->
  KeyUtils.encrypt_private_key lib rt private_key = Ok encrypted_key ->
  Wire.answer sv (t ++ [read]) Wire.UtcNow = Ok now ->
  isoformat rt now = Ok updated_at ->
  Wire.answer sv (t ++ [read; Wire.Call Wire.UtcNow]) Wire.UtcNow = Ok now' ->
  WalletService.get_wallet lib rt sv user_id t
  = (Ok (WalletService.wallet_of public_key (PStr private_key)),
     t ++ [read; Wire.Call Wire.UtcNow; Wire.Call Wire.UtcNow;
           Wire.Call (Wire.SetDocument (Str.of_Z user_id)
                        (PDict [("wallet",
                                 PDict [("public_key", public_key);
                                        ("private_key", PStr encrypted_key);
                                        ("updated_at", PStr updated_at)]);
                                ("updated_at", now')]))]).
Proof.
  intros ->.
  intros (data & wallet_data & Hdata & Hsome & Hwallet & Hpub & Hkey)
    Hplain Henc Hnow Hiso Hnow'.
  assert (Htruthy : truthy wallet_data = true).
  { destruct wallet_data as [| | | | |d|]; try discriminate.
    destruct d; [discriminate | reflexivity]. }
  unfold WalletService.get_wallet, Wire.try_catch, Wire.bind.
  rewrite (get_user_wallet_holds sv user_id t data wallet_data Hdata Hsome Hwallet).
  rewrite Htruthy.
  unfold WalletService.unlock, WalletService.upgrade_stored_key,
    Firebase.save_user_wallet, Wire.try_catch, Wire.bind, Wire.lift, Wire.ask,
    Wire.ret.
  rewrite Hkey. cbn [Val.len]. rewrite Hplain, Henc, Hpub, Hnow, Hiso.
  rewrite <- !app_assoc. cbn [app]. rewrite Hnow'.
  destruct (Wire.answer sv _ (Wire.SetDocument _ _));
    rewrite <- !app_assoc; reflexivity.
Qed.

(** X27: [export_private_key] never raises.  It answers [None] or the
    private key of the wallet that [get_wallet] returns at this point,
    and [None] whenever [get_wallet] does.  After the steps of
    [get_wallet] it writes at most once, and never a private key. *)
Theorem export_private_key_answers (lib : Lib) (rt : Runtime) (sv : Wire.Service)
    (user_id : Z) (t : Wire.trace) :
  exists v wallet t1 evs,
    WalletService.get_wallet lib rt sv user_id t = (Ok wallet, t1) /\
    WalletService.export_private_key lib rt sv user_id t = (Ok v, t1 ++ evs) /\
    (Law.writes evs <= 1)%nat /\
    (forall s, In s evs -> Law.stored_private_key s = None) /\
    (v = PNone \/ Val.getitem wallet "private_key" = Ok v) /\
    (wallet = PNone -> v = PNone /\ evs = []).
Proof.
  destruct (get_wallet_never_raises lib rt sv user_id t) as (wallet & t1 & Hget).
  unfold WalletService.export_private_key, Wire.try_catch, Wire.bind, Wire.ask,
    Wire.lift, Wire.ret.
  rewrite Hget.
  destruct (truthy wallet) eqn:Htruthy.
  2:{ exists PNone, wallet, t1, []. rewrite app_nil_r.
      split; [reflexivity|]. split; [reflexivity|].
      split; [unfold Law.writes; simpl; lia|]. split; [intros s []|]. auto. }
  destruct (Wire.answer sv t1 Wire.UtcNow) as [now|e].
  2:{ exists PNone, wallet, t1, [Wire.Call Wire.UtcNow].
      split; [reflexivity|]. split; [reflexivity|].
      split; [unfold Law.writes; simpl; lia|].
      split; [intros s [<- | []]; reflexivity|].
      split; [now left|]. intros ->. discriminate. }
  unfold Firebase.save_export_timestamp, Wire.try_catch, Wire.bind, Wire.ask, Wire.ret.
  destruct (Wire.answer sv (t1 ++ [Wire.Call Wire.UtcNow]) Wire.UtcNow) as [now'|e].
  - destruct (Wire.answer sv _ (Wire.SetDocument _ _)) as [ok|e];
      destruct (Val.getitem wallet "private_key") as [key|e'] eqn:Hkey;
      [exists key | exists PNone | exists key | exists PNone];
      exists wallet, t1,
        [Wire.Call Wire.UtcNow; Wire.Call Wire.UtcNow;
         Wire.Call (Wire.SetDocument (Str.of_Z user_id)
                      (PDict [("last_export", now); ("updated_at", now')]))];
      (split; [reflexivity|]); rewrite <- !app_assoc; cbn [app];
      (split; [reflexivity|]);
      (split; [unfold Law.writes; simpl; lia|]);
      (split; [intros s [<- | [<- | [<- | []]]]; reflexivity|]);
      (split; [auto|]); intros ->; discriminate.
  - destruct (Val.getitem wallet "private_key") as [key|e'] eqn:Hkey;
      [exists key | exists PNone];
      exists wallet, t1, [Wire.Call Wire.UtcNow; Wire.Call Wire.UtcNow];
      (split; [reflexivity|]); rewrite <- !app_assoc; cbn [app];
      (split; [reflexivity|]);
      (split; [unfold Law.writes; simpl; lia|]);
      (split; [intros s [<- | [<- | []]]; reflexivity|]);
      (split; [auto|]); intros ->; discriminate.
Qed.

(** ** Prices through the aggregator ([get_token_price_jupiter]) *)

Lemma get_token_decimals_run cfg w token_address h :
  exists v,
    Jupiter.get_token_decimals cfg w token_address h
    = (Ok v, h ++ [Http (HttpPost (SOLANA_RPC_URL cfg) []
                           (Jupiter.token_supply_payload (PInt 1) token_address))]) /\
    (v = PInt 9 \/
     Spec.decimals_reply w h
       (HttpPost (SOLANA_RPC_URL cfg) []
          (Jupiter.token_supply_payload (PInt 1) token_address)) v).
Proof.
  unfold Jupiter.get_token_decimals, try_catch, bind, http_call, lift, ret.
  destruct (http w h _) as [reply|e] eqn:Hhttp; [|eauto].
  destruct (status reply =? 200) eqn:Hstatus; cbn [negb]; [|eauto].
  apply Z.eqb_eq in Hstatus.
  destruct (json reply) as [data|e] eqn:Hjson; [|eauto].
  destruct (Val.contains "error" data) as [[|]|e] eqn:Herror; [eauto| |eauto].
  destruct (Jupiter.decimals_of_reply data) as [d|e] eqn:Hd; [|eauto].
  exists d. split; [reflexivity|]. right. exists reply, data. auto.
Qed.

(** A route that [get_best_route] returns is the JSON document of a
    reply with status 200 to its one request. *)
Lemma get_best_route_returns cfg lib w input_mint output_mint amount slippage h route h' :
  Jupiter.get_best_route cfg lib w input_mint output_mint amount slippage h
  = (Ok route, h') ->
  exists bps reply,
    Jupiter.slippage_bps slippage = Ok bps /\
    h' = h ++ [Spec.quote_request cfg input_mint output_mint amount bps] /\
    http w h (HttpGet (Jupiter.quote_api_url cfg) (Jupiter.headers cfg)
                [("inputMint", input_mint);
                 ("outputMint", output_mint);
                 ("amount", amount);
                 ("slippageBps", bps);
                 ("platformFeeBps", Str.of_Z JUPITER_PLATFORM_FEE_BPS);
                 ("platformFeeAccount", JUPITER_PLATFORM_FEE_ACCOUNT)]) = Ok reply /\
    status reply = 200 /\ json reply = Ok route.
Proof.
  unfold Jupiter.get_best_route, bind, lift, http_call, ret, throw.
  destruct (pubkey lib output_mint) as [k|e]; [|discriminate].
  destruct (Jupiter.slippage_bps slippage) as [bps|e]; [|discriminate].
  match goal with |- context [http w h ?rq] => destruct (http w h rq) as [reply|e] eqn:Hhttp end;
    [|discriminate].
  destruct (status reply =? 200) eqn:Hstatus; cbn [negb].
  - apply Z.eqb_eq in Hstatus.
    destruct (json reply) as [data|e] eqn:Hjson; [|discriminate].
    destruct (Jupiter.log_platform_fee data); [|discriminate].
    intros H. injection H as <- <-. exists bps, reply. auto.
  - destruct (json reply) as [data|e]; [|discriminate].
    destruct (Val.get data "error" (PStr "Unknown error")); discriminate.
Qed.

(** X28: [get_token_price_jupiter] never raises.  It asks the node for
    the decimals of the token and then, at most, the aggregator for one
    quote: the sale of one whole token, [10 ** decimals] units, for SOL
    at a slippage of 1000 basis points, with 9 for the decimals when the
    node does not give them.  The price it answers is [0.0], or the
    [outAmount] of the quote divided by [1e9] and multiplied by the
    price of SOL. *)
Theorem get_token_price_jupiter_quotes_one_token (cfg : Config) (lib : Lib) (w : World)
    (token_mint : string) (sol_price_usd : spec_float) (h : history) :
  exists x evs supply,
    supply = HttpPost (SOLANA_RPC_URL cfg) []
               (Jupiter.token_supply_payload (PInt 1) token_mint) /\
    PriceService.get_token_price_jupiter cfg lib w token_mint sol_price_usd h
    = (Ok x, h ++ evs) /\
    ((evs = [Http supply] /\ x = S754_zero false) \/
     exists decimals amount,
       (decimals = PInt 9 \/ Spec.decimals_reply w h supply decimals) /\
       Val.pow10 decimals = Ok amount /\
       evs = [Http supply;
              Spec.quote_request cfg token_mint Jupiter.SOL_MINT (Str.of_Z amount) "1000"] /\
       (x = S754_zero false \/
        exists reply route out lamports out_amount,
          http w (h ++ [Http supply])
            (HttpGet (Jupiter.quote_api_url cfg) (Jupiter.headers cfg)
               [("inputMint", token_mint);
                ("outputMint", Jupiter.SOL_MINT);
                ("amount", Str.of_Z amount);
                ("slippageBps", "1000");
                ("platformFeeBps", Str.of_Z JUPITER_PLATFORM_FEE_BPS);
                ("platformFeeAccount", JUPITER_PLATFORM_FEE_ACCOUNT)]) = Ok reply /\
          status reply = 200 /\ json reply = Ok route /\
          Val.getitem route "outAmount" = Ok out /\
          Jupiter.py_int lib out = Ok lamports /\
          Float.int_div lamports Float.billion = Ok out_amount /\
          x = Float.mul out_amount sol_price_usd)).
Proof.
  set (supply := HttpPost (SOLANA_RPC_URL cfg) []
                   (Jupiter.token_supply_payload (PInt 1) token_mint)).
  assert (Hbps : Jupiter.slippage_bps Jupiter.slippage_10 = Ok "1000")
    by (vm_compute; reflexivity).
  destruct (get_token_decimals_run cfg w token_mint h) as (decimals & Hdec & Hwhich).
  fold supply in Hdec, Hwhich.
  unfold PriceService.get_token_price_jupiter.
  unfold try_catch at 1. unfold bind at 1. unfold try_catch at 1. rewrite Hdec.
  unfold bind at 1. unfold lift at 1.
  destruct (Val.pow10 decimals) as [amount|e] eqn:Hpow.
  2:{ exists (S754_zero false), [Http supply], supply. auto. }
  unfold bind at 1.
  pose proof (get_best_route_requests cfg lib w token_mint Jupiter.SOL_MINT
                (Str.of_Z amount) Jupiter.slippage_10 (h ++ [Http supply])) as Hreq.
  rewrite Hbps in Hreq.
  destruct (Jupiter.get_best_route cfg lib w token_mint Jupiter.SOL_MINT
              (Str.of_Z amount) Jupiter.slippage_10 (h ++ [Http supply]))
    as [[route|e] h'] eqn:Hroute.
  2:{ (* no route *)
      destruct (pubkey lib Jupiter.SOL_MINT) as [k|e0].
      - simpl in Hreq. subst h'.
        exists (S754_zero false),
          [Http supply;
           Spec.quote_request cfg token_mint Jupiter.SOL_MINT (Str.of_Z amount) "1000"],
          supply.
        split; [reflexivity|].
        rewrite <- app_assoc. split; [reflexivity|]. right.
        exists decimals, amount. auto.
      - injection Hreq as _ ->.
        exists (S754_zero false), [Http supply], supply. auto. }
  destruct (get_best_route_returns _ _ _ _ _ _ _ _ _ _ Hroute)
    as (bps & reply & Hbps' & -> & Hhttp & Hstatus & Hjson).
  rewrite Hbps in Hbps'. injection Hbps' as <-.
  assert (Hend : forall x,
            (x = S754_zero false \/
             exists out lamports out_amount,
               Val.getitem route "outAmount" = Ok out /\
               Jupiter.py_int lib out = Ok lamports /\
               Float.int_div lamports Float.billion = Ok out_amount /\
               x = Float.mul out_amount sol_price_usd) ->
            exists x0 evs supply0,
              supply0 = supply /\
              (Ok x : res spec_float,
               (h ++ [Http supply])
                 ++ [Spec.quote_request cfg token_mint Jupiter.SOL_MINT
                       (Str.of_Z amount) "1000"])
              = (Ok x0, h ++ evs) /\
              ((evs = [Http supply0] /\ x0 = S754_zero false) \/
               exists decimals0 amount0,
                 (decimals0 = PInt 9 \/ Spec.decimals_reply w h supply0 decimals0) /\
                 Val.pow10 decimals0 = Ok amount0 /\
                 evs = [Http supply0;
                        Spec.quote_request cfg token_mint Jupiter.SOL_MINT
                          (Str.of_Z amount0) "1000"] /\
                 (x0 = S754_zero false \/
                  exists reply0 route0 out lamports out_amount,
                    http w (h ++ [Http supply0])
                      (HttpGet (Jupiter.quote_api_url cfg) (Jupiter.headers cfg)
                         [("inputMint", token_mint);
                          ("outputMint", Jupiter.SOL_MINT);
                          ("amount", Str.of_Z amount0);
                          ("slippageBps", "1000");
                          ("platformFeeBps", Str.of_Z JUPITER_PLATFORM_FEE_BPS);
                          ("platformFeeAccount", JUPITER_PLATFORM_FEE_ACCOUNT)])
                    = Ok reply0 /\
                    status reply0 = 200 /\ json reply0 = Ok route0 /\
                    Val.getitem route0 "outAmount" = Ok out /\
                    Jupiter.py_int lib out = Ok lamports /\
                    Float.int_div lamports Float.billion = Ok out_amount /\
                    x0 = Float.mul out_amount sol_price_usd))).
  { intros x Hx.
    exists x,
      [Http supply;
       Spec.quote_request cfg token_mint Jupiter.SOL_MINT (Str.of_Z amount) "1000"],
      supply.
    split; [reflexivity|].
    rewrite <- app_assoc. split; [reflexivity|]. right.
    exists decimals, amount. split; [exact Hwhich|]. split; [exact Hpow|].
    split; [reflexivity|].
    destruct Hx as [-> | (out & lamports & out_amount & H1 & H2 & H3 & ->)];
      [now left | right].
    exists reply, route, out, lamports, out_amount. auto 10. }
  unfold bind, lift, ret.
  destruct (truthy route); cbn [negb]; [|apply Hend; now left].
  destruct (Val.get route "outAmount" PNone) as [out0|e]; [|apply Hend; now left].
  destruct (truthy out0); cbn [negb]; [|apply Hend; now left].
  destruct (Val.getitem route "outAmount") as [out|e] eqn:Hout; [|apply Hend; now left].
  destruct (Jupiter.py_int lib out) as [lamports|e] eqn:Hint; [|apply Hend; now left].
  destruct (Float.int_div lamports Float.billion) as [out_amount|e] eqn:Hdiv;
    [|apply Hend; now left].
  apply Hend. right. exists out, lamports, out_amount. auto.
Qed.

(** ** The encryption of stored keys ([encrypt_user_private_key]) *)

(** The test of the script and [is_encrypted] agree on every [str]. *)
Lemma looks_encrypted_is_encrypted key :
  Migration.looks_encrypted (PStr key) = Ok (KeyUtils.is_encrypted key).
Proof.
  unfold Migration.looks_encrypted, KeyUtils.is_encrypted. cbn.
  destruct (Str.len key >? 100); [now rewrite andb_true_r | now rewrite andb_false_r].
Qed.

Lemma assoc_set_entry_same k v d :
  assoc k (Migration.set_entry k v d) = Some v.
Proof.
  induction d as [|[k' v'] d IH]; cbn.
  - now rewrite String.eqb_refl.
  - destruct (String.eqb k k') eqn:Hk; cbn; rewrite ?String.eqb_refl, ?Hk; auto.
Qed.

Lemma assoc_set_entry_other k k0 v d :
  k0 <> k -> assoc k0 (Migration.set_entry k v d) = assoc k0 d.
Proof.
  intros Hne. apply String.eqb_neq in Hne.
  induction d as [|[k' v'] d IH]; cbn.
  - now rewrite Hne.
  - destruct (String.eqb k k') eqn:Hk; cbn.
    + apply String.eqb_eq in Hk. subst k'. now rewrite Hne.
    + now rewrite IH.
Qed.

Lemma stored_wallet_found d key :
  assoc "private_key" d = Some key ->
  truthy (PDict d) = true /\ Val.contains "private_key" (PDict d) = Ok true /\
  Val.getitem (PDict d) "private_key" = Ok key.
Proof.
  intros H. cbn. rewrite H. destruct d; [discriminate|]. auto.
Qed.

(** X29: a stored key that [is_encrypted] recognises is left alone by
    [encrypt_user_private_key]: it answers [True] after the read of the
    wallet and writes nothing, so that encrypting the keys twice does
    not encrypt a key twice. *)
Theorem encrypt_user_private_key_leaves_encrypted_keys (lib : Lib) (rt : Runtime)
    (sv : Wire.Service) (user_id : Z) (t : Wire.trace)
    (d : list (string * pyval)) (private_key : string) (t1 : Wire.trace) :
  Firebase.get_user_wallet sv user_id t = (Ok (PDict d), t1) ->
  assoc "private_key" d = Some (PStr private_key) ->
  KeyUtils.is_encrypted private_key = true ->
  Migration.encrypt_user_private_key lib rt sv user_id t = (Ok true, t1).
Proof.
  intros Hget Hkey Hrecognised.
  destruct (stored_wallet_found d _ Hkey) as (Htruthy & Hhas & Hitem).
  unfold Migration.encrypt_user_private_key, Wire.bind, Wire.try_catch, Wire.lift,
    Wire.ret.
  rewrite Hget, Htruthy, Hhas, Hitem. cbn [negb].
  now rewrite looks_encrypted_is_encrypted, Hrecognised.
Qed.

(** X30: for a stored key that [is_encrypted] does not recognise,
    [encrypt_user_private_key] never raises and writes at most once.
    The wallet it writes is the stored wallet with the private key
    replaced by its encrypted form and every other entry as it was.  It
    answers [True] only after a write. *)
Theorem encrypt_user_private_key_replaces_only_the_key (lib : Lib) (rt : Runtime)
    (sv : Wire.Service) (user_id : Z) (t : Wire.trace)
    (d : list (string * pyval)) (private_key : string) (t1 : Wire.trace) :
  Firebase.get_user_wallet sv user_id t = (Ok (PDict d), t1) ->
  assoc "private_key" d = Some (PStr private_key) ->
  KeyUtils.is_encrypted private_key = false ->
  exists ok evs,
    Migration.encrypt_user_private_key lib rt sv user_id t = (Ok ok, t1 ++ evs) /\
    (Law.writes evs <= 1)%nat /\
    (forall s wallet, In s evs -> Law.stored_wallet s = Some wallet ->
       exists encrypted_key d',
         KeyUtils.encrypt_private_key lib rt private_key = Ok encrypted_key /\
         wallet = PDict d' /\
         assoc "private_key" d' = Some (PStr encrypted_key) /\
         forall k, k <> "private_key" -> assoc k d' = assoc k d) /\
    (ok = true -> Law.writes evs = 1%nat).
Proof.
  intros Hget Hkey Hplain.
  destruct (stored_wallet_found d _ Hkey) as (Htruthy & Hhas & Hitem).
  unfold Migration.encrypt_user_private_key, Wire.bind, Wire.try_catch, Wire.lift,
    Wire.ret.
  rewrite Hget, Htruthy, Hhas, Hitem. cbn [negb].
  rewrite looks_encrypted_is_encrypted, Hplain. cbn [Migration.encrypt_value].
  destruct (KeyUtils.encrypt_private_key lib rt private_key) as [encrypted_key|e].
  2:{ exists false, []. rewrite app_nil_r. split; [reflexivity|].
      split; [unfold Law.writes; simpl; lia|]. split; [intros s wallet []|discriminate]. }
  destruct (save_user_wallet_run sv user_id
              (PDict (Migration.set_entry "private_key" (PStr encrypted_key) d)) t1)
    as (ok & evs & Hsave & Hevs).
  rewrite Hsave. exists ok, evs. split; [reflexivity|].
  unfold Firebase.save_user_wallet, Wire.try_catch, Wire.bind, Wire.ask, Wire.ret
    in Hsave.
  destruct Hevs as [-> | (now & ->)].
  - split; [unfold Law.writes; simpl; lia|].
    split; [intros s wallet [<- | []]; discriminate|].
    intros ->. exfalso.
    destruct (Wire.answer sv t1 Wire.UtcNow) as [now|e]; [|discriminate].
    destruct (Wire.answer sv _ (Wire.SetDocument _ _)); [|discriminate].
    injection Hsave as Hsave. rewrite <- app_assoc in Hsave.
    apply app_inv_head in Hsave. discriminate.
  - split; [unfold Law.writes; simpl; lia|]. split; [|reflexivity].
    intros s wallet [<- | [<- | []]]; [discriminate|].
    cbn. intros H. injection H as <-.
    exists encrypted_key, (Migration.set_entry "private_key" (PStr encrypted_key) d).
    split; [reflexivity|]. split; [reflexivity|].
    split; [apply assoc_set_entry_same|].
    intros k Hk. now apply assoc_set_entry_other.
Qed.

(** ** Runs on the sample environments *)

(** Three attempts allowed against a node in working order. *)
Lemma get_blockhash_with_retry_policy_witness :
  exists n,
    Z.of_nat n < 3 /\
    snd (Jupiter.get_blockhash_with_retry Demo.lib Demo.transfer_world 3 [])
    = [] ++ Law.failed_blockhash_attempts n ++ [Rpc GetLatestBlockhash] /\
    (forall j blockhash, (j < n)%nat ->
       ~ Law.blockhash_reply Demo.transfer_world
           ([] ++ Law.failed_blockhash_attempts j) blockhash) /\
    match fst (Jupiter.get_blockhash_with_retry Demo.lib Demo.transfer_world 3 []) with
    | Ok v =>
        exists blockhash,
          Law.blockhash_reply Demo.transfer_world
            ([] ++ Law.failed_blockhash_attempts n) blockhash /\
          v = PStr (py_str Demo.lib blockhash)
    | Raise e =>
        Z.of_nat n = 3 - 1 /\
        (forall blockhash,
           ~ Law.blockhash_reply Demo.transfer_world
               ([] ++ Law.failed_blockhash_attempts n) blockhash) /\
        e = Law.blockhash_failed 3
    end.
Proof.
  apply (get_blockhash_with_retry_policy Demo.lib Demo.transfer_world 3 []). lia.
Defined.

(** The same sale against a node that confirms nothing. *)
Lemma status_replies_change_nothing_witness :
  Jupiter.execute_sell Demo.cfg Demo.lib_int Demo.accepting_world
    Demo.wallet Demo.key44 Jupiter.USDC_MINT (Jupiter.SellInt 1000000) []
  = Jupiter.execute_sell Demo.cfg Demo.lib_int Sample.unconfirmed_world
      Demo.wallet Demo.key44 Jupiter.USDC_MINT (Jupiter.SellInt 1000000) [].
Proof.
  apply (status_replies_change_nothing Demo.cfg Demo.lib_int
           Demo.accepting_world Sample.unconfirmed_world []).
  split.
  - reflexivity.
  - intros h rq Hrq. destruct rq; try reflexivity. now destruct (Hrq signatures).
Defined.



(** A tenth of a lamport. *)
Lemma to_lamports_below_one_unit_witness :
  Utils.to_lamports Demo.lib (Utils.AmtDecimal Sample.tenth_of_a_unit) 9 = Ok 0.
Proof.
  apply (to_lamports_below_one_unit Demo.lib (Utils.AmtDecimal Sample.tenth_of_a_unit)
           9 1 (-10) (1 # 10000000000)).
  - reflexivity.
  - reflexivity.
  - reflexivity.
  - unfold Dec.Emin. lia.
  - reflexivity.
  - reflexivity.
Defined.



(** A wallet address of five characters. *)
Lemma execute_sell_rejects_bad_addresses_witness :
  exists s,
    Jupiter.execute_sell Demo.cfg Demo.lib Demo.accepting_world "short" Demo.key44
      Jupiter.USDC_MINT (Jupiter.SellInt 1) []
    = (Ok s, []) /\
    Spec.error_message s.
Proof.
  apply (execute_sell_rejects_bad_addresses Demo.cfg Demo.lib Demo.accepting_world
           "short" Demo.key44 Jupiter.USDC_MINT (Jupiter.SellInt 1) []).
  left. vm_compute. reflexivity.
Defined.

(** A node that is down: the lookup answers [(0, 9)] after one request. *)
Lemma execute_sell_zero_balance_witness :
  Jupiter.execute_sell Demo.cfg Demo.lib (Demo.refusing_world "down") Demo.wallet
    Demo.key44 Jupiter.USDC_MINT (Jupiter.SellInt 1) []
  = (Ok ("❌ Ошибка: Не удалось получить баланс токена " +:+ Jupiter.USDC_MINT),
     [Http (Law.supply_request Demo.cfg Jupiter.USDC_MINT)]).
Proof.
  apply (execute_sell_zero_balance Demo.cfg Demo.lib (Demo.refusing_world "down")
           Demo.wallet Demo.key44 Jupiter.USDC_MINT (Jupiter.SellInt 1) []
           Demo.bytes32 Demo.wallet Jupiter.USDC_MINT (PInt 9)).
  - vm_compute. discriminate.
  - reflexivity.
  - reflexivity.
  - reflexivity.
  - reflexivity.
  - reflexivity.
Defined.
(** Three attempts allowed against a node that confirms at once. *)
Lemma confirm_transaction_with_retry_policy_witness :
  exists n,
    Z.of_nat n < 3 /\
    snd (SolanaClient.confirm_transaction_with_retry Sample.node (PStr "5sigABC") 3 [])
    = [] ++ Law.unconfirmed_attempts (PStr "5sigABC") n
        ++ [Wire.Call (Wire.ConfirmTransaction (Law.unwrapped (S n) (PStr "5sigABC")))] /\
    (forall j, (j < n)%nat ->
       ~ Law.confirmed_reply Sample.node ([] ++ Law.unconfirmed_attempts (PStr "5sigABC") j)
           (Law.unwrapped (S j) (PStr "5sigABC"))) /\
    let last := [] ++ Law.unconfirmed_attempts (PStr "5sigABC") n in
    match fst (SolanaClient.confirm_transaction_with_retry Sample.node
                 (PStr "5sigABC") 3 []) with
    | Ok v =>
        (v = PBool true /\
         Law.confirmed_reply Sample.node last (Law.unwrapped (S n) (PStr "5sigABC"))) \/
        (v = PBool false /\ Z.of_nat n = 3 - 1 /\
         Law.unconfirmed_reply Sample.node last (Law.unwrapped (S n) (PStr "5sigABC")))
    | Raise e =>
        Z.of_nat n = 3 - 1 /\
        Law.unusable_reply Sample.node last (Law.unwrapped (S n) (PStr "5sigABC")) /\
        e = SolanaClient.confirmation_failed 3
    end.
Proof.
  apply (confirm_transaction_with_retry_policy Sample.node (PStr "5sigABC") 3 []). lia.
Defined.

(** A transfer without a key. *)
Lemma send_sol_validates_first_witness :
  exists e,
    SolanaService.send_sol Sample.lib_keys Sample.rt Sample.node "" "Receiver"
      Sample.two_point_01 []
    = (Raise e, []) /\
    exn_cls e = ValueError.
Proof.
  apply (send_sol_validates_first Sample.lib_keys Sample.rt Sample.node "" "Receiver"
           Sample.two_point_01 []).
  left. reflexivity.
Defined.

(** A transfer of 2.01 SOL: the product [2.01 * 1e9] falls just below
    2010000000 and is cut down to 2009999999 lamports. *)
Example send_sol_two_point_01 :
  SolanaService.send_sol Sample.lib_keys Sample.rt Sample.node "senderKey" "Receiver"
    Sample.two_point_01 []
  = (Ok (PStr "4transferSig"),
     [Wire.Call Wire.GetLatestBlockhash;
      Wire.Call
        (Wire.SendTransaction
           {| Wire.from_pubkey := "SenderPubkey";
              Wire.to_pubkey := "Receiver";
              Wire.lamports := 2009999999;
              Wire.blockhash := "9sHcv6xwn9YkB8nxTUGKDwPwNnmqVp5oAXxU8Fdkm4J6" |}
           {| secret_key := Sample.bytes64; public_key := "SenderPubkey" |})]).
Proof. vm_compute. reflexivity. Qed.

Lemma send_sol_success_witness :
  exists lamports,
    SolanaService.sol_to_lamports Sample.two_point_01 = Ok lamports /\
    lamports = 2009999999.
Proof.
  destruct (send_sol_success Sample.lib_keys Sample.rt Sample.node
              "senderKey" "Receiver" Sample.two_point_01 [] _ _ send_sol_two_point_01)
    as (secret & keypair & to_pubkey & lamports & blockhash_resp & recent_blockhash
        & tx_resp & _ & _ & _ & _ & _ & Hlamports & _).
  exists lamports. split; [exact Hlamports|].
  vm_compute in Hlamports. now injection Hlamports as <-.
Defined.

(** A key as the sample cipher stores it. *)
Lemma recognised_key_has_no_fallback_witness :
  KeyUtils.decrypt_private_key Sample.lib_keys Sample.stored_key
  = KeyUtils.decrypt_private_key_body Sample.lib_keys Sample.stored_key.
Proof.
  apply (recognised_key_has_no_fallback Sample.lib_keys Sample.stored_key).
  vm_compute. reflexivity.
Defined.

(** A damaged key in the store, and no encryption key configured. *)
Lemma get_wallet_undecryptable_witness :
  WalletService.get_wallet Demo.lib Sample.rt (Sample.store_of Sample.damaged_wallet) 7 []
  = (Ok PNone, [Wire.Call (Wire.GetDocument "7")]).
Proof.
  eapply (get_wallet_undecryptable Demo.lib Sample.rt
            (Sample.store_of Sample.damaged_wallet) 7 [] Sample.damaged_wallet).
  - vm_compute. reflexivity.
  - reflexivity.
  - reflexivity.
  - vm_compute. reflexivity.
  - vm_compute. reflexivity.
Defined.

(** Five tokens in the JSON document of the node. *)
Lemma token_balance_of_json_document_witness :
  SolanaService.token_balance_of Sample.lib_keys Sample.rt (PDict Sample.balance_json)
  = Ok SolanaService.zero.
Proof.
  apply (token_balance_of_json_document Sample.lib_keys Sample.rt
           Sample.balance_json Sample.balance_result).
  - vm_compute. reflexivity.
  - reflexivity.
  - reflexivity.
  - reflexivity.
Defined.

(** A new wallet while the store takes no writes. *)
Lemma create_wallet_ignores_a_refused_write_witness :
  WalletService.create_wallet Sample.lib_keys Sample.rt Sample.refusing_store 7
    Sample.new_keypair []
  = (Ok (WalletService.wallet_of (PStr Demo.wallet) (PStr Demo.key44)),
     [] ++ [Wire.Call Wire.UtcNow; Wire.Call Wire.UtcNow;
            Wire.Call
              (Wire.SetDocument (Str.of_Z 7)
                 (PDict [("wallet", PDict [("public_key", PStr Demo.wallet);
                                           ("private_key", PStr Sample.stored_key);
                                           ("created_at", PStr "2024-05-01T10:00:00")]);
                         ("updated_at", PStr "2024-05-01 10:00:00")]))]).
Proof.
  apply (create_wallet_ignores_a_refused_write Sample.lib_keys Sample.rt
           Sample.refusing_store 7 Sample.new_keypair [] Sample.stored_key
           (PStr "2024-05-01 10:00:00") (PStr "2024-05-01 10:00:00")
           "2024-05-01T10:00:00" Demo.key44 _
           (mkExn Exception "503 The service is currently unavailable")).
  - reflexivity.
  - reflexivity.
  - vm_compute. reflexivity.
  - reflexivity.
  - reflexivity.
  - reflexivity.
  - reflexivity.
Defined.

(** A new wallet, then a read of it. *)
Lemma get_wallet_after_create_wallet_witness :
  WalletService.get_wallet Sample.lib_keys Sample.rt Sample.node 7
    [Wire.Call Wire.UtcNow; Wire.Call Wire.UtcNow;
     Wire.Call
       (Wire.SetDocument "7"
          (PDict [("wallet", PDict [("public_key", PStr Demo.wallet);
                                    ("private_key", PStr Sample.stored_key);
                                    ("created_at", PStr "2024-05-01T10:00:00")]);
                  ("updated_at", PStr "2024-05-01 10:00:00")]))]
  = (Ok (WalletService.wallet_of (PStr Demo.wallet) (PStr Demo.key44)),
     [Wire.Call Wire.UtcNow; Wire.Call Wire.UtcNow;
      Wire.Call
        (Wire.SetDocument "7"
           (PDict [("wallet", PDict [("public_key", PStr Demo.wallet);
                                     ("private_key", PStr Sample.stored_key);
                                     ("created_at", PStr "2024-05-01T10:00:00")]);
                   ("updated_at", PStr "2024-05-01 10:00:00")]))]
       ++ [Wire.Call (Wire.GetDocument (Str.of_Z 7))]).
Proof.
  apply (get_wallet_after_create_wallet Sample.lib_keys Sample.rt Sample.node 7
           Sample.new_keypair [] _ _ Demo.key44).
  - reflexivity.
  - intros t'. eexists. reflexivity.
  - intros encrypted_private_key H. vm_compute in H. injection H as <-.
    split; vm_compute; reflexivity.
  - vm_compute. reflexivity.
  - vm_compute. eexists. split; [reflexivity|]. split; [discriminate | reflexivity].
Defined.

(** The first read of a wallet stored with its key in the clear. *)
Lemma get_wallet_encrypts_a_stored_key_witness :
  WalletService.get_wallet Sample.lib_keys Sample.rt (Sample.store_of Sample.plain_wallet)
    7 []
  = (Ok (WalletService.wallet_of (PStr Demo.wallet) (PStr Demo.key44)),
     [] ++ [Wire.Call (Wire.GetDocument (Str.of_Z 7));
            Wire.Call Wire.UtcNow; Wire.Call Wire.UtcNow;
            Wire.Call
              (Wire.SetDocument (Str.of_Z 7)
                 (PDict [("wallet", PDict [("public_key", PStr Demo.wallet);
                                           ("private_key", PStr Sample.stored_key);
                                           ("updated_at", PStr "2024-05-01T10:00:00")]);
                         ("updated_at", PStr "2024-05-01 10:00:00")]))]).
Proof.
  apply (get_wallet_encrypts_a_stored_key Sample.lib_keys Sample.rt
           (Sample.store_of Sample.plain_wallet) 7 [] (PStr Demo.wallet)
           Demo.key44 Sample.stored_key (PStr "2024-05-01 10:00:00")
           (PStr "2024-05-01 10:00:00") "2024-05-01T10:00:00" _ eq_refl).
  - exists (PDict [("wallet", Sample.plain_wallet)]), Sample.plain_wallet.
    split; [reflexivity|]. split; [discriminate|].
    split; [reflexivity|]. split; reflexivity.
  - vm_compute. reflexivity.
  - vm_compute. reflexivity.
  - reflexivity.
  - reflexivity.
  - reflexivity.
Defined.
(** The script run on a wallet whose key is encrypted already. *)
Lemma encrypt_user_private_key_leaves_encrypted_keys_witness :
  Migration.encrypt_user_private_key Sample.lib_keys Sample.rt
    (Sample.store_of (PDict Sample.encrypted_entries)) 7 []
  = (Ok true, [Wire.Call (Wire.GetDocument "7")]).
Proof.
  apply (encrypt_user_private_key_leaves_encrypted_keys Sample.lib_keys Sample.rt
           (Sample.store_of (PDict Sample.encrypted_entries)) 7 []
           Sample.encrypted_entries Sample.stored_key).
  - vm_compute. reflexivity.
  - reflexivity.
  - vm_compute. reflexivity.
Defined.

(** The script run on a wallet whose key is in the clear. *)
Lemma encrypt_user_private_key_replaces_only_the_key_witness :
  exists ok evs,
    Migration.encrypt_user_private_key Sample.lib_keys Sample.rt
      (Sample.store_of Sample.plain_wallet) 7 []
    = (Ok ok, [Wire.Call (Wire.GetDocument "7")] ++ evs) /\
    (Law.writes evs <= 1)%nat /\
    (forall s wallet, In s evs -> Law.stored_wallet s = Some wallet ->
       exists encrypted_key d',
         KeyUtils.encrypt_private_key Sample.lib_keys Sample.rt Demo.key44
         = Ok encrypted_key /\
         wallet = PDict d' /\
         assoc "private_key" d' = Some (PStr encrypted_key) /\
         forall k, k <> "private_key" -> assoc k d' = assoc k Sample.plain_entries) /\
    (ok = true -> Law.writes evs = 1%nat).
Proof.
  apply (encrypt_user_private_key_replaces_only_the_key Sample.lib_keys Sample.rt
           (Sample.store_of Sample.plain_wallet) 7 [] Sample.plain_entries Demo.key44).
  - vm_compute. reflexivity.
  - reflexivity.
  - vm_compute. reflexivity.
Defined.
